(** * mysql-user-migration: the migration and safe-removal engine

    A shallow embedding of [migrate.js] (class [UserMigrator]), of
    [remove-user.js] (class [UserRemover]), of the schema-scanning
    [analyze-database.js] (class [DatabaseAnalyzer]), of
    [config/tables.js] and of the configuration test of [test.js] (class
    [MigrationTester]), together with the properties of the
    transactional migration, the integrity check and the removal gate.

    The connection pool, the schema catalogue and the file system are
    collaborators of the engine: the programs are written against the
    interface [Environment], and two instances are given, an in-memory
    MySQL-like store ([MySQL]) and a store that replays scripted responses
    ([Scripted]).

    [this.log] and the console output are left out: they append to an
    in-memory array and print, and change neither the control flow nor
    the data. The log file and the backup file written with
    [fs.writeFileSync] are kept, since a failed write throws. Every call
    to a collaborator is recorded, with what it gave back, in the trace
    of the run. *)

From Stdlib Require Import ZArith List String Ascii Bool Lia Permutation.
Import ListNotations.
Local Open Scope string_scope.
Local Open Scope list_scope.
Local Open Scope Z_scope.

(* ===================================================================== *)
(** * JavaScript values used by the constructors *)
(* ===================================================================== *)

Module JS.

(** JavaScript strings are held as Rocq strings: the bytes of their UTF-8
  encoding, which is how the settings of [process.env] and the names of
  the catalogue reach the program. Comparing two strings, and looking
  for an ASCII suffix, give the same answer on the bytes as on the
  characters. *)

(** [process.env]: a variable is either unset ([undefined]) or a string. *)
Definition env := string -> option string.

(** The result of [parseInt]: [NaN] or a number with an integer value.
  Both zeros of JavaScript are the one [0] here (both are falsy). A
  number is a double: an integer written with more than 53 significant
  bits is rounded to the nearest double ([roundToDouble]), and an
  infinity is written as the integer 2^1024, in magnitude beyond every
  double and every identifier a column can hold. *)
Inductive number : Type :=
| NaN
| Num (n : Z).

(** White space skipped by [parseInt] (StrWhiteSpaceChar: the WhiteSpace
  and LineTerminator code points of ECMAScript) whose UTF-8 encoding is
  one byte: TAB, LF, VT, FF, CR and SP. *)
Definition isWhiteSpace (c : ascii) : bool :=
let n := N_of_ascii c in
((9 <=? n) && (n <=? 13))%N || (n =? 32)%N.

(** The one of two bytes: U+00A0, no-break space (C2 A0). *)
Definition isWhiteSpace2 (c1 c2 : ascii) : bool :=
((N_of_ascii c1 =? 194) && (N_of_ascii c2 =? 160))%N.

(** Those of three bytes: U+1680 (E1 9A 80); U+2000 to U+200A
  (E2 80 80 to E2 80 8A); the line and paragraph separators U+2028 and
  U+2029 (E2 80 A8, E2 80 A9); U+202F (E2 80 AF); U+205F (E2 81 9F);
  U+3000 (E3 80 80); and U+FEFF, the byte order mark (EF BB BF). *)
Definition isWhiteSpace3 (c1 c2 c3 : ascii) : bool :=
let a := N_of_ascii c1 in
let b := N_of_ascii c2 in
let c := N_of_ascii c3 in
(((a =? 225) && (b =? 154) && (c =? 128))
 || ((a =? 226) && (b =? 128)
     && (((128 <=? c) && (c <=? 138)) || (c =? 168) || (c =? 169)
         || (c =? 175)))
 || ((a =? 226) && (b =? 129) && (c =? 159))
 || ((a =? 227) && (b =? 128) && (c =? 128))
 || ((a =? 239) && (b =? 187) && (c =? 191)))%N.

Fixpoint trimStart (s : string) : string :=
match s with
| EmptyString => s
| String c1 r1 =>
    if isWhiteSpace c1 then trimStart r1
    else
      match r1 with
      | EmptyString => s
      | String c2 r2 =>
          if isWhiteSpace2 c1 c2 then trimStart r2
          else
            match r2 with
            | EmptyString => s
            | String c3 r3 =>
                if isWhiteSpace3 c1 c2 c3 then trimStart r3 else s
            end
      end
end.

(** The integer value of the double nearest to the integer [n], ties
  going to the even significand; 2^1024, with the sign of [n], when that
  double is an infinity. Integers below 2^53 in magnitude are exact. *)
Definition roundToDouble (n : Z) : Z :=
let a := Z.abs n in
if a <? 2 ^ 53 then n
else
  let e := Z.log2 a - 52 in
  let q := Z.shiftr a e in
  let r := a - Z.shiftl q e in
  let half := Z.shiftl 1 (e - 1) in
  let q' := if (half <? r) || ((r =? half) && Z.odd q) then q + 1 else q in
  let v := Z.shiftl q' e in
  Z.sgn n * (if 2 ^ 1024 <=? v then 2 ^ 1024 else v).

(** The value of a character as a digit: 0..9, then a..z and A..Z from 10. *)
Definition digitValue (c : ascii) : option Z :=
let n := Z.of_N (N_of_ascii c) in
if (48 <=? n) && (n <=? 57) then Some (n - 48)
else if (97 <=? n) && (n <=? 122) then Some (n - 87)
else if (65 <=? n) && (n <=? 90) then Some (n - 55)
else None.

(** The longest prefix of digits of the radix, read as an integer;
  [acc] is [None] until a first digit is read. *)
Fixpoint parseDigits (radix : Z) (s : string) (acc : option Z) : option Z :=
match s with
| EmptyString => acc
| String c r =>
    match digitValue c with
    | Some d =>
        if d <? radix
        then parseDigits radix r
               (Some (radix * match acc with Some a => a | None => 0 end + d))
        else acc
    | None => acc
    end
end.

(** [parseInt(string)] with no radix argument: leading white space, an
  optional sign, an optional [0x] or [0X] prefix (radix 16, else radix
  10), then the longest run of digits, read as an integer and rounded
  to a double; [NaN] when there is no digit. *)
Definition parseInt (s : string) : number :=
let s1 := trimStart s in
let '(sign, s2) :=
  match s1 with
  | String "-" r => (-1, r)
  | String "+" r => (1, r)
  | _ => (1, s1)
  end in
let '(radix, s3) :=
  match s2 with
  | String "0" (String "x" r) => (16, r)
  | String "0" (String "X" r) => (16, r)
  | _ => (10, s2)
  end in
match parseDigits radix s3 None with
| Some n => Num (roundToDouble (sign * n))
| None => NaN
end.

(** [parseInt(process.env.X)]: an unset variable is [undefined], which
  [parseInt] first turns into the string ["undefined"]. *)
Definition parseIntEnv (v : option string) : number :=
match v with
| Some s => parseInt s
| None => parseInt "undefined"
end.

(** [n || d] on numbers: [NaN] and zero are falsy. *)
Definition orDefault (n : number) (d : Z) : Z :=
match n with
| NaN => d
| Num 0 => d
| Num k => k
end.

(** [v === s] for an environment variable [v] and a string literal [s]. *)
Definition strictEqual (v : option string) (s : string) : bool :=
match v with
| Some x => String.eqb x s
| None => false
end.

(** [s.endsWith(suffix)]. *)
Definition endsWith (s suffix : string) : bool :=
let n := String.length s in
let m := String.length suffix in
(m <=? n)%nat && String.eqb (substring (n - m) m s) suffix.

(** A plain object created by [{}], as the engine uses it: a map from
  string keys to values of one type. The list holds the own properties
  in the order of their first assignment, and a later assignment to a
  key replaces its value in place. [get] and [set] are [obj[k]] and
  [obj[k] = v] on own properties. Two things of JavaScript are kept
  apart from them: the order in which [Object.entries] lists the keys
  ([entries]), and the members that [obj[k]] finds on [Object.prototype]
  when there is no own property ([inherited]); the one read of the
  engine whose outcome depends on such a member is the one of
  [findTablesWithUserId]. An assignment under the key [__proto__] would
  set the prototype and make no property: the engine assigns under the
  table names of [MIGRATION_TABLES] and of a table map, and a table map
  holds no such name. *)
Definition object (A : Type) := list (string * A).

Fixpoint get {A : Type} (o : object A) (k : string) : option A :=
match o with
| [] => None
| (k', v) :: r => if String.eqb k' k then Some v else get r k
end.

Fixpoint set {A : Type} (o : object A) (k : string) (v : A) : object A :=
match o with
| [] => [(k, v)]
| (k', v') :: r =>
    if String.eqb k' k then (k', v) :: r else (k', v') :: set r k v
end.

(** The names of the members of [Object.prototype]: for such a key,
  [obj[k]] on an object without that own property is a function, or
  the prototype itself for [__proto__], and never [undefined]. *)
Definition inherited (k : string) : bool :=
existsb (String.eqb k)
  ["constructor"; "__defineGetter__"; "__defineSetter__"; "hasOwnProperty";
   "__lookupGetter__"; "__lookupSetter__"; "isPrototypeOf";
   "propertyIsEnumerable"; "toString"; "valueOf"; "__proto__";
   "toLocaleString"].

Fixpoint allDigits (s : string) : bool :=
match s with
| EmptyString => true
| String c r =>
    let n := N_of_ascii c in
    ((48 <=? n) && (n <=? 57))%N && allDigits r
end.

(** A key that is an array index: the decimal digits of an integer from
  0 to 2^32 - 2, with no sign and no leading zero. *)
Definition arrayIndex (k : string) : option Z :=
match k with
| EmptyString => None
| String c r =>
    if allDigits k
       && (negb (Ascii.eqb c "0") || String.eqb r EmptyString)
    then
      match parseDigits 10 k None with
      | Some n => if n <=? 4294967294 then Some n else None
      | None => None
      end
    else None
end.

Fixpoint insertIndexed {A : Type} (i : Z) (e : string * A)
  (l : list (Z * (string * A))) : list (Z * (string * A)) :=
match l with
| [] => [(i, e)]
| (j, e') :: r =>
    if i <? j then (i, e) :: l else (j, e') :: insertIndexed i e r
end.

(** The own properties whose key is an array index, by ascending index. *)
Definition indexed {A : Type} (o : object A) : list (Z * (string * A)) :=
fold_right
  (fun e acc =>
     match arrayIndex (fst e) with
     | Some i => insertIndexed i e acc
     | None => acc
     end)
  [] o.

(** [Object.entries(o)]: the properties whose key is an array index
  first, by ascending index, then the others in the order of their
  first assignment. [Object.values(o)] is [map snd (entries o)]. *)
Definition entries {A : Type} (o : object A) : list (string * A) :=
map snd (indexed o)
++ filter (fun e => match arrayIndex (fst e) with
                    | Some _ => false
                    | None => true
                    end) o.

End JS.

(* ===================================================================== *)
(** * config/tables.js *)
(* ===================================================================== *)

(** One entry of [MIGRATION_TABLES]: a table and its reference column. *)
Record Binding : Type := { table : string; column : string }.

Definition MIGRATION_TABLES : list Binding :=
  [ {| table := "content"; column := "user_id" |};
    {| table := "media"; column := "user_id" |} ].

Definition getMigrationTables : list Binding := MIGRATION_TABLES.

(** [RunMode] of the specification, as read off the [dryRun] flag. *)
Inductive RunMode : Type := Simulate | Execute.

Definition modeOf (dryRun : bool) : RunMode :=
  if dryRun then Simulate else Execute.

(* ===================================================================== *)
(** * Rows, files, errors and the calls made to the collaborators *)
(* ===================================================================== *)

(** A cell of a result row. *)
Inductive value : Type :=
| VNull
| VInt (n : Z)
| VStr (s : string).

(** A row: column name and value, in column order. *)
Definition row := list (string * value).

(** The files the engine writes with [fs.writeFileSync]. File names carry
    [Date.now()], which is left out; a backup holds the user id and the
    row read from the user table. *)
Inductive file : Type :=
| UserBackup (userId : Z) (userData : row) (migrationTables : list Binding)
| RemovalLog (sourceUserId : Z) (dryRun : bool)
| MigrationLog (sourceUserId targetUserId : Z) (dryRun : bool).

(** What can be thrown. [QueryError] and [IOError] come from the driver
    and the file system with their message; the others are the
    [new Error(...)] of the engine, named after their message. *)
Inductive error : Type :=
| QueryError (message : string)
| IOError (message : string)
| SourceUserNotFound (id : Z)   (* Usuario origem (ID id) nao encontrado *)
| TargetUserNotFound (id : Z)   (* Usuario destino (ID id) nao encontrado *)
| UnsafeToRemove (totalReferences : Z)
                                (* Nao e seguro remover o usuario. n referencias restantes encontradas. *)
| BackupUserNotFound (id : Z)   (* Usuario id nao encontrado para backup *)
| NoUserDeleted (id : Z)        (* Nenhum usuario encontrado com ID id *)
| NotAFunction (tableName : string).
                                (* TypeError: tableMap[tableName].push is not a function *)

(** The calls the engine makes, as they are recorded in the trace of a
    run. The first five are statements given to [pool.execute]:
    - [SelectById t id l]: SELECT all columns FROM t WHERE id = ?, with
      LIMIT 1 when [l] is set;
    - [CountWhere t c id]: SELECT COUNT of the rows of t WHERE c = ?;
    - [UpdateWhere t c new old]: UPDATE t SET c = new WHERE c = old;
    - [DeleteById t id]: DELETE FROM t WHERE id = ?;
    - [ListUserIdColumns]: the INFORMATION_SCHEMA.COLUMNS query for the
      columns LIKE user_id, ordered by table and column name.
    The next five are [pool.getConnection()] and the methods of the
    connection it returns; then [pool.end()] and [fs.writeFileSync]. *)
Inductive call : Type :=
| SelectById (tbl : string) (id : Z) (limit1 : bool)
| CountWhere (tbl col : string) (id : Z)
| UpdateWhere (tbl col : string) (newId oldId : Z)
| DeleteById (tbl : string) (id : Z)
| ListUserIdColumns
| GetConnection
| BeginTransaction
| Commit
| Rollback
| Release
| PoolEnd
| WriteFile (f : file).

(** What a call gave back: the message of the error it threw, or its
    result (rows, a count or a number of affected rows, catalogue
    entries, or nothing). *)
Inductive response : Type :=
| Failed (message : string)
| Rows (rows : list row)
| Number (n : Z)
| Names (entries : list (string * string))
| Done.

(** A call and what it gave back. *)
Record event : Type := { ev_call : call; ev_response : response }.

(** The collaborators, over a world [W] that they read and change. A
    failing call gives the message of the error it throws.
    [connection.release()] and [pool.end()] are taken not to throw. *)
Class Environment (W : Type) : Type := {
  select_by_id : string -> Z -> bool -> W -> (string + list row) * W;
  count_where : string -> string -> Z -> W -> (string + Z) * W;
  update_where : string -> string -> Z -> Z -> W -> (string + Z) * W;
  delete_by_id : string -> Z -> W -> (string + Z) * W;
  list_user_id_columns : W -> (string + list (string * string)) * W;
  get_connection : W -> (string + unit) * W;
  begin_transaction : W -> (string + unit) * W;
  commit : W -> (string + unit) * W;
  rollback : W -> (string + unit) * W;
  release : W -> W;
  pool_end : W -> W;
  write_file : file -> W -> (string + unit) * W
}.

(* ===================================================================== *)
(** * The monad of a run: state, exceptions, try/catch/finally *)
(* ===================================================================== *)

(** The state of a run: the world, the calls made so far, and the local
    variable [connection] of [executeMigration] and of [run]
    ([false] while it is undefined). *)
Record state (W : Type) : Type := {
  world : W;
  trace : list event;
  connection : bool
}.
Arguments world {W} _.
Arguments trace {W} _.
Arguments connection {W} _.

(** The state a run starts from: nothing called, [connection] undefined. *)
Definition init {W : Type} (w : W) : state W :=
  {| world := w; trace := []; connection := false |}.

Inductive outcome (A : Type) : Type :=
| Ok (a : A)
| Threw (e : error).
Arguments Ok {A} _.
Arguments Threw {A} _.

Definition M (W A : Type) : Type := state W -> outcome A * state W.

Definition ret {W A : Type} (a : A) : M W A := fun s => (Ok a, s).

Definition throw {W A : Type} (e : error) : M W A := fun s => (Threw e, s).

Definition bind {W A B : Type} (m : M W A) (k : A -> M W B) : M W B :=
  fun s =>
    match m s with
    | (Ok a, s') => k a s'
    | (Threw e, s') => (Threw e, s')
    end.

Declare Scope run_scope.
Delimit Scope run_scope with run.
Notation "x <- m ;; k" := (bind m (fun x => k))
  (at level 100, m at next level, right associativity) : run_scope.
Notation "m ;;; k" := (bind m (fun _ => k))
  (at level 100, right associativity) : run_scope.
Local Open Scope run_scope.

(** [try { m } catch (error) { h error }]. *)
Definition try_catch {W A : Type} (m : M W A) (h : error -> M W A) : M W A :=
  fun s =>
    match m s with
    | (Ok a, s') => (Ok a, s')
    | (Threw e, s') => h e s'
    end.

(** [try { m } finally { f }]: [f] runs on both paths, and an error thrown
    by [f] replaces the outcome of [m]. *)
Definition finally {W A : Type} (m : M W A) (f : M W unit) : M W A :=
  fun s =>
    let '(r, s') := m s in
    match f s' with
    | (Ok _, s'') => (r, s'')
    | (Threw e, s'') => (Threw e, s'')
    end.

(** The state after a call: the world as the collaborator left it, and
    the call added to the trace. *)
Definition record {W : Type} (s : state W) (w' : W) (c : call) (r : response)
  : state W :=
  {| world := w';
     trace := trace s ++ [{| ev_call := c; ev_response := r |}];
     connection := connection s |}.

Section Calls.
Context {W : Type} `{Environment W}.

(** A call to a collaborator: the world changes as the collaborator
    says, and the call is recorded with its outcome. *)
Definition perform {A : Type} (c : call) (f : W -> (string + A) * W)
    (wrap : string -> error) (show : A -> response) : M W A :=
  fun s =>
    let '(r, w') := f (world s) in
    match r with
    | inr a => (Ok a, record s w' c (show a))
    | inl msg => (Threw (wrap msg), record s w' c (Failed msg))
    end.

(** A call that cannot fail. *)
Definition perform_ (c : call) (f : W -> W) : M W unit :=
  fun s => (Ok tt, record s (f (world s)) c Done).

Definition poolSelectById (tbl : string) (id : Z) (limit1 : bool)
  : M W (list row) :=
  perform (SelectById tbl id limit1) (select_by_id tbl id limit1)
          QueryError Rows.

Definition poolCount (tbl col : string) (id : Z) : M W Z :=
  perform (CountWhere tbl col id) (count_where tbl col id) QueryError Number.

Definition poolUpdate (tbl col : string) (newId oldId : Z) : M W Z :=
  perform (UpdateWhere tbl col newId oldId)
          (update_where tbl col newId oldId) QueryError Number.

Definition poolDelete (tbl : string) (id : Z) : M W Z :=
  perform (DeleteById tbl id) (delete_by_id tbl id) QueryError Number.

Definition poolListUserIdColumns : M W (list (string * string)) :=
  perform ListUserIdColumns list_user_id_columns QueryError Names.

(** The assignment to the local variable [connection]. *)
Definition assignConnection : M W unit :=
  fun s => (Ok tt, {| world := world s; trace := trace s;
                      connection := true |}).

(** [connection = await this.pool.getConnection()]. *)
Definition poolGetConnection : M W unit :=
  perform GetConnection get_connection QueryError (fun _ => Done) ;;;
  assignConnection.

Definition connBeginTransaction : M W unit :=
  perform BeginTransaction begin_transaction QueryError (fun _ => Done).

Definition connCommit : M W unit :=
  perform Commit commit QueryError (fun _ => Done).

Definition connRollback : M W unit :=
  perform Rollback rollback QueryError (fun _ => Done).

Definition connRelease : M W unit := perform_ Release release.

Definition poolEnd : M W unit := perform_ PoolEnd pool_end.

Definition writeFileSync (f : file) : M W unit :=
  perform (WriteFile f) (write_file f) IOError (fun _ => Done).

(** Reads the local variable [connection]. *)
Definition connectionDefined : M W bool :=
  fun s => (Ok (connection s), s).

End Calls.

(** The predicate of the three [columns.find(...)]: the column is
    [user_id], [usuario_id], or ends with [_user_id]. *)
Definition isUserIdColumn (c : string) : bool :=
  String.eqb c "user_id" || String.eqb c "usuario_id"
  || JS.endsWith c "_user_id".

(* ===================================================================== *)
(** * analyze-database.js: class DatabaseAnalyzer (schema scan) *)
(* ===================================================================== *)

Module DatabaseAnalyzer.

(** The analyzer keeps [process.env.SOURCE_USER_ID || 41] as it is, a
    string when the variable is set. [sourceUserId] is the integer the
    server compares the column with once it has converted that
    parameter; with a plain decimal setting it is the migrator's own
    [sourceUserId]. *)
Record t : Type := { sourceUserId : Z }.

(** [process.env.SOURCE_USER_ID || 41] of the constructor: the setting
    itself, not parsed, unless it is unset or the empty string. *)
Definition sourceUserIdSetting (env : JS.env) : string + Z :=
  match env "SOURCE_USER_ID" with
  | None | Some EmptyString => inr 41
  | Some s => inl s
  end.

(** The body of [rows.forEach]: a table for which [tableMap[name]] is
    falsy gets a fresh array, then the column is pushed to
    [tableMap[name]]. For a table named like a member of
    [Object.prototype], [tableMap[name]] is that member: it is truthy,
    no array is made, and [push] is not a function of it. *)
Definition pushColumn (tableMap : JS.object (list string))
    (r : string * string) : error + JS.object (list string) :=
  let '(tableName, columnName) := r in
  match JS.get tableMap tableName with
  | Some columns => inr (JS.set tableMap tableName (columns ++ [columnName]))
  | None =>
      if JS.inherited tableName then inl (NotAFunction tableName)
      else inr (JS.set tableMap tableName [columnName])
  end.

(** [rows.forEach(...)], which stops at the first row that throws. *)
Fixpoint pushColumns (rows : list (string * string))
    (tableMap : JS.object (list string))
  : error + JS.object (list string) :=
  match rows with
  | [] => inr tableMap
  | r :: rest =>
      match pushColumn tableMap r with
      | inr tableMap' => pushColumns rest tableMap'
      | inl e => inl e
      end
  end.

(** An entry of [recordCounts]; the whole error stands for its message. *)
Record RecordCount : Type := { count : Z; error : option error }.

Section WithEnvironment.
Context {W : Type} `{Environment W}.

Definition findTablesWithUserId : M W (JS.object (list string)) :=
  try_catch
    (rows <- poolListUserIdColumns ;;
     match pushColumns rows [] with
     | inr tableMap => ret tableMap
     | inl e => throw e
     end)
    (fun error => throw error).

(** The [for] loop of [countRecordsByTable], one entry at a time; a
    failed count is recorded as a count of zero with the error. *)
Fixpoint countEach (a : t) (entries : list (string * list string))
    (recordCounts : JS.object RecordCount)
  : M W (JS.object RecordCount) :=
  match entries with
  | [] => ret recordCounts
  | (tableName, columns) :: rest =>
      recordCounts' <-
        try_catch
          (match find isUserIdColumn columns with
           | Some userIdColumn =>
               n <- poolCount tableName userIdColumn (sourceUserId a) ;;
               ret (JS.set recordCounts tableName
                      {| count := n; error := None |})
           | None => ret recordCounts
           end)
          (fun err =>
             ret (JS.set recordCounts tableName
                    {| count := 0; error := Some err |})) ;;
      countEach a rest recordCounts'
  end.

Definition countRecordsByTable (a : t)
    (tableMap : JS.object (list string)) : M W (JS.object RecordCount) :=
  try_catch (countEach a (JS.entries tableMap) [])
            (fun error => throw error).

End WithEnvironment.

End DatabaseAnalyzer.

(* ===================================================================== *)
(** * migrate.js: class UserMigrator *)
(* ===================================================================== *)

Module UserMigrator.

Record t : Type := {
  sourceUserId : Z;
  targetUserId : Z;
  dryRun : bool
}.

(** The constructor, from [process.env]. *)
Definition new (env : JS.env) : t :=
  {| sourceUserId := JS.orDefault (JS.parseIntEnv (env "SOURCE_USER_ID")) 41;
     targetUserId := JS.orDefault (JS.parseIntEnv (env "TARGET_USER_ID")) 358;
     dryRun := JS.strictEqual (env "DRY_RUN") "true" |}.

(** What [migrateTable] returns; [existingRecords] is only there after a
    rewrite. *)
Record PerTableResult : Type := {
  migrated : Z;
  skipped : Z;
  existingRecords : option Z
}.

Record VerificationResult : Type := {
  sourceRemaining : Z;
  targetTotal : Z
}.

Record MigrationResult : Type := {
  r_sourceUserId : Z;
  r_targetUserId : Z;
  totalMigrated : Z;
  migrationResults : JS.object PerTableResult;
  r_dryRun : bool
}.

Record RunResult : Type := {
  migration : MigrationResult;
  verification : JS.object VerificationResult;
  logFile : file
}.

(** The [reduce] of [verifyMigration] over [Object.values]. *)
Definition totalSourceRemaining
    (verificationResults : JS.object VerificationResult) : Z :=
  fold_left (fun sum result => sum + sourceRemaining result)
            (map snd (JS.entries verificationResults)) 0.

Section WithEnvironment.
Context {W : Type} `{Environment W}.

Definition saveMigrationLog (m : t) : M W file :=
  let logFile := MigrationLog (sourceUserId m) (targetUserId m) (dryRun m) in
  writeFileSync logFile ;;;
  ret logFile.

Definition validatePrerequisites (m : t) : M W (row * row) :=
  sourceUser <- poolSelectById "users" (sourceUserId m) true ;;
  match sourceUser with
  | [] => throw (SourceUserNotFound (sourceUserId m))
  | sourceUser0 :: _ =>
      targetUser <- poolSelectById "users" (targetUserId m) true ;;
      match targetUser with
      | [] => throw (TargetUserNotFound (targetUserId m))
      | targetUser0 :: _ => ret (sourceUser0, targetUser0)
      end
  end.

Definition migrateTable (m : t) (tableName userIdColumn : string)
  : M W PerTableResult :=
  try_catch
    (recordCount <- poolCount tableName userIdColumn (sourceUserId m) ;;
     if recordCount =? 0 then
       ret {| migrated := 0; skipped := 0; existingRecords := None |}
     else if dryRun m then
       ret {| migrated := 0; skipped := recordCount;
              existingRecords := None |}
     else
       existing <- poolCount tableName userIdColumn (targetUserId m) ;;
       affectedRows <- poolUpdate tableName userIdColumn
                         (targetUserId m) (sourceUserId m) ;;
       ret {| migrated := affectedRows; skipped := 0;
              existingRecords := Some existing |})
    (fun error => throw error).

(** [recordCounts[tableName]?.count > 0]; a member of [Object.prototype]
    has no [count], so that a key without own property gives [false]
    whatever its name. *)
Definition hasRecords
    (recordCounts : JS.object DatabaseAnalyzer.RecordCount)
    (tableName : string) : bool :=
  match JS.get recordCounts tableName with
  | Some rc => 0 <? DatabaseAnalyzer.count rc
  | None => false
  end.

(** The [for] loop of [executeMigration] over [Object.entries(tableMap)];
    the accumulator is [migrationResults] and [totalMigrated]. *)
Fixpoint migrateEach (m : t)
    (recordCounts : JS.object DatabaseAnalyzer.RecordCount)
    (entries : list (string * list string))
    (acc : JS.object PerTableResult * Z)
  : M W (JS.object PerTableResult * Z) :=
  match entries with
  | [] => ret acc
  | (tableName, columns) :: rest =>
      match find isUserIdColumn columns with
      | Some userIdColumn =>
          if hasRecords recordCounts tableName then
            acc' <-
              try_catch
                (result <- migrateTable m tableName userIdColumn ;;
                 ret (JS.set (fst acc) tableName result,
                      snd acc + migrated result))
                (fun error =>
                   (if negb (dryRun m) then connRollback else ret tt) ;;;
                   throw error) ;;
            migrateEach m recordCounts rest acc'
          else migrateEach m recordCounts rest acc
      | None => migrateEach m recordCounts rest acc
      end
  end.

Definition executeMigration (m : t) (analyzer : DatabaseAnalyzer.t)
  : M W MigrationResult :=
  finally
    (try_catch
       (users <- validatePrerequisites m ;;
        tableMap <- DatabaseAnalyzer.findTablesWithUserId ;;
        recordCounts <-
          DatabaseAnalyzer.countRecordsByTable analyzer tableMap ;;
        poolGetConnection ;;;
        (if negb (dryRun m) then connBeginTransaction else ret tt) ;;;
        acc <- migrateEach m recordCounts (JS.entries tableMap) ([], 0) ;;
        let '(migrationResults, totalMigrated) := acc in
        (if negb (dryRun m) && (0 <? totalMigrated)
         then connCommit else ret tt) ;;;
        ret {| r_sourceUserId := sourceUserId m;
               r_targetUserId := targetUserId m;
               totalMigrated := totalMigrated;
               migrationResults := migrationResults;
               r_dryRun := dryRun m |})
       (fun error =>
          c <- connectionDefined ;;
          (if c && negb (dryRun m)
           then try_catch connRollback (fun rollbackError => ret tt)
           else ret tt) ;;;
          throw error))
    (c <- connectionDefined ;;
     if c then connRelease else ret tt).

(** The [for] loop of [verifyMigration]. *)
Fixpoint verifyEach (m : t) (entries : list (string * list string))
    (verificationResults : JS.object VerificationResult)
  : M W (JS.object VerificationResult) :=
  match entries with
  | [] => ret verificationResults
  | (tableName, columns) :: rest =>
      match find isUserIdColumn columns with
      | Some userIdColumn =>
          sourceCount <- poolCount tableName userIdColumn (sourceUserId m) ;;
          targetCount <- poolCount tableName userIdColumn (targetUserId m) ;;
          verifyEach m rest
            (JS.set verificationResults tableName
               {| sourceRemaining := sourceCount;
                  targetTotal := targetCount |})
      | None => verifyEach m rest verificationResults
      end
  end.

Definition verifyMigration (m : t) : M W (JS.object VerificationResult) :=
  try_catch
    (tableMap <- DatabaseAnalyzer.findTablesWithUserId ;;
     verifyEach m (JS.entries tableMap) [])
    (fun error => throw error).

Definition run (m : t) (analyzer : DatabaseAnalyzer.t) : M W RunResult :=
  finally
    (try_catch
       (migrationResult <- executeMigration m analyzer ;;
        verificationResult <- verifyMigration m ;;
        logFile <- saveMigrationLog m ;;
        ret {| migration := migrationResult;
               verification := verificationResult;
               logFile := logFile |})
       (fun error => saveMigrationLog m ;;; throw error))
    poolEnd.

End WithEnvironment.

End UserMigrator.

(* ===================================================================== *)
(** * remove-user.js: class UserRemover *)
(* ===================================================================== *)

Module UserRemover.

Record t : Type := {
  sourceUserId : Z;
  dryRun : bool;
  migrationTables : list Binding
}.

(** The constructor, from [process.env] and [config/tables.js]. *)
Definition new (env : JS.env) : t :=
  {| sourceUserId := JS.orDefault (JS.parseIntEnv (env "SOURCE_USER_ID")) 41;
     dryRun := JS.strictEqual (env "DRY_RUN") "true";
     migrationTables := getMigrationTables |}.

(** An entry of [safetyCheck]; the whole error stands for its message. *)
Record SafetyEntry : Type := {
  se_column : string;
  remainingReferences : Z;
  se_error : option error
}.

Record SafetyResult : Type := {
  isSafe : bool;
  totalReferences : Z;
  safetyCheck : JS.object SafetyEntry
}.

Record RemovalResult : Type := {
  removed : bool;
  simulated : bool;
  affectedRows : option Z
}.

Record RemovalVerification : Type := {
  success : bool;
  userStillExists : bool
}.

Record RunResult : Type := {
  safety : SafetyResult;
  backup : file;
  removal : RemovalResult;
  verification : RemovalVerification;
  logFile : file
}.

(** The sum of the [remainingReferences] recorded in [safetyCheck]. *)
Definition sumRemaining (safetyCheck : JS.object SafetyEntry) : Z :=
  fold_right (fun e acc => remainingReferences (snd e) + acc) 0 safetyCheck.

Section WithEnvironment.
Context {W : Type} `{Environment W}.

Definition saveRemovalLog (r : t) : M W file :=
  let logFile := RemovalLog (sourceUserId r) (dryRun r) in
  writeFileSync logFile ;;;
  ret logFile.

(** The [for] loop of [verifySafeToRemove] over [this.migrationTables];
    the accumulator is [safetyCheck] and [totalReferences]. *)
Fixpoint checkEach (r : t) (bindings : list Binding)
    (acc : JS.object SafetyEntry * Z) : M W (JS.object SafetyEntry * Z) :=
  match bindings with
  | [] => ret acc
  | tableConfig :: rest =>
      let tableName := table tableConfig in
      let userIdColumn := column tableConfig in
      acc' <-
        try_catch
          (count <- poolCount tableName userIdColumn (sourceUserId r) ;;
           ret (JS.set (fst acc) tableName
                  {| se_column := userIdColumn;
                     remainingReferences := count;
                     se_error := None |},
                snd acc + count))
          (fun error =>
             ret (JS.set (fst acc) tableName
                    {| se_column := userIdColumn;
                       remainingReferences := -1;
                       se_error := Some error |},
                  snd acc)) ;;
      checkEach r rest acc'
  end.

Definition verifySafeToRemove (r : t) : M W SafetyResult :=
  try_catch
    (acc <- checkEach r (migrationTables r) ([], 0) ;;
     let '(safetyCheck, totalReferences) := acc in
     let isSafe := totalReferences =? 0 in
     ret {| isSafe := isSafe;
            totalReferences := totalReferences;
            safetyCheck := safetyCheck |})
    (fun error => throw error).

Definition createUserBackup (r : t) : M W file :=
  try_catch
    (userData <- poolSelectById "user" (sourceUserId r) false ;;
     match userData with
     | [] => throw (BackupUserNotFound (sourceUserId r))
     | user :: _ =>
         let backupFile :=
           UserBackup (sourceUserId r) user (migrationTables r) in
         writeFileSync backupFile ;;;
         ret backupFile
     end)
    (fun error => throw error).

Definition removeUserRecord (r : t) : M W RemovalResult :=
  try_catch
    (if dryRun r then
       ret {| removed := false; simulated := true; affectedRows := None |}
     else
       deleted <- poolDelete "user" (sourceUserId r) ;;
       if deleted =? 0 then throw (NoUserDeleted (sourceUserId r))
       else ret {| removed := true; simulated := false;
                   affectedRows := Some deleted |})
    (fun error => throw error).

Definition verifyRemoval (r : t) : M W RemovalVerification :=
  try_catch
    (count <- poolCount "user" "id" (sourceUserId r) ;;
     let userExists := 0 <? count in
     if userExists
     then ret {| success := false; userStillExists := true |}
     else ret {| success := true; userStillExists := false |})
    (fun error => throw error).

Definition run (r : t) : M W RunResult :=
  finally
    (try_catch
       (safetyResult <- verifySafeToRemove r ;;
        (if negb (isSafe safetyResult)
         then throw (UnsafeToRemove (totalReferences safetyResult))
         else ret tt) ;;;
        backupFile <- createUserBackup r ;;
        poolGetConnection ;;;
        (if negb (dryRun r) then connBeginTransaction else ret tt) ;;;
        removalResult <- removeUserRecord r ;;
        verificationResult <- verifyRemoval r ;;
        (if negb (dryRun r) && success verificationResult then connCommit
         else if negb (dryRun r) then connRollback
         else ret tt) ;;;
        logFile <- saveRemovalLog r ;;
        ret {| safety := safetyResult;
               backup := backupFile;
               removal := removalResult;
               verification := verificationResult;
               logFile := logFile |})
       (fun error =>
          c <- connectionDefined ;;
          (if c && negb (dryRun r)
           then try_catch connRollback (fun rollbackError => ret tt)
           else ret tt) ;;;
          saveRemovalLog r ;;;
          throw error))
    (c <- connectionDefined ;;
     (if c then connRelease else ret tt) ;;;
     poolEnd).

End WithEnvironment.

End UserRemover.

(* ===================================================================== *)
(** * An in-memory MySQL-like store *)
(* ===================================================================== *)

Module MySQL.

(** A table: its columns in catalogue order, its rows, and whether the
    account may SELECT, UPDATE and DELETE on it. *)
Record tableData : Type := {
  t_name : string;
  t_columns : list string;
  t_rows : list row;
  can_select : bool;
  can_update : bool;
  can_delete : bool
}.

(** A rewrite issued through the held connection while its transaction
    is open: it waits for the commit. *)
Record pendingUpdate : Type := {
  p_table : string; p_column : string; p_new : Z; p_old : Z
}.

(** The server and the disk. [tables] is the committed data, in
    catalogue order (ORDER BY TABLE_NAME). Statements given to
    [pool.execute] run on a connection of their own, in autocommit mode:
    they change [tables] at once. The connection held by
    [pool.getConnection()] has its own transaction, [pending]. *)
Record db : Type := {
  tables : list tableData;
  files : list file;
  disk_ok : bool;
  in_transaction : bool;
  pending : list pendingUpdate
}.

Fixpoint cell (r : row) (c : string) : option value :=
  match r with
  | [] => None
  | (c', v) :: r' => if String.eqb c' c then Some v else cell r' c
  end.

Fixpoint setCell (r : row) (c : string) (v : value) : row :=
  match r with
  | [] => []
  | (c', v') :: r' =>
      if String.eqb c' c then (c', v) :: r' else (c', v') :: setCell r' c v
  end.

(** WHERE c = id. *)
Definition matches (c : string) (id : Z) (r : row) : bool :=
  match cell r c with
  | Some (VInt n) => n =? id
  | _ => false
  end.

Definition countRows (c : string) (id : Z) (rows : list row) : Z :=
  Z.of_nat (List.length (filter (matches c id) rows)).

Fixpoint findTable (ts : list tableData) (name : string)
  : option tableData :=
  match ts with
  | [] => None
  | t :: r => if String.eqb (t_name t) name then Some t else findTable r name
  end.

Definition hasColumn (t : tableData) (c : string) : bool :=
  existsb (String.eqb c) (t_columns t).

(** The number of rows of table [name] whose column [c] is [id]; zero
    for a table that does not exist. *)
Definition references (ts : list tableData) (name c : string) (id : Z) : Z :=
  match findTable ts name with
  | Some t => countRows c id (t_rows t)
  | None => 0
  end.

Definition withRows (t : tableData) (rows : list row) : tableData :=
  {| t_name := t_name t; t_columns := t_columns t; t_rows := rows;
     can_select := can_select t; can_update := can_update t;
     can_delete := can_delete t |}.

Fixpoint replaceTable (ts : list tableData) (t' : tableData)
  : list tableData :=
  match ts with
  | [] => []
  | t :: r =>
      if String.eqb (t_name t) (t_name t') then t' :: r
      else t :: replaceTable r t'
  end.

Definition withTables (d : db) (ts : list tableData) : db :=
  {| tables := ts; files := files d; disk_ok := disk_ok d;
     in_transaction := in_transaction d; pending := pending d |}.

Definition withTransaction (d : db) (b : bool) (p : list pendingUpdate)
  : db :=
  {| tables := tables d; files := files d; disk_ok := disk_ok d;
     in_transaction := b; pending := p |}.

Definition selectById (name : string) (id : Z) (limit1 : bool) (d : db)
  : (string + list row) * db :=
  match findTable (tables d) name with
  | None => (inl "Table doesn't exist", d)
  | Some t =>
      if negb (can_select t) then (inl "SELECT command denied", d)
      else if negb (hasColumn t "id") then (inl "Unknown column", d)
      else
        let found := filter (matches "id" id) (t_rows t) in
        (inr (if limit1 then firstn 1 found else found), d)
  end.

Definition countWhere (name c : string) (id : Z) (d : db)
  : (string + Z) * db :=
  match findTable (tables d) name with
  | None => (inl "Table doesn't exist", d)
  | Some t =>
      if negb (can_select t) then (inl "SELECT command denied", d)
      else if negb (hasColumn t c) then (inl "Unknown column", d)
      else (inr (countRows c id (t_rows t)), d)
  end.

Definition rewriteRows (c : string) (newId oldId : Z) (rows : list row)
  : list row :=
  map (fun r => if matches c oldId r then setCell r c (VInt newId) else r)
      rows.

(** The driver connects with the FOUND_ROWS flag: [affectedRows] is the
    number of rows the WHERE clause matched. *)
Definition updateWhere (name c : string) (newId oldId : Z) (d : db)
  : (string + Z) * db :=
  match findTable (tables d) name with
  | None => (inl "Table doesn't exist", d)
  | Some t =>
      if negb (can_update t) then (inl "UPDATE command denied", d)
      else if negb (hasColumn t c) then (inl "Unknown column", d)
      else
        (inr (countRows c oldId (t_rows t)),
         withTables d
           (replaceTable (tables d)
              (withRows t (rewriteRows c newId oldId (t_rows t)))))
  end.

Definition deleteById (name : string) (id : Z) (d : db)
  : (string + Z) * db :=
  match findTable (tables d) name with
  | None => (inl "Table doesn't exist", d)
  | Some t =>
      if negb (can_delete t) then (inl "DELETE command denied", d)
      else if negb (hasColumn t "id") then (inl "Unknown column", d)
      else
        (inr (countRows "id" id (t_rows t)),
         withTables d
           (replaceTable (tables d)
              (withRows t
                 (filter (fun r => negb (matches "id" id r)) (t_rows t)))))
  end.

Definition lower (c : ascii) : ascii :=
  let n := N_of_ascii c in
  if ((65 <=? n) && (n <=? 90))%N then ascii_of_N (n + 32) else c.

Definition sameLetter (c l : ascii) : bool := Ascii.eqb (lower c) l.

(** The pattern [user_id] at the head of the string, where the
    underscore of LIKE stands for any one character and letters match
    whatever their case. *)
Definition likeHere (s : string) : bool :=
  match s with
  | String u (String s' (String e (String r (String _
      (String i (String d _)))))) =>
      sameLetter u "u" && sameLetter s' "s" && sameLetter e "e"
      && sameLetter r "r" && sameLetter i "i" && sameLetter d "d"
  | _ => false
  end.

(** COLUMN_NAME LIKE '%user_id%'. *)
Fixpoint likeUserId (s : string) : bool :=
  likeHere s
  || match s with
     | String _ r => likeUserId r
     | EmptyString => false
     end.

Definition listUserIdColumns (d : db)
  : (string + list (string * string)) * db :=
  (inr (flat_map
          (fun t => map (fun c => (t_name t, c))
                        (filter likeUserId (t_columns t)))
          (tables d)),
   d).

Definition getConnection (d : db) : (string + unit) * db := (inr tt, d).

Definition beginTransaction (d : db) : (string + unit) * db :=
  (inr tt, withTransaction d true []).

Definition applyPending (ts : list tableData) (p : pendingUpdate)
  : list tableData :=
  match findTable ts (p_table p) with
  | Some t =>
      replaceTable ts
        (withRows t (rewriteRows (p_column p) (p_new p) (p_old p) (t_rows t)))
  | None => ts
  end.

(** COMMIT makes the rewrites of the connection's transaction part of
    the committed data; ROLLBACK drops them. Neither touches what other
    connections have committed. *)
Definition commitTransaction (d : db) : (string + unit) * db :=
  (inr tt,
   withTransaction (withTables d (fold_left applyPending (pending d) (tables d)))
                   false []).

Definition rollbackTransaction (d : db) : (string + unit) * db :=
  (inr tt, withTransaction d false []).

(** [connection.execute] of a rewrite, which the engine never calls: in
    a transaction the rewrite is pending, otherwise it is autocommitted. *)
Definition connectionUpdate (name c : string) (newId oldId : Z) (d : db)
  : (string + Z) * db :=
  if in_transaction d then
    match findTable (tables d) name with
    | None => (inl "Table doesn't exist", d)
    | Some t =>
        if negb (can_update t) then (inl "UPDATE command denied", d)
        else if negb (hasColumn t c) then (inl "Unknown column", d)
        else
          (inr (countRows c oldId (t_rows t)),
           withTransaction d true
             (pending d ++ [{| p_table := name; p_column := c;
                               p_new := newId; p_old := oldId |}]))
    end
  else updateWhere name c newId oldId d.

Definition writeFile (f : file) (d : db) : (string + unit) * db :=
  if disk_ok d then
    (inr tt,
     {| tables := tables d; files := files d ++ [f]; disk_ok := disk_ok d;
        in_transaction := in_transaction d; pending := pending d |})
  else (inl "ENOSPC", d).

#[global] Instance environment : Environment db := {|
  select_by_id := selectById;
  count_where := countWhere;
  update_where := updateWhere;
  delete_by_id := deleteById;
  list_user_id_columns := listUserIdColumns;
  get_connection := getConnection;
  begin_transaction := beginTransaction;
  commit := commitTransaction;
  rollback := rollbackTransaction;
  release := fun d => d;
  pool_end := fun d => d;
  write_file := writeFile
|}.

(** A healthy server: data [ts], nothing written yet, no transaction. *)
Definition server (ts : list tableData) : db :=
  {| tables := ts; files := []; disk_ok := true;
     in_transaction := false; pending := [] |}.

(** A table the account has every right on. *)
Definition openTable (name : string) (columns : list string)
    (rows : list row) : tableData :=
  {| t_name := name; t_columns := columns; t_rows := rows;
     can_select := true; can_update := true; can_delete := true |}.

End MySQL.

(* ===================================================================== *)
(** * A store that replays scripted responses *)
(* ===================================================================== *)

Module Scripted.

(** The responses still to be given, per kind of statement. Connection
    calls and file writes succeed. *)
Record script : Type := {
  selects : list (string + list row);
  counts : list (string + Z);
  updates : list (string + Z);
  deletes : list (string + Z);
  catalogues : list (string + list (string * string))
}.

Definition exhausted {A : Type} : string + A := inl "no response scripted".

Definition nextSelect (w : script) : (string + list row) * script :=
  match selects w with
  | [] => (exhausted, w)
  | r :: rest =>
      (r, {| selects := rest; counts := counts w; updates := updates w;
             deletes := deletes w; catalogues := catalogues w |})
  end.

Definition nextCount (w : script) : (string + Z) * script :=
  match counts w with
  | [] => (exhausted, w)
  | r :: rest =>
      (r, {| selects := selects w; counts := rest; updates := updates w;
             deletes := deletes w; catalogues := catalogues w |})
  end.

Definition nextUpdate (w : script) : (string + Z) * script :=
  match updates w with
  | [] => (exhausted, w)
  | r :: rest =>
      (r, {| selects := selects w; counts := counts w; updates := rest;
             deletes := deletes w; catalogues := catalogues w |})
  end.

Definition nextDelete (w : script) : (string + Z) * script :=
  match deletes w with
  | [] => (exhausted, w)
  | r :: rest =>
      (r, {| selects := selects w; counts := counts w; updates := updates w;
             deletes := rest; catalogues := catalogues w |})
  end.

Definition nextCatalogue (w : script)
  : (string + list (string * string)) * script :=
  match catalogues w with
  | [] => (exhausted, w)
  | r :: rest =>
      (r, {| selects := selects w; counts := counts w; updates := updates w;
             deletes := deletes w; catalogues := rest |})
  end.

Definition succeed (w : script) : (string + unit) * script := (inr tt, w).

#[global] Instance environment : Environment script := {|
  select_by_id := fun _ _ _ => nextSelect;
  count_where := fun _ _ _ => nextCount;
  update_where := fun _ _ _ _ => nextUpdate;
  delete_by_id := fun _ _ => nextDelete;
  list_user_id_columns := nextCatalogue;
  get_connection := succeed;
  begin_transaction := succeed;
  commit := succeed;
  rollback := succeed;
  release := fun w => w;
  pool_end := fun w => w;
  write_file := fun _ => succeed
|}.

End Scripted.

(* ===================================================================== *)
(** * Vocabulary of the properties *)
(* ===================================================================== *)

(** [wp m Q s]: running [m] from [s] ends in an outcome and a state that
    satisfy [Q]. Runs are total functions, so this is total correctness. *)
Definition wp {W A : Type} (m : M W A) (Q : outcome A -> state W -> Prop)
    (s : state W) : Prop :=
  Q (fst (m s)) (snd (m s)).

Definition succeeded (e : event) : bool :=
  match ev_response e with
  | Failed _ => false
  | _ => true
  end.

(** Calls that read: the SELECT statements, and taking and giving back a
    connection. No rewrite, no delete, no transaction call, no file. *)
Definition isRead (c : call) : bool :=
  match c with
  | SelectById _ _ _ | CountWhere _ _ _ | ListUserIdColumns
  | GetConnection | Release => true
  | _ => false
  end.

(** What a whole simulated migration run may call besides reading:
    the write of its log file and the closing of the pool. *)
Definition isReadOrLog (c : call) : bool :=
  match c with
  | WriteFile (MigrationLog _ _ _) | PoolEnd => true
  | _ => isRead c
  end.

Definition isCount (c : call) : bool :=
  match c with
  | CountWhere _ _ _ => true
  | _ => false
  end.

Definition isSelectById (c : call) : bool :=
  match c with
  | SelectById _ _ _ => true
  | _ => false
  end.

Definition isDelete (c : call) : bool :=
  match c with
  | DeleteById _ _ => true
  | _ => false
  end.

Definition isBackupWrite (c : call) : bool :=
  match c with
  | WriteFile (UserBackup _ _ _) => true
  | _ => false
  end.

(** What a failed safety check may still do: count, write the removal
    log, close the pool. *)
Definition isCountOrLog (c : call) : bool :=
  match c with
  | CountWhere _ _ _ | WriteFile (RemovalLog _ _) | PoolEnd => true
  | _ => false
  end.

(** What a migration may do between BEGIN and the end of its loop
    without giving up: count and rewrite. *)
Definition isCountOrUpdate (c : call) : bool :=
  match c with
  | CountWhere _ _ _ | UpdateWhere _ _ _ _ => true
  | _ => false
  end.

(** The number of calls of a trace that threw. *)
Definition failures (tr : list event) : Z :=
  Z.of_nat (List.length (filter (fun e => negb (succeeded e)) tr)).

(** The real aggregate on the in-memory store: the number of rows, over
    the bindings, whose reference column is [id]. *)
Definition referencesTo (ts : list MySQL.tableData) (bindings : list Binding)
    (id : Z) : Z :=
  fold_right (fun b n => MySQL.references ts (table b) (column b) id + n)
             0 bindings.

(** All calls of a trace satisfy [P]. *)
Definition allCalls (P : call -> bool) (tr : list event) : Prop :=
  Forall (fun e => P (ev_call e) = true) tr.

(** An observation of the world that no read, no connection hand-over and
    no file write changes: the stored data, for a database. *)
Record Inert {W A : Type} `{Environment W} (obs : W -> A) : Prop := {
  inert_select : forall t i l w, obs (snd (select_by_id t i l w)) = obs w;
  inert_count : forall t c i w, obs (snd (count_where t c i w)) = obs w;
  inert_list : forall w, obs (snd (list_user_id_columns w)) = obs w;
  inert_get_connection : forall w, obs (snd (get_connection w)) = obs w;
  inert_release : forall w, obs (release w) = obs w;
  inert_pool_end : forall w, obs (pool_end w) = obs w;
  inert_write_file : forall f w, obs (snd (write_file f w)) = obs w
}.

(** From [s] to [s']: the calls added satisfy [P], the observation [obs]
    is unchanged, and the variable [connection] is unchanged unless [P]
    lets the run take a connection. *)
Definition advances {W A : Type} (P : call -> bool) (obs : W -> A)
    (s s' : state W) : Prop :=
  (exists tr, trace s' = trace s ++ tr /\ allCalls P tr)
  /\ obs (world s') = obs (world s)
  /\ (P GetConnection = false -> connection s' = connection s).

(** [m] only makes calls that satisfy [P] and leaves [obs] unchanged,
    whatever its outcome. *)
Definition quiet {W A B : Type} (P : call -> bool) (obs : W -> A)
    (m : M W B) : Prop :=
  forall s, wp m (fun _ s' => advances P obs s s') s.

(** The counts of a trace are counts of what the store held at [w]:
    each was returned by the count query on a world that [obs] does not
    tell from [w]. *)
Definition countsOf {W A : Type} `{Environment W} (obs : W -> A) (w : W)
    (tr : list event) : Prop :=
  forall t c id n,
    In {| ev_call := CountWhere t c id; ev_response := Number n |} tr ->
    exists w0, obs w0 = obs w /\ fst (count_where t c id w0) = inr n.

(** A state of a run that has left [obs] as it was at [w] and has read
    no other counts than those of [w]. *)
Definition faithful {W A : Type} `{Environment W} (obs : W -> A) (w : W)
    (s : state W) : Prop :=
  obs (world s) = obs w /\ countsOf obs w (trace s).

(** [m] keeps a property of the state of the run, whatever its
    outcome. *)
Definition keeps {W B : Type} (J : state W -> Prop) (m : M W B) : Prop :=
  forall s, J s -> wp m (fun _ s' => J s') s.

(** The observation that sees nothing. *)
Definition blind {W : Type} (w : W) : unit := tt.

(** Calls that leave an open transaction open. *)
Definition keepsTransaction (c : call) : bool :=
  match c with
  | Commit | Rollback => false
  | _ => true
  end.

(** Calls other than ROLLBACK. *)
Definition notRollback (c : call) : bool :=
  match c with
  | Rollback => false
  | _ => true
  end.


(** The entries of [migrationResults] in Simulate mode: nothing migrated,
    and the skipped count is what a count of the source identifier in
    that table returned during the run. *)
Definition simulated (sourceUserId : Z) (tr : list event)
    (results : JS.object UserMigrator.PerTableResult) : Prop :=
  forall t res,
    In (t, res) results ->
    UserMigrator.migrated res = 0
    /\ exists c,
         isUserIdColumn c = true
         /\ In {| ev_call := CountWhere t c sourceUserId;
                  ev_response := Number (UserMigrator.skipped res) |} tr.

(** Identifier settings for which the constructors fall back on their
    default: unset, not a number for [parseInt], or zero. *)
Definition fallsBack (v : option string) : Prop :=
  v = None \/ JS.parseIntEnv v = JS.NaN \/ JS.parseIntEnv v = JS.Num 0.

(* ===================================================================== *)
(** * test.js: class MigrationTester (the test of the configuration) *)
(* ===================================================================== *)

Module MigrationTester.

(** The two errors that [testConfiguration] throws, named after their
    messages. *)
Inductive ConfigurationError : Type :=
| MissingVariables (missing : list string)
| IdenticalUserIds.

Definition requiredEnvVars : list string :=
  ["DB_HOST"; "DB_USER"; "DB_PASSWORD"; "DB_NAME"].

(** [!process.env[varName]]: unset, or the empty string. *)
Definition isMissing (env : JS.env) (varName : string) : bool :=
  match env varName with
  | None | Some EmptyString => true
  | Some _ => false
  end.

(** The test body of [testConfiguration]: it reads the identifiers as
    the constructor of the migrator does, and throws when they are
    equal. *)
Definition testConfiguration (env : JS.env)
  : ConfigurationError + UserMigrator.t :=
  match filter (isMissing env) requiredEnvVars with
  | _ :: _ as missing => inl (MissingVariables missing)
  | [] =>
      let sourceUserId :=
        JS.orDefault (JS.parseIntEnv (env "SOURCE_USER_ID")) 41 in
      let targetUserId :=
        JS.orDefault (JS.parseIntEnv (env "TARGET_USER_ID")) 358 in
      if sourceUserId =? targetUserId then inl IdenticalUserIds
      else inr {| UserMigrator.sourceUserId := sourceUserId;
                  UserMigrator.targetUserId := targetUserId;
                  UserMigrator.dryRun :=
                    JS.strictEqual (env "DRY_RUN") "true" |}
  end.

End MigrationTester.

(* ===================================================================== *)
(** * Concrete runs *)
(* ===================================================================== *)

Module Scenario.

Definition userRow (id : Z) (name : string) : row :=
  [("id", VInt id); ("name", VStr name)].

(** A row of a referencing table: its own id and the user it points to. *)
Definition reference (id userId : Z) : row :=
  [("id", VInt id); ("user_id", VInt userId)].

Definition noEnv : JS.env := fun _ => None.

Definition setting (k v : string) (env : JS.env) : JS.env :=
  fun x => if String.eqb x k then Some v else env x.

Definition migrator : UserMigrator.t := UserMigrator.new noEnv.
Definition analyzer : DatabaseAnalyzer.t :=
  {| DatabaseAnalyzer.sourceUserId := 41 |}.
Definition remover : UserRemover.t := UserRemover.new noEnv.

Definition users : MySQL.tableData :=
  MySQL.openTable "users" ["id"; "name"]
    [userRow 41 "ana"; userRow 358 "bia"].

Definition user : MySQL.tableData :=
  MySQL.openTable "user" ["id"; "name"]
    [userRow 41 "ana"; userRow 358 "bia"].

(** Three rows of [content] point to user 41, one to user 358. *)
Definition content : MySQL.tableData :=
  MySQL.openTable "content" ["id"; "user_id"]
    [reference 1 41; reference 2 41; reference 3 41; reference 4 358].

Definition media : MySQL.tableData :=
  MySQL.openTable "media" ["id"; "user_id"] [reference 1 41].

Definition emptyMedia : MySQL.tableData :=
  MySQL.openTable "media" ["id"; "user_id"] [].

(** [media] with the UPDATE privilege missing: its rewrite fails. *)
Definition mediaNoUpdate : MySQL.tableData :=
  {| MySQL.t_name := "media"; MySQL.t_columns := ["id"; "user_id"];
     MySQL.t_rows := [reference 1 41];
     MySQL.can_select := true; MySQL.can_update := false;
     MySQL.can_delete := true |}.

(** [content] with the SELECT privilege missing: counting it fails. *)
Definition contentNoSelect : MySQL.tableData :=
  {| MySQL.t_name := "content"; MySQL.t_columns := ["id"; "user_id"];
     MySQL.t_rows := [reference 1 41; reference 2 41; reference 3 41];
     MySQL.can_select := false; MySQL.can_update := true;
     MySQL.can_delete := true |}.

(** Execute mode; the rewrite of [content] succeeds, that of [media]
    fails. *)
Definition secondRewriteFails : MySQL.db :=
  MySQL.server [content; mediaNoUpdate; users].

(** Removal while three rows of [content] still point to user 41 and
    cannot be counted. *)
Definition countFails : MySQL.db :=
  MySQL.server [contentNoSelect; emptyMedia; user].

(** Removal while [content] still points to user 41, all counts working. *)
Definition stillReferenced : MySQL.db :=
  MySQL.server [content; emptyMedia; user].

(** Everything already migrated: no row points to user 41. *)
Definition migratedContent : MySQL.tableData :=
  MySQL.openTable "content" ["id"; "user_id"]
    [reference 1 358; reference 2 358; reference 3 358; reference 4 358].

Definition alreadyMigrated : MySQL.db :=
  MySQL.server [migratedContent; emptyMedia; users].

Definition readyToRemove : MySQL.db :=
  MySQL.server [migratedContent; emptyMedia; user].

Definition toMigrate : MySQL.db := MySQL.server [content; media; users].

(** Nothing points to user 41 any more, and its row is gone from [user]. *)
Definition sourceRowGone : MySQL.db :=
  MySQL.server
    [migratedContent; emptyMedia;
     MySQL.openTable "user" ["id"; "name"] [userRow 358 "bia"]].


(** Source and target both set to 358. *)
Definition sameIds : UserMigrator.t :=
  UserMigrator.new
    (setting "SOURCE_USER_ID" "358" (setting "TARGET_USER_ID" "358" noEnv)).

Definition sameIdsAnalyzer : DatabaseAnalyzer.t :=
  {| DatabaseAnalyzer.sourceUserId := 358 |}.

Definition dryMigrator : UserMigrator.t :=
  UserMigrator.new (setting "DRY_RUN" "true" noEnv).

(** The four settings of the connection. *)
Definition dbEnv : JS.env :=
  setting "DB_HOST" "localhost"
    (setting "DB_USER" "root"
       (setting "DB_PASSWORD" "secret" (setting "DB_NAME" "app" noEnv))).

(** A whole configuration with source and target both set to 358. *)
Definition sameIdsEnv : JS.env :=
  setting "SOURCE_USER_ID" "358" (setting "TARGET_USER_ID" "358" dbEnv).

(** SOURCE_USER_ID set to a string that is no number. *)
Definition abcEnv : JS.env := setting "SOURCE_USER_ID" "abc" dbEnv.

Definition abcMigrator : UserMigrator.t := UserMigrator.new abcEnv.

(** The analyzer of that configuration. Its parameter is the string
    "abc" ([DatabaseAnalyzer.sourceUserIdSetting]); to compare it with
    an integer column the server converts it to a number, and a string
    that starts with no digit converts to 0. *)
Definition abcAnalyzer : DatabaseAnalyzer.t :=
  {| DatabaseAnalyzer.sourceUserId := 0 |}.

(** The store answers: no reference left in [content] and [media], the
    user row is there for the backup, the delete affects one row, and
    the read after the delete still counts one row. *)
Definition staleRead : Scripted.script :=
  {| Scripted.selects := [inr [userRow 41 "ana"]];
     Scripted.counts := [inr 0; inr 0; inr 1];
     Scripted.updates := [];
     Scripted.deletes := [inr 1];
     Scripted.catalogues := [] |}.

End Scenario.

(* ===================================================================== *)
(** * config/tables.js: lookups and the validation of the bindings *)
(* ===================================================================== *)

(** [MIGRATION_TABLES.some(t => t.table === tableName)]. *)
Definition isTableIncluded (tableName : string) : bool :=
  existsb (fun t => String.eqb (table t) tableName) MIGRATION_TABLES.

(** [MIGRATION_TABLES.find(t => t.table === tableName)], then its column,
    or [null]. *)
Definition getUserColumnForTable (tableName : string) : option string :=
  match find (fun t => String.eqb (table t) tableName) MIGRATION_TABLES with
  | Some tableConfig => Some (column tableConfig)
  | None => None
  end.

(** The schema catalogue, within the schema DB_NAME: the count query on
    INFORMATION_SCHEMA.TABLES for a table name, and the one on
    INFORMATION_SCHEMA.COLUMNS for a table and a column name. Each gives
    the message of the error it throws or the count it returns. Reading
    the catalogue does not change it; every binding is looked up once. *)
Class Catalogue (W : Type) : Type := {
  count_tables : W -> string -> string + Z;
  count_columns : W -> string -> string -> string + Z
}.

Module Tables.

(** An entry of the result of [validateTablesExist]. *)
Record TableCheck : Type := {
  exists_ : bool;
  tc_error : option string;
  tc_column : string
}.

(** An entry of the result of [validateColumnsExist]. *)
Record ColumnCheck : Type := {
  columnExists : bool;
  cc_error : option string;
  cc_column : string
}.

Section WithCatalogue.
Context {W : Type} `{Catalogue W}.

(** The [for] loop of [validateTablesExist]; a query that throws is
    recorded as a table that does not exist. *)
Fixpoint validateTablesEach (pool : W) (bindings : list Binding)
    (results : JS.object TableCheck) : JS.object TableCheck :=
  match bindings with
  | [] => results
  | tableConfig :: rest =>
      validateTablesEach pool rest
        (JS.set results (table tableConfig)
           match count_tables pool (table tableConfig) with
           | inr n => {| exists_ := 0 <? n; tc_error := None;
                         tc_column := column tableConfig |}
           | inl message => {| exists_ := false; tc_error := Some message;
                               tc_column := column tableConfig |}
           end)
  end.

(** [validateTablesExist] over a binding list. *)
Definition validateTablesExistFor (pool : W) (bindings : list Binding)
  : JS.object TableCheck :=
  validateTablesEach pool bindings [].

Definition validateTablesExist (pool : W) : JS.object TableCheck :=
  validateTablesExistFor pool MIGRATION_TABLES.

(** The [for] loop of [validateColumnsExist]. *)
Fixpoint validateColumnsEach (pool : W) (bindings : list Binding)
    (results : JS.object ColumnCheck) : JS.object ColumnCheck :=
  match bindings with
  | [] => results
  | tableConfig :: rest =>
      validateColumnsEach pool rest
        (JS.set results (table tableConfig)
           match count_columns pool (table tableConfig) (column tableConfig) with
           | inr n => {| columnExists := 0 <? n; cc_error := None;
                         cc_column := column tableConfig |}
           | inl message => {| columnExists := false; cc_error := Some message;
                               cc_column := column tableConfig |}
           end)
  end.

Definition validateColumnsExistFor (pool : W) (bindings : list Binding)
  : JS.object ColumnCheck :=
  validateColumnsEach pool bindings [].

Definition validateColumnsExist (pool : W) : JS.object ColumnCheck :=
  validateColumnsExistFor pool MIGRATION_TABLES.

End WithCatalogue.

End Tables.

(* ===================================================================== *)
(** * analyze-database.js: class DatabaseAnalyzer (configured tables) *)
(* ===================================================================== *)

Module ConfiguredAnalyzer.

Record t : Type := {
  sourceUserId : Z;
  migrationTables : list Binding
}.

(** An entry of [recordCounts]; the whole error stands for its message. *)
Record RecordCount : Type := {
  count : Z;
  error : option error;
  rc_column : string
}.

(** An entry of [validationResults]. *)
Record ValidationResult : Type := {
  v_table : string;
  v_column : string;
  tableExists : bool;
  v_columnExists : bool;
  valid : bool
}.

(** The error of [validateMigrationTables]:
    "Algumas tabelas ou colunas especificadas nao foram encontradas no
    banco de dados". *)
Inductive ValidationError : Type := TablesOrColumnsNotFound.

(** The [for] loop of [validateMigrationTables]; the accumulator is
    [validationResults] and [allValid]. *)
Fixpoint validateEach (tableValidation : JS.object Tables.TableCheck)
    (columnValidation : JS.object Tables.ColumnCheck)
    (bindings : list Binding) (acc : JS.object ValidationResult * bool)
  : JS.object ValidationResult * bool :=
  match bindings with
  | [] => acc
  | tableConfig :: rest =>
      let tableName := table tableConfig in
      let columnName := column tableConfig in
      let tableExists :=
        match JS.get tableValidation tableName with
        | Some c => Tables.exists_ c
        | None => false
        end in
      let columnExists :=
        match JS.get columnValidation tableName with
        | Some c => Tables.columnExists c
        | None => false
        end in
      validateEach tableValidation columnValidation rest
        (JS.set (fst acc) tableName
           {| v_table := tableName; v_column := columnName;
              tableExists := tableExists; v_columnExists := columnExists;
              valid := tableExists && columnExists |},
         if tableExists && columnExists then snd acc
         else if negb tableExists then false
         else if negb columnExists then false
         else snd acc)
  end.

(** [validateMigrationTables] over a binding list: the two validations of
    [config/tables.js], the loop, and the error when a binding is not
    valid. *)
Definition validateMigrationTablesFor {W : Type} `{Catalogue W}
    (pool : W) (bindings : list Binding)
  : ValidationError + JS.object ValidationResult :=
  let tableValidation := Tables.validateTablesExistFor pool bindings in
  let columnValidation := Tables.validateColumnsExistFor pool bindings in
  let '(validationResults, allValid) :=
    validateEach tableValidation columnValidation bindings ([], true) in
  if negb allValid then inl TablesOrColumnsNotFound
  else inr validationResults.

Definition validateMigrationTables {W : Type} `{Catalogue W} (pool : W)
  : ValidationError + JS.object ValidationResult :=
  validateMigrationTablesFor pool getMigrationTables.

Section WithEnvironment.
Context {W : Type} `{Environment W}.

(** The [for] loop of [countRecordsByTable] over [this.migrationTables];
    a failed count is recorded as a count of zero with the error. *)
Fixpoint countEach (a : t) (bindings : list Binding)
    (recordCounts : JS.object RecordCount) : M W (JS.object RecordCount) :=
  match bindings with
  | [] => ret recordCounts
  | tableConfig :: rest =>
      recordCounts' <-
        try_catch
          (n <- poolCount (table tableConfig) (column tableConfig)
                  (sourceUserId a) ;;
           ret (JS.set recordCounts (table tableConfig)
                  {| count := n; error := None;
                     rc_column := column tableConfig |}))
          (fun err =>
             ret (JS.set recordCounts (table tableConfig)
                    {| count := 0; error := Some err;
                       rc_column := column tableConfig |})) ;;
      countEach a rest recordCounts'
  end.

Definition countRecordsByTable (a : t) : M W (JS.object RecordCount) :=
  try_catch (countEach a (migrationTables a) []) (fun error => throw error).

End WithEnvironment.

End ConfiguredAnalyzer.

(* ===================================================================== *)
(** * remove-user.js, schema-scan version: verifySafeToRemove *)
(* ===================================================================== *)

Module LegacyUserRemover.

Section WithEnvironment.
Context {W : Type} `{Environment W}.

(** The [for] loop of the schema-scan [verifySafeToRemove] over
    [Object.entries(tableMap)]: no [try] around the count. *)
Fixpoint checkEach (sourceUserId : Z) (entries : list (string * list string))
    (acc : JS.object UserRemover.SafetyEntry * Z)
  : M W (JS.object UserRemover.SafetyEntry * Z) :=
  match entries with
  | [] => ret acc
  | (tableName, columns) :: rest =>
      match find isUserIdColumn columns with
      | Some userIdColumn =>
          count <- poolCount tableName userIdColumn sourceUserId ;;
          checkEach sourceUserId rest
            (JS.set (fst acc) tableName
               {| UserRemover.se_column := userIdColumn;
                  UserRemover.remainingReferences := count;
                  UserRemover.se_error := None |},
             snd acc + count)
      | None => checkEach sourceUserId rest acc
      end
  end.

Definition verifySafeToRemove (sourceUserId : Z)
  : M W UserRemover.SafetyResult :=
  try_catch
    (tableMap <- DatabaseAnalyzer.findTablesWithUserId ;;
     acc <- checkEach sourceUserId (JS.entries tableMap) ([], 0) ;;
     let '(safetyCheck, totalReferences) := acc in
     let isSafe := totalReferences =? 0 in
     ret {| UserRemover.isSafe := isSafe;
            UserRemover.totalReferences := totalReferences;
            UserRemover.safetyCheck := safetyCheck |})
    (fun error => throw error).

End WithEnvironment.

End LegacyUserRemover.

(* ===================================================================== *)
(** * The catalogue of the in-memory store *)
(* ===================================================================== *)

#[global] Instance MySQL_catalogue : Catalogue MySQL.db := {|
  count_tables := fun d name =>
    inr (match MySQL.findTable (MySQL.tables d) name with
         | Some _ => 1
         | None => 0
         end);
  count_columns := fun d name c =>
    inr (match MySQL.findTable (MySQL.tables d) name with
         | Some t => if MySQL.hasColumn t c then 1 else 0
         | None => 0
         end)
|}.

(* ===================================================================== *)
(** * Vocabulary of the further properties *)
(* ===================================================================== *)

(** Statements that read through [pool.execute]. *)
Definition isQuery (c : call) : bool :=
  match c with
  | SelectById _ _ _ | CountWhere _ _ _ | ListUserIdColumns => true
  | _ => false
  end.

(** What a simulated removal may call: reads, the connection hand-over,
    its two files and the closing of the pool. *)
Definition isReadOrFile (c : call) : bool :=
  match c with
  | WriteFile _ | PoolEnd => true
  | _ => isRead c
  end.

Definition notCommit (c : call) : bool :=
  match c with
  | Commit => false
  | _ => true
  end.

(** Calls other than BEGIN. *)
Definition notBegin (c : call) : bool :=
  match c with
  | BeginTransaction => false
  | _ => true
  end.

(** The sum of [migrated] over [migrationResults]. *)
Definition sumMigrated (results : JS.object UserMigrator.PerTableResult) : Z :=
  fold_right (fun e acc => UserMigrator.migrated (snd e) + acc) 0 results.

(** The columns the catalogue rows give for a table, in their order. *)
Definition columnsOf (rows : list (string * string)) (tableName : string)
  : list string :=
  map snd (filter (fun r => String.eqb (fst r) tableName) rows).

(** Where a run stands with its connection and its transaction:
    no connection yet; connection held; transaction open; transaction
    ended (committed or rolled back); connection given back; pool
    closed. *)
Inductive phase : Type := Idle | Held | Open | Ended | Returned | Closed.

(** The protocol of a run. Reads and file writes may come at any time
    before the pool is closed. A rewrite or a delete comes only while
    the transaction is open. BEGIN needs a held connection, COMMIT an
    open transaction; ROLLBACK and [release] need the connection;
    [pool.end()] comes with no connection in hand. *)
Definition step (p : phase) (e : event) : option phase :=
  match ev_call e with
  | SelectById _ _ _ | CountWhere _ _ _ | ListUserIdColumns | WriteFile _ =>
      match p with
      | Closed => None
      | _ => Some p
      end
  | UpdateWhere _ _ _ _ | DeleteById _ _ =>
      match p with
      | Open => Some Open
      | _ => None
      end
  | GetConnection =>
      match p with
      | Idle => Some (if succeeded e then Held else Idle)
      | _ => None
      end
  | BeginTransaction =>
      match p with
      | Held => Some (if succeeded e then Open else Held)
      | _ => None
      end
  | Commit =>
      match p with
      | Open => Some Ended
      | _ => None
      end
  | Rollback =>
      match p with
      | Held | Open | Ended => Some Ended
      | _ => None
      end
  | Release =>
      match p with
      | Held | Open | Ended => Some Returned
      | _ => None
      end
  | PoolEnd =>
      match p with
      | Idle | Returned => Some Closed
      | _ => None
      end
  end.

(** The phase a trace leads to from [p], when it keeps to the protocol. *)
Fixpoint runs (p : phase) (tr : list event) : option phase :=
  match tr with
  | [] => Some p
  | e :: rest =>
      match step p e with
      | Some p' => runs p' rest
      | None => None
      end
  end.

(** The trace keeps to the protocol and leads from [Idle] to [p]. *)
Definition follows (p : phase) (tr : list event) : Prop :=
  runs Idle tr = Some p.

(** A rewrite is justified in a trace when it moves the rows of the
    source user to the target user, in a user-id column, of a table in
    which the analyzer counted rows of its user. A DELETE is never
    justified; other calls need no justification. *)
Definition justified (m : UserMigrator.t) (analyzer : DatabaseAnalyzer.t)
    (ctx : list event) (e : event) : Prop :=
  match ev_call e with
  | UpdateWhere t col newId oldId =>
      newId = UserMigrator.targetUserId m
      /\ oldId = UserMigrator.sourceUserId m
      /\ isUserIdColumn col = true
      /\ exists n,
           0 < n
           /\ In {| ev_call :=
                      CountWhere t col (DatabaseAnalyzer.sourceUserId analyzer);
                    ev_response := Number n |} ctx
  | DeleteById _ _ => False
  | _ => True
  end.

(** A remover set to simulate: DRY_RUN=true, the other settings left to
    their defaults. *)
Definition dryRemover : UserRemover.t :=
  UserRemover.new (Scenario.setting "DRY_RUN" "true" Scenario.noEnv).

(** What the loop of an executed migration may call: counts, rewrites
    and the ROLLBACK of a table that failed. *)
Definition inLoop (c : call) : bool :=
  match c with
  | CountWhere _ _ _ | UpdateWhere _ _ _ _ | Rollback => true
  | _ => false
  end.


(* ===================================================================== *)
(** * The constructors: run mode and identifiers *)
(* ===================================================================== *)

Lemma strictEqual_spec (v : option string) (s : string) :
  JS.strictEqual v s = true <-> v = Some s.
Proof.
  destruct v as [x|]; simpl.
  - rewrite String.eqb_eq. split; [intros ->; reflexivity | congruence].
  - split; discriminate.
Qed.

Lemma modeOf_Simulate (b : bool) : modeOf b = Simulate <-> b = true.
Proof. destruct b; simpl; split; congruence. Qed.

(** The flag is an exact, case-sensitive comparison: other spellings of
    truth leave the run in Execute mode. *)
Example dry_run_other_spellings :
  map (fun v => modeOf (UserMigrator.dryRun
                          (UserMigrator.new (fun _ => v))))
      [Some "true"; Some "TRUE"; Some "1"; Some "yes"; Some " true"; Some "";
       None]
  = [Simulate; Execute; Execute; Execute; Execute; Execute; Execute].
Proof. reflexivity. Qed.

(** C9. The run is in Simulate mode if and only if the environment string
    DRY_RUN is exactly "true", for the migrator and for the remover alike;
    with any other value, or with the variable unset, it is in Execute
    mode. *)
Theorem C9_dry_run_only_for_exact_true (env : JS.env) :
  (modeOf (UserMigrator.dryRun (UserMigrator.new env)) = Simulate
   <-> env "DRY_RUN" = Some "true")
  /\ (modeOf (UserRemover.dryRun (UserRemover.new env)) = Simulate
      <-> env "DRY_RUN" = Some "true")
  /\ (env "DRY_RUN" <> Some "true"
      <-> modeOf (UserMigrator.dryRun (UserMigrator.new env)) = Execute
          /\ modeOf (UserRemover.dryRun (UserRemover.new env)) = Execute).
Proof.
  simpl. rewrite !modeOf_Simulate, !strictEqual_spec.
  repeat split; try tauto.
  - destruct (JS.strictEqual (env "DRY_RUN") "true") eqn:E; [|reflexivity].
    apply strictEqual_spec in E. contradiction.
  - destruct (JS.strictEqual (env "DRY_RUN") "true") eqn:E; [|reflexivity].
    apply strictEqual_spec in E. contradiction.
  - intros [E _] C. apply strictEqual_spec in C. rewrite C in E. discriminate.
Qed.


(** Settings that reach the default, and settings that do not: a numeric
    prefix is enough for [parseInt], and a hexadecimal prefix is read. *)
Example identifier_settings :
  map (fun v => UserMigrator.sourceUserId (UserMigrator.new (fun _ => v)))
      [None; Some ""; Some "abc"; Some "0"; Some "-0"; Some " 00"; Some "0x0";
       Some "x41"; Some "123"; Some " 12abc"; Some "0x1F"; Some "-7"]
  = [41; 41; 41; 41; 41; 41; 41; 41; 123; 12; 31; -7].
Proof. reflexivity. Qed.



(* ===================================================================== *)
(** * Objects used as maps, and the table map of the schema scan *)
(* ===================================================================== *)

Lemma get_set_other {X : Type} (o : JS.object X) k k' v :
  k <> k' -> JS.get (JS.set o k v) k' = JS.get o k'.
Proof.
  intros N. induction o as [|[k0 v0] o IH]; simpl.
  - destruct (String.eqb k k') eqn:E; [|reflexivity].
    apply String.eqb_eq in E. contradiction.
  - destruct (String.eqb k0 k) eqn:K; simpl.
    + apply String.eqb_eq in K. subst k0.
      destruct (String.eqb k k') eqn:E; [|reflexivity].
      apply String.eqb_eq in E. contradiction.
    + rewrite IH. reflexivity.
Qed.

Lemma get_set_same {X : Type} (o : JS.object X) k v :
  JS.get (JS.set o k v) k = Some v.
Proof.
  induction o as [|[k0 v0] o IH]; simpl.
  - rewrite String.eqb_refl. reflexivity.
  - destruct (String.eqb k0 k) eqn:K; simpl; rewrite K; [reflexivity | exact IH].
Qed.

Lemma get_None_keys {X : Type} (o : JS.object X) k :
  JS.get o k = None <-> ~ In k (map fst o).
Proof.
  induction o as [|[k0 v0] o IH]; simpl; [tauto|].
  destruct (String.eqb k0 k) eqn:K.
  - apply String.eqb_eq in K. split; [discriminate | tauto].
  - apply String.eqb_neq in K. tauto.
Qed.

Lemma keys_set {X : Type} (o : JS.object X) k v :
  map fst (JS.set o k v)
  = match JS.get o k with
    | Some _ => map fst o
    | None => map fst o ++ [k]
    end.
Proof.
  induction o as [|[k0 v0] o IH]; simpl; [reflexivity|].
  destruct (String.eqb k0 k) eqn:K; simpl; [reflexivity|].
  rewrite IH. destruct (JS.get o k); reflexivity.
Qed.

Lemma NoDup_keys_set {X : Type} (o : JS.object X) k v :
  NoDup (map fst o) -> NoDup (map fst (JS.set o k v)).
Proof.
  intros D. rewrite keys_set. destruct (JS.get o k) eqn:G; [exact D|].
  apply get_None_keys in G.
  apply NoDup_app; [exact D | repeat constructor; simpl; tauto |].
  intros x I [<- | []]. contradiction.
Qed.

Lemma get_set {X : Type} (o : JS.object X) k v k' :
  JS.get (JS.set o k v) k' = if String.eqb k k' then Some v else JS.get o k'.
Proof.
  destruct (String.eqb k k') eqn:E.
  - apply String.eqb_eq in E. subst k'. apply get_set_same.
  - apply String.eqb_neq in E. apply get_set_other, E.
Qed.

Lemma NoDup_keys_In {X : Type} (o : list (string * X)) k v v' :
  NoDup (map fst o) -> In (k, v) o -> In (k, v') o -> v = v'.
Proof.
  induction o as [|[k0 v0] o IH]; simpl; intros D I I'; [contradiction|].
  inversion D as [|? ? Nin D']; subst.
  destruct I as [E|I], I' as [E'|I'].
  - congruence.
  - injection E as -> ->. exfalso. apply Nin.
    change k with (fst (k, v')). apply in_map, I'.
  - injection E' as -> ->. exfalso. apply Nin.
    change k with (fst (k, v)). apply in_map, I.
  - apply IH; assumption.
Qed.

Lemma columnsOf_app rows1 rows2 t :
  columnsOf (rows1 ++ rows2) t = columnsOf rows1 t ++ columnsOf rows2 t.
Proof. unfold columnsOf. rewrite filter_app, map_app. reflexivity. Qed.

Lemma columnsOf_cons t0 c0 rows t :
  columnsOf ((t0, c0) :: rows) t
  = if String.eqb t0 t then c0 :: columnsOf rows t else columnsOf rows t.
Proof. unfold columnsOf. simpl. destruct (String.eqb t0 t); reflexivity. Qed.

Lemma pushColumn_keys tableMap r tableMap' :
  DatabaseAnalyzer.pushColumn tableMap r = inr tableMap' ->
  NoDup (map fst tableMap) -> NoDup (map fst tableMap').
Proof.
  destruct r as [t c]. unfold DatabaseAnalyzer.pushColumn. intros E D.
  destruct (JS.get tableMap t); [|destruct (JS.inherited t); [discriminate|]];
    injection E as <-; apply NoDup_keys_set, D.
Qed.

Lemma pushColumns_keys rows tableMap tableMap' :
  DatabaseAnalyzer.pushColumns rows tableMap = inr tableMap' ->
  NoDup (map fst tableMap) -> NoDup (map fst tableMap').
Proof.
  revert tableMap. induction rows as [|r rows IH]; intros tm E D; simpl in E.
  - injection E as <-. exact D.
  - destruct (DatabaseAnalyzer.pushColumn tm r) as [e|tm1] eqn:P;
      [discriminate|].
    apply (IH tm1 E). eapply pushColumn_keys; eassumption.
Qed.

Lemma pushColumns_get rows tableMap tableMap' t :
  DatabaseAnalyzer.pushColumns rows tableMap = inr tableMap' ->
  JS.get tableMap' t
  = match JS.get tableMap t with
    | Some columns => Some (columns ++ columnsOf rows t)
    | None =>
        match columnsOf rows t with
        | [] => None
        | columns => Some columns
        end
    end.
Proof.
  revert tableMap. induction rows as [|[t0 c0] rows IH]; intros tm E.
  - simpl in E. injection E as <-.
    destruct (JS.get tm t); [rewrite app_nil_r|]; reflexivity.
  - cbn [DatabaseAnalyzer.pushColumns] in E.
    destruct (DatabaseAnalyzer.pushColumn tm (t0, c0)) as [e|tm1] eqn:P;
      [discriminate|].
    rewrite (IH tm1 E), columnsOf_cons. clear E IH.
    unfold DatabaseAnalyzer.pushColumn in P.
    destruct (String.eqb t0 t) eqn:Et.
    + apply String.eqb_eq in Et. subst t0.
      destruct (JS.get tm t) as [cs|] eqn:G;
        [|destruct (JS.inherited t); [discriminate|]];
        injection P as <-; rewrite get_set_same.
      * rewrite <- app_assoc. reflexivity.
      * reflexivity.
    + apply String.eqb_neq in Et.
      destruct (JS.get tm t0);
        [|destruct (JS.inherited t0); [discriminate|]];
        injection P as <-; rewrite get_set_other by exact Et; reflexivity.
Qed.

(** [forEach] gets through the rows exactly when no row names a table
    like a member of [Object.prototype] that the map does not hold yet;
    the first such row makes it throw. *)
Lemma pushColumns_outcome rows tableMap :
  match DatabaseAnalyzer.pushColumns rows tableMap with
  | inr _ =>
      forall t c, In (t, c) rows -> JS.get tableMap t = None ->
                  JS.inherited t = false
  | inl e =>
      exists t c,
        In (t, c) rows /\ JS.inherited t = true /\ e = NotAFunction t
  end.
Proof.
  revert tableMap. induction rows as [|[t0 c0] rows IH]; intros tm.
  - simpl. intros t c [].
  - cbn [DatabaseAnalyzer.pushColumns].
    destruct (DatabaseAnalyzer.pushColumn tm (t0, c0)) as [e|tm1] eqn:P.
    + unfold DatabaseAnalyzer.pushColumn in P.
      destruct (JS.get tm t0); [discriminate|].
      destruct (JS.inherited t0) eqn:I0; [|discriminate].
      injection P as <-. exists t0, c0.
      split; [left; reflexivity | split; [exact I0 | reflexivity]].
    + specialize (IH tm1).
      destruct (DatabaseAnalyzer.pushColumns rows tm1) as [e|tm2].
      * destruct IH as [t [c [I [Inh E]]]]. exists t, c.
        split; [right; exact I | split; assumption].
      * assert (Head : JS.get tm t0 = None -> JS.inherited t0 = false).
        { intros G. unfold DatabaseAnalyzer.pushColumn in P. rewrite G in P.
          destruct (JS.inherited t0); [discriminate | reflexivity]. }
        intros t c [[= <- <-]|I] G; [exact (Head G)|].
        destruct (String.eqb t0 t) eqn:Et.
        -- apply String.eqb_eq in Et. subst t. exact (Head G).
        -- apply String.eqb_neq in Et. apply (IH t c I).
           unfold DatabaseAnalyzer.pushColumn in P.
           destruct (JS.get tm t0);
             [|destruct (JS.inherited t0); [discriminate|]];
             injection P as <-; rewrite get_set_other by exact Et; exact G.
Qed.

Lemma insertIndexed_perm {A : Type} i (e : string * A) l :
  Permutation (JS.insertIndexed i e l) ((i, e) :: l).
Proof.
  induction l as [|[j e'] l IH]; simpl; [apply Permutation_refl|].
  destruct (i <? j); [apply Permutation_refl|].
  eapply Permutation_trans; [apply perm_skip, IH | apply perm_swap].
Qed.

Lemma indexed_perm {A : Type} (o : JS.object A) :
  Permutation (map snd (JS.indexed o))
    (filter (fun e => match JS.arrayIndex (fst e) with
                      | Some _ => true
                      | None => false
                      end) o).
Proof.
  induction o as [|e o IH]; simpl; [apply Permutation_refl|].
  unfold JS.indexed in *. simpl.
  destruct (JS.arrayIndex (fst e)) as [i|]; [|exact IH].
  eapply Permutation_trans;
    [apply Permutation_map, insertIndexed_perm|].
  simpl. apply perm_skip, IH.
Qed.

Lemma partition_perm {X : Type} (f : X -> bool) (l : list X) :
  Permutation (filter f l ++ filter (fun x => negb (f x)) l) l.
Proof.
  induction l as [|x l IH]; simpl; [apply Permutation_refl|].
  destruct (f x); simpl.
  - apply perm_skip, IH.
  - apply Permutation_sym.
    eapply Permutation_trans; [|apply Permutation_middle].
    apply perm_skip, Permutation_sym, IH.
Qed.

Lemma entries_perm {A : Type} (o : JS.object A) :
  Permutation (JS.entries o) o.
Proof.
  unfold JS.entries.
  eapply Permutation_trans;
    [apply Permutation_app_tail, indexed_perm|].
  eapply Permutation_trans; [|apply (partition_perm
    (fun e : string * A => match JS.arrayIndex (fst e) with
                           | Some _ => true
                           | None => false
                           end))].
  apply Permutation_app_head.
  rewrite (filter_ext
             (fun e : string * A => match JS.arrayIndex (fst e) with
                                    | Some _ => false
                                    | None => true
                                    end)
             (fun e : string * A => negb match JS.arrayIndex (fst e) with
                                         | Some _ => true
                                         | None => false
                                         end));
    [apply Permutation_refl|].
  intros e. destruct (JS.arrayIndex (fst e)); reflexivity.
Qed.

Lemma entries_In {A : Type} (o : JS.object A) x :
  In x (JS.entries o) <-> In x o.
Proof.
  split; apply Permutation_in;
    [apply entries_perm | apply Permutation_sym, entries_perm].
Qed.

Lemma entries_keys {A : Type} (o : JS.object A) :
  NoDup (map fst o) -> NoDup (map fst (JS.entries o)).
Proof.
  apply Permutation_NoDup, Permutation_map, Permutation_sym, entries_perm.
Qed.

(* ===================================================================== *)
(** * Rules for runs *)
(* ===================================================================== *)

Section RunRules.
Context {W : Type} `{Environment W}.

Lemma wp_ret {A : Type} (a : A) (Q : outcome A -> state W -> Prop) s :
  Q (Ok a) s -> wp (ret a) Q s.
Proof. intros q. exact q. Qed.

Lemma wp_throw {A : Type} (e : error) (Q : outcome A -> state W -> Prop) s :
  Q (Threw e) s -> wp (throw e) Q s.
Proof. intros q. exact q. Qed.

Lemma wp_bind {A B : Type} (m : M W A) (k : A -> M W B)
    (Q : outcome B -> state W -> Prop) s :
  wp m (fun r s1 => match r with
                    | Ok a => wp (k a) Q s1
                    | Threw e => Q (Threw e) s1
                    end) s ->
  wp (bind m k) Q s.
Proof. unfold wp, bind. destruct (m s) as [[a|e] s1]; simpl; auto. Qed.

Lemma wp_try_catch {A : Type} (m : M W A) (h : error -> M W A)
    (Q : outcome A -> state W -> Prop) s :
  wp m (fun r s1 => match r with
                    | Ok a => Q (Ok a) s1
                    | Threw e => wp (h e) Q s1
                    end) s ->
  wp (try_catch m h) Q s.
Proof. unfold wp, try_catch. destruct (m s) as [[a|e] s1]; simpl; auto. Qed.

Lemma wp_rethrow {A : Type} (m : M W A) (Q : outcome A -> state W -> Prop) s :
  wp m Q s -> wp (try_catch m (fun error => throw error)) Q s.
Proof. unfold wp, try_catch, throw. destruct (m s) as [[a|e] s1]; auto. Qed.

Lemma wp_finally {A : Type} (m : M W A) (f : M W unit)
    (Q : outcome A -> state W -> Prop) s :
  wp m (fun r s1 =>
          wp f (fun rf s2 => match rf with
                             | Ok _ => Q r s2
                             | Threw e => Q (Threw e) s2
                             end) s1) s ->
  wp (finally m f) Q s.
Proof.
  unfold wp, finally. destruct (m s) as [r s1]; simpl.
  destruct (f s1) as [[u|e] s2]; simpl; auto.
Qed.

Lemma wp_mono {A : Type} (m : M W A) (Q Q' : outcome A -> state W -> Prop) s :
  wp m Q s -> (forall r s', Q r s' -> Q' r s') -> wp m Q' s.
Proof. unfold wp. auto. Qed.

Lemma wp_perform {A : Type} c (f : W -> (string + A) * W) wrap show
    (Q : outcome A -> state W -> Prop) s :
  (forall a w', f (world s) = (inr a, w') ->
                Q (Ok a) (record s w' c (show a))) ->
  (forall msg w', f (world s) = (inl msg, w') ->
                  Q (Threw (wrap msg)) (record s w' c (Failed msg))) ->
  wp (perform c f wrap show) Q s.
Proof.
  intros Hok Herr. unfold wp, perform.
  destruct (f (world s)) as [[msg|a] w'] eqn:E; simpl; auto.
Qed.

Lemma wp_perform_ c (f : W -> W) (Q : outcome unit -> state W -> Prop) s :
  Q (Ok tt) (record s (f (world s)) c Done) -> wp (perform_ c f) Q s.
Proof. intros q. exact q. Qed.

(** ** Runs that only advance *)

Lemma allCalls_app P tr1 tr2 :
  allCalls P tr1 -> allCalls P tr2 -> allCalls P (tr1 ++ tr2).
Proof. unfold allCalls. intros. apply Forall_app. split; assumption. Qed.

Lemma allCalls_weaken (P P' : call -> bool) tr :
  (forall c, P c = true -> P' c = true) -> allCalls P tr -> allCalls P' tr.
Proof.
  unfold allCalls. intros HP. apply Forall_impl. intros e. apply HP.
Qed.

Lemma allCalls_In P tr e : allCalls P tr -> In e tr -> P (ev_call e) = true.
Proof. unfold allCalls. rewrite Forall_forall. auto. Qed.

Section Advances.
Context {A : Type} (P : call -> bool) (obs : W -> A).

Lemma advances_refl s : advances P obs s s.
Proof.
  split; [|split]; auto.
  exists []. rewrite app_nil_r. split; [reflexivity | constructor].
Qed.

Lemma advances_trans s1 s2 s3 :
  advances P obs s1 s2 -> advances P obs s2 s3 -> advances P obs s1 s3.
Proof.
  intros [[tr1 [E1 F1]] [O1 C1]] [[tr2 [E2 F2]] [O2 C2]].
  split; [|split].
  - exists (tr1 ++ tr2). rewrite E2, E1, app_assoc.
    split; [reflexivity | apply allCalls_app; assumption].
  - congruence.
  - intros N. rewrite (C2 N). auto.
Qed.

Lemma advances_record s w' c r :
  P c = true -> obs w' = obs (world s) ->
  advances P obs s (record s w' c r).
Proof.
  intros Pc O. split; [|split]; simpl; auto.
  exists [{| ev_call := c; ev_response := r |}].
  split; [reflexivity|]. repeat constructor. exact Pc.
Qed.

Lemma quiet_ret {B : Type} (b : B) : quiet P obs (ret (W := W) b).
Proof. intros s. apply advances_refl. Qed.

Lemma quiet_throw {B : Type} e : quiet P obs (throw (W := W) (A := B) e).
Proof. intros s. apply advances_refl. Qed.

Lemma quiet_bind {B C : Type} (m : M W B) (k : B -> M W C) :
  quiet P obs m -> (forall b, quiet P obs (k b)) -> quiet P obs (bind m k).
Proof.
  intros Hm Hk s. apply wp_bind.
  eapply wp_mono; [apply Hm|]. intros [b|e] s1 H1; [|exact H1].
  eapply wp_mono; [apply Hk|]. intros r s2 H2.
  eapply advances_trans; eassumption.
Qed.

Lemma quiet_try_catch {B : Type} (m : M W B) h :
  quiet P obs m -> (forall e, quiet P obs (h e)) ->
  quiet P obs (try_catch m h).
Proof.
  intros Hm Hh s. apply wp_try_catch.
  eapply wp_mono; [apply Hm|]. intros [b|e] s1 H1; [exact H1|].
  eapply wp_mono; [apply Hh|]. intros r s2 H2.
  eapply advances_trans; eassumption.
Qed.

Lemma quiet_finally {B : Type} (m : M W B) f :
  quiet P obs m -> quiet P obs f -> quiet P obs (finally m f).
Proof.
  intros Hm Hf s. apply wp_finally.
  eapply wp_mono; [apply Hm|]. intros r s1 H1. cbv beta in H1.
  eapply wp_mono; [apply Hf|]. intros [u|e] s2 H2; cbv beta;
    eapply advances_trans; eassumption.
Qed.

Lemma quiet_perform {B : Type} c (f : W -> (string + B) * W) wrap show :
  P c = true -> (forall w, obs (snd (f w)) = obs w) ->
  quiet P obs (perform c f wrap show).
Proof.
  intros Pc O s. apply wp_perform; intros x w' E;
    apply advances_record; auto;
    specialize (O (world s)); rewrite E in O; exact O.
Qed.

Lemma quiet_perform_ c (f : W -> W) :
  P c = true -> (forall w, obs (f w) = obs w) ->
  quiet P obs (perform_ c f).
Proof.
  intros Pc O s. apply wp_perform_. apply advances_record; auto.
Qed.

End Advances.

Lemma advances_weaken {A : Type} (P P' : call -> bool) (obs : W -> A) s s' :
  (forall c, P c = true -> P' c = true) ->
  advances P obs s s' -> advances P' obs s s'.
Proof.
  intros HP [[tr [E F]] [O C]]. split; [|split]; auto.
  - exists tr. split; [exact E | eapply allCalls_weaken; eassumption].
  - intros N. apply C. destruct (P GetConnection) eqn:G; [|reflexivity].
    apply HP in G. congruence.
Qed.

Lemma advances_blind {A : Type} (P : call -> bool) (obs : W -> A) s s' :
  advances P obs s s' -> advances P blind s s'.
Proof. intros [T [_ C]]. split; [|split]; auto. Qed.

(** The calls of a run that started with an empty trace. *)
Lemma advances_init {A : Type} (P : call -> bool) (obs : W -> A) w s' :
  advances P obs (init w) s' ->
  allCalls P (trace s') /\ obs (world s') = obs w.
Proof.
  intros [[tr [E F]] [O _]]. simpl in *. subst. split; assumption.
Qed.

End RunRules.

(* ===================================================================== *)
(** * What the reading parts of the engine call *)
(* ===================================================================== *)

Ltac quiet_step :=
  first
    [ apply quiet_ret
    | apply quiet_throw
    | apply quiet_bind; [|intros ?]
    | apply quiet_try_catch; [|intros ?] ].

Section Reads.
Context {W : Type} `{Environment W} {A : Type} (obs : W -> A).
Hypothesis inert : Inert obs.

Lemma quiet_poolCount (P : call -> bool) t c i :
  P (CountWhere t c i) = true -> quiet P obs (poolCount t c i).
Proof.
  intros Pc. apply quiet_perform; [exact Pc|]. apply inert_count, inert.
Qed.

Lemma quiet_poolSelectById (P : call -> bool) t i l :
  P (SelectById t i l) = true -> quiet P obs (poolSelectById t i l).
Proof.
  intros Pc. apply quiet_perform; [exact Pc|]. apply inert_select, inert.
Qed.

Lemma quiet_poolListUserIdColumns (P : call -> bool) :
  P ListUserIdColumns = true -> quiet P obs poolListUserIdColumns.
Proof.
  intros Pc. apply quiet_perform; [exact Pc|]. apply inert_list, inert.
Qed.

Lemma quiet_writeFileSync (P : call -> bool) f :
  P (WriteFile f) = true -> quiet P obs (writeFileSync f).
Proof.
  intros Pc. apply quiet_perform; [exact Pc|]. apply inert_write_file, inert.
Qed.

Lemma quiet_connRelease (P : call -> bool) :
  P Release = true -> quiet P obs connRelease.
Proof.
  intros Pc. apply quiet_perform_; [exact Pc|]. apply inert_release, inert.
Qed.

Lemma quiet_poolEnd (P : call -> bool) :
  P PoolEnd = true -> quiet P obs poolEnd.
Proof.
  intros Pc. apply quiet_perform_; [exact Pc|]. apply inert_pool_end, inert.
Qed.

Lemma quiet_connectionDefined (P : call -> bool) :
  quiet P obs connectionDefined.
Proof. intros s. apply advances_refl. Qed.

Lemma quiet_poolGetConnection (P : call -> bool) :
  P GetConnection = true -> quiet P obs poolGetConnection.
Proof.
  intros Pc s. unfold poolGetConnection. apply wp_bind, wp_perform.
  - intros [] w' E. unfold wp, assignConnection; simpl. split; [|split]; simpl.
    + exists [{| ev_call := GetConnection; ev_response := Done |}].
      split; [reflexivity|]. repeat constructor. exact Pc.
    + pose proof (inert_get_connection obs inert (world s)) as O.
      rewrite E in O. exact O.
    + congruence.
  - intros msg w' E. apply advances_record; [exact Pc|].
    pose proof (inert_get_connection obs inert (world s)) as O.
    rewrite E in O. exact O.
Qed.

(** ** The safety check only counts *)

Lemma quiet_checkEach r bindings acc :
  quiet isCount obs (UserRemover.checkEach r bindings acc).
Proof.
  revert acc. induction bindings as [|b rest IH]; intros acc; simpl.
  - quiet_step.
  - quiet_step; [|apply IH].
    quiet_step; [|quiet_step].
    quiet_step; [|quiet_step]. apply quiet_poolCount. reflexivity.
Qed.

Lemma quiet_verifySafeToRemove r :
  quiet isCount obs (UserRemover.verifySafeToRemove r).
Proof.
  unfold UserRemover.verifySafeToRemove.
  quiet_step; [|quiet_step].
  apply quiet_bind; [apply quiet_checkEach|]. intros [? ?]. quiet_step.
Qed.

(** ** The prerequisites only look the two users up *)

Lemma quiet_validatePrerequisites m :
  quiet isSelectById obs (UserMigrator.validatePrerequisites m).
Proof.
  unfold UserMigrator.validatePrerequisites.
  apply quiet_bind; [apply quiet_poolSelectById; reflexivity|].
  intros [|sourceUser0 ?]; [quiet_step|].
  apply quiet_bind; [apply quiet_poolSelectById; reflexivity|].
  intros [|targetUser0 ?]; quiet_step.
Qed.

(** ** The analyzer only reads *)

Lemma quiet_findTablesWithUserId :
  quiet isRead obs DatabaseAnalyzer.findTablesWithUserId.
Proof.
  unfold DatabaseAnalyzer.findTablesWithUserId.
  quiet_step; [|quiet_step].
  apply quiet_bind; [apply quiet_poolListUserIdColumns; reflexivity|].
  intros rows. destruct (DatabaseAnalyzer.pushColumns rows []); quiet_step.
Qed.

Lemma quiet_countEach a entries recordCounts :
  quiet isRead obs (DatabaseAnalyzer.countEach a entries recordCounts).
Proof.
  revert recordCounts.
  induction entries as [|[tableName columns] rest IH]; intros rc; simpl.
  - quiet_step.
  - quiet_step; [|apply IH].
    quiet_step; [|quiet_step].
    destruct (find isUserIdColumn columns); [|quiet_step].
    quiet_step; [|quiet_step]. apply quiet_poolCount. reflexivity.
Qed.

Lemma quiet_countRecordsByTable a tableMap :
  quiet isRead obs (DatabaseAnalyzer.countRecordsByTable a tableMap).
Proof.
  unfold DatabaseAnalyzer.countRecordsByTable.
  quiet_step; [apply quiet_countEach | quiet_step].
Qed.

End Reads.

(* ===================================================================== *)
(** * The in-memory store is a lawful environment *)
(* ===================================================================== *)

Lemma MySQL_tables_inert : Inert MySQL.tables.
Proof.
  constructor; simpl; try reflexivity.
  - intros t i l w. unfold MySQL.selectById.
    destruct (MySQL.findTable (MySQL.tables w) t) as [td|]; [|reflexivity].
    destruct (negb (MySQL.can_select td)); [reflexivity|].
    destruct (negb (MySQL.hasColumn td "id")); reflexivity.
  - intros t c i w. unfold MySQL.countWhere.
    destruct (MySQL.findTable (MySQL.tables w) t) as [td|]; [|reflexivity].
    destruct (negb (MySQL.can_select td)); [reflexivity|].
    destruct (negb (MySQL.hasColumn td c)); reflexivity.
  - intros f w. unfold MySQL.writeFile.
    destruct (MySQL.disk_ok w); reflexivity.
Qed.

(** A rewrite made through the held connection inside its transaction is
    undone by ROLLBACK: the committed data is what it was. *)
Lemma MySQL_rollback_drops_connection_rewrites (d : MySQL.db) t c newId oldId :
  MySQL.in_transaction d = true ->
  MySQL.tables
    (snd (MySQL.rollbackTransaction
            (snd (MySQL.connectionUpdate t c newId oldId d))))
  = MySQL.tables d.
Proof.
  intros T. unfold MySQL.connectionUpdate. rewrite T.
  destruct (MySQL.findTable (MySQL.tables d) t) as [td|]; [|reflexivity].
  destruct (negb (MySQL.can_update td)); [reflexivity|].
  destruct (negb (MySQL.hasColumn td c)); reflexivity.
Qed.

(* ===================================================================== *)
(** * The removal gate *)
(* ===================================================================== *)

Section RemovalGate.
Context {W : Type} `{Environment W}.

Lemma verifySafeToRemove_isSafe r (s s1 : state W) sr :
  UserRemover.verifySafeToRemove r s = (Ok sr, s1) ->
  UserRemover.isSafe sr = (UserRemover.totalReferences sr =? 0).
Proof.
  unfold UserRemover.verifySafeToRemove, try_catch, bind, ret, throw.
  destruct (UserRemover.checkEach r (UserRemover.migrationTables r) ([], 0) s)
    as [[[sc total]|e] s2]; [|discriminate].
  intros [= <- _]. reflexivity.
Qed.

Lemma isCount_isCountOrLog c : isCount c = true -> isCountOrLog c = true.
Proof. destruct c; simpl; congruence. Qed.

End RemovalGate.

(** X23. When the safety check of a removal run ends with a nonzero
    computed aggregate of remaining references, the run throws the "not
    safe to remove" error (or the error of the removal log that could
    not be written), having called nothing but the counts, the write of
    the removal log and the closing of the pool: no backup is written,
    no delete is executed, no transaction is opened, and the stored
    data, the row of the source user with it, is what it was. *)
Theorem X23_a_nonzero_aggregate_refuses_the_removal
    {W A : Type} `{Environment W} (obs : W -> A)
    (r : UserRemover.t) (w : W) (sr : UserRemover.SafetyResult)
    (s1 : state W) :
  Inert obs ->
  UserRemover.verifySafeToRemove r (init w) = (Ok sr, s1) ->
  UserRemover.totalReferences sr <> 0 ->
  wp (UserRemover.run r)
     (fun res s' =>
        (res = Threw (UnsafeToRemove (UserRemover.totalReferences sr))
         \/ exists msg,
             res = Threw (IOError msg)
             /\ In {| ev_call := WriteFile (RemovalLog (UserRemover.sourceUserId r)
                                                       (UserRemover.dryRun r));
                      ev_response := Failed msg |} (trace s'))
        /\ allCalls isCountOrLog (trace s')
        /\ (forall e, In e (trace s') ->
                      isBackupWrite (ev_call e) = false
                      /\ isDelete (ev_call e) = false
                      /\ ev_call e <> BeginTransaction)
        /\ obs (world s') = obs w)
     (init w).
Proof.
  intros inert Hv Hn.
  pose proof (quiet_verifySafeToRemove obs inert r (init w)) as Hq.
  unfold wp in Hq. rewrite Hv in Hq. simpl in Hq.
  destruct Hq as [[tr [Etr Ftr]] [Hobs Hconn]]. simpl in Etr, Hobs, Hconn.
  specialize (Hconn eq_refl).
  assert (Hsafe : UserRemover.isSafe sr = false).
  { rewrite (verifySafeToRemove_isSafe _ _ _ _ Hv). apply Z.eqb_neq, Hn. }
  assert (Hpost : forall tr', allCalls isCountOrLog tr' ->
            forall e, In e tr' ->
                      isBackupWrite (ev_call e) = false
                      /\ isDelete (ev_call e) = false
                      /\ ev_call e <> BeginTransaction).
  { intros tr' F e I. pose proof (allCalls_In _ _ _ F I) as P.
    destruct (ev_call e) as [| | | | | | | | | | |[]]; simpl in P;
      try discriminate; repeat split; congruence. }
  assert (Hcounts : allCalls isCountOrLog (trace s1)).
  { rewrite Etr. eapply allCalls_weaken; [apply isCount_isCountOrLog | exact Ftr]. }
  unfold UserRemover.run.
  apply wp_finally, wp_try_catch, wp_bind.
  unfold wp at 1. rewrite Hv. simpl fst; simpl snd; cbv iota.
  rewrite Hsafe. simpl negb. cbv iota.
  apply wp_bind, wp_throw, wp_bind.
  unfold connectionDefined, wp at 1. simpl fst; simpl snd. rewrite Hconn.
  simpl andb. cbv iota.
  apply wp_bind, wp_ret, wp_bind.
  unfold UserRemover.saveRemovalLog, writeFileSync.
  apply wp_bind, wp_perform.
  - intros [] w2 E2. apply wp_ret, wp_throw, wp_bind.
    unfold connectionDefined, wp at 1. simpl fst; simpl snd. rewrite Hconn.
    apply wp_bind, wp_ret. unfold poolEnd. apply wp_perform_.
    assert (F : allCalls isCountOrLog
                  (trace (record (record s1 w2
                            (WriteFile (RemovalLog (UserRemover.sourceUserId r)
                                                   (UserRemover.dryRun r))) Done)
                            (pool_end w2) PoolEnd Done))).
    { simpl. repeat apply allCalls_app; auto; repeat constructor. }
    split; [left; reflexivity|]. split; [exact F|]. split; [exact (Hpost _ F)|].
    simpl. rewrite (inert_pool_end obs inert).
    pose proof (inert_write_file obs inert
                  (RemovalLog (UserRemover.sourceUserId r) (UserRemover.dryRun r))
                  (world s1)) as O.
    rewrite E2 in O. simpl in O. congruence.
  - intros msg w2 E2. apply wp_bind.
    unfold connectionDefined, wp at 1. simpl fst; simpl snd. rewrite Hconn.
    apply wp_bind, wp_ret. unfold poolEnd. apply wp_perform_.
    assert (F : allCalls isCountOrLog
                  (trace (record (record s1 w2
                            (WriteFile (RemovalLog (UserRemover.sourceUserId r)
                                                   (UserRemover.dryRun r)))
                            (Failed msg))
                            (pool_end w2) PoolEnd Done))).
    { simpl. repeat apply allCalls_app; auto; repeat constructor. }
    split.
    { right. exists msg. split; [reflexivity|]. simpl.
      apply in_or_app. left. apply in_or_app. right. left. reflexivity. }
    split; [exact F|]. split; [exact (Hpost _ F)|].
    simpl. rewrite (inert_pool_end obs inert).
    pose proof (inert_write_file obs inert
                  (RemovalLog (UserRemover.sourceUserId r) (UserRemover.dryRun r))
                  (world s1)) as O.
    rewrite E2 in O. simpl in O. congruence.
Qed.

Lemma X23_a_nonzero_aggregate_refuses_the_removal_witness :
  exists sr s1,
    UserRemover.verifySafeToRemove Scenario.remover (init Scenario.stillReferenced)
    = (Ok sr, s1)
    /\ UserRemover.totalReferences sr <> 0
    /\ wp (UserRemover.run Scenario.remover)
          (fun res s' =>
             (res = Threw (UnsafeToRemove (UserRemover.totalReferences sr))
              \/ exists msg,
                  res = Threw (IOError msg)
                  /\ In {| ev_call :=
                             WriteFile
                               (RemovalLog
                                  (UserRemover.sourceUserId Scenario.remover)
                                  (UserRemover.dryRun Scenario.remover));
                           ev_response := Failed msg |} (trace s'))
             /\ allCalls isCountOrLog (trace s')
             /\ (forall e, In e (trace s') ->
                           isBackupWrite (ev_call e) = false
                           /\ isDelete (ev_call e) = false
                           /\ ev_call e <> BeginTransaction)
             /\ MySQL.tables (world s') = MySQL.tables Scenario.stillReferenced)
          (init Scenario.stillReferenced).
Proof.
  eexists. eexists.
  split; [lazy; reflexivity|].
  split; [simpl; discriminate|].
  eapply (X23_a_nonzero_aggregate_refuses_the_removal MySQL.tables Scenario.remover
            Scenario.stillReferenced).
  - exact MySQL_tables_inert.
  - lazy. reflexivity.
  - simpl. discriminate.
Defined.

(* ===================================================================== *)
(** * Backup before delete *)
(* ===================================================================== *)

Lemma inert_blind {W : Type} `{Environment W} : Inert (blind (W := W)).
Proof. constructor; reflexivity. Qed.






Lemma allCalls_snoc P tr e :
  P (ev_call e) = true -> allCalls P tr -> allCalls P (tr ++ [e]).
Proof. intros Pe F. apply allCalls_app; [exact F | repeat constructor; exact Pe]. Qed.


Lemma wp_connectionDefined {W : Type} `{Environment W}
    (Q : outcome bool -> state W -> Prop) s :
  Q (Ok (connection s)) s -> wp connectionDefined Q s.
Proof. intros q. exact q. Qed.

Lemma wp_assignConnection {W : Type} `{Environment W}
    (Q : outcome unit -> state W -> Prop) s :
  Q (Ok tt) {| world := world s; trace := trace s; connection := true |} ->
  wp assignConnection Q s.
Proof. intros q. exact q. Qed.

(** One step of a run, whatever the collaborators answer. *)
Ltac wp_step :=
  lazymatch goal with
  | |- wp (ret _) _ _ => apply wp_ret
  | |- wp (throw _) _ _ => apply wp_throw
  | |- wp (bind _ _) _ _ => apply wp_bind
  | |- wp (try_catch _ _) _ _ => apply wp_try_catch
  | |- wp (finally _ _) _ _ => apply wp_finally
  | |- wp connectionDefined _ _ => apply wp_connectionDefined
  | |- wp assignConnection _ _ => apply wp_assignConnection
  | |- wp (perform_ _ _) _ _ => apply wp_perform_
  | |- wp (perform _ _ _ _) _ _ =>
      apply wp_perform; [intros ? ? ? | intros ? ? ?]
  | |- wp (match ?x with _ => _ end) _ _ => destruct x eqn:?
  end.

Ltac wp_simpl :=
  cbv beta iota;
  cbn [connection record world fst snd];
  repeat match goal with
         | C : connection _ = _ |- _ => rewrite C
         end;
  cbn [andb negb].

Ltac wp_walk := repeat (wp_simpl; wp_step).

(** Membership in a trace that was built call by call. *)
Ltac in_trace :=
  repeat (apply in_or_app; first [ solve [right; left; reflexivity] | left ]).


Ltac solve_allCalls :=
  repeat (apply allCalls_snoc; [reflexivity|]); assumption.



(** The two ends of the discipline, on the in-memory store: a removal
    that deletes, after its backup; and a removal whose user row is
    gone, which stops at the backup. *)
Example removal_backs_up_then_deletes :
  let '(res, s') := UserRemover.run Scenario.remover (init Scenario.readyToRemove) in
  map ev_call (trace s')
  = [CountWhere "content" "user_id" 41; CountWhere "media" "user_id" 41;
     SelectById "user" 41 false;
     WriteFile (UserBackup 41 (Scenario.userRow 41 "ana") MIGRATION_TABLES);
     GetConnection; BeginTransaction; DeleteById "user" 41;
     CountWhere "user" "id" 41; Commit; WriteFile (RemovalLog 41 false);
     Release; PoolEnd]
  /\ MySQL.files (world s')
     = [UserBackup 41 (Scenario.userRow 41 "ana") MIGRATION_TABLES;
        RemovalLog 41 false].
Proof. vm_compute. split; reflexivity. Qed.

Example removal_without_user_row_stops :
  let '(res, s') := UserRemover.run Scenario.remover (init Scenario.sourceRowGone) in
  res = Threw (BackupUserNotFound 41)
  /\ map ev_call (trace s')
     = [CountWhere "content" "user_id" 41; CountWhere "media" "user_id" 41;
        SelectById "user" 41 false; WriteFile (RemovalLog 41 false); PoolEnd].
Proof. vm_compute. split; reflexivity. Qed.

(* ===================================================================== *)
(** * Simulate mode *)
(* ===================================================================== *)

Lemma quiet_weaken {W A B : Type} `{Environment W}
    (P P' : call -> bool) (obs : W -> A) (m : M W B) :
  (forall c, P c = true -> P' c = true) -> quiet P obs m -> quiet P' obs m.
Proof.
  intros HP Hm s. eapply wp_mono; [apply Hm|].
  intros r s'. apply advances_weaken, HP.
Qed.

Lemma isCount_isRead c : isCount c = true -> isRead c = true.
Proof. destruct c; simpl; congruence. Qed.

Lemma isSelectById_isRead c : isSelectById c = true -> isRead c = true.
Proof. destruct c; simpl; congruence. Qed.

Lemma wp_conj {W B : Type} (m : M W B) (Q1 Q2 : outcome B -> state W -> Prop) s :
  wp m Q1 s -> wp m Q2 s -> wp m (fun r s' => Q1 r s' /\ Q2 r s') s.
Proof. unfold wp. auto. Qed.

(** A part of the run of which nothing needs to be known but where it
    ends. *)
Lemma wp_bind_any {W B C : Type} (m : M W B) (k : B -> M W C)
    (Q : outcome C -> state W -> Prop) s :
  (forall b s1, wp (k b) Q s1) ->
  (forall e s1, Q (Threw e) s1) ->
  wp (bind m k) Q s.
Proof.
  intros Hk He. apply wp_bind. unfold wp at 1.
  destruct (m s) as [[b|e] s1]; simpl; auto.
Qed.

Lemma In_set {X : Type} (o : JS.object X) k v k' v' :
  In (k', v') (JS.set o k v) -> (k', v') = (k, v) \/ In (k', v') o.
Proof.
  induction o as [|[k0 v0] o IH]; simpl.
  - intros [E | []]. left. symmetry. exact E.
  - destruct (String.eqb k0 k) eqn:K; simpl.
    + apply String.eqb_eq in K. subst k0.
      intros [E | I]; [left; symmetry; exact E | right; right; exact I].
    + intros [E | I]; [right; left; exact E|].
      destruct (IH I) as [E | I']; [left; exact E | right; right; exact I'].
Qed.

Lemma simulated_more id tr tr' results :
  simulated id tr results -> simulated id (tr ++ tr') results.
Proof.
  intros S t res I. destruct (S t res I) as [M0 [c [U C]]].
  split; [exact M0|]. exists c. split; [exact U|].
  apply in_or_app. left. exact C.
Qed.

Section Simulate.
Context {W : Type} `{Environment W} {A : Type} (obs : W -> A).
Hypothesis inert : Inert obs.
Variable m : UserMigrator.t.
Hypothesis dry : UserMigrator.dryRun m = true.

Lemma quiet_migrateTable_dry tableName userIdColumn :
  quiet isCount obs (UserMigrator.migrateTable m tableName userIdColumn).
Proof.
  unfold UserMigrator.migrateTable. rewrite dry.
  apply quiet_try_catch; [|intros e; apply quiet_throw].
  apply quiet_bind; [apply quiet_poolCount; [exact inert | reflexivity]|].
  intros recordCount. destruct (recordCount =? 0); apply quiet_ret.
Qed.

Lemma quiet_migrateEach_dry recordCounts entries acc :
  quiet isCount obs (UserMigrator.migrateEach m recordCounts entries acc).
Proof.
  revert acc.
  induction entries as [|[tableName columns] rest IH]; intros acc; simpl.
  - apply quiet_ret.
  - destruct (find isUserIdColumn columns) as [userIdColumn|]; [|apply IH].
    destruct (UserMigrator.hasRecords recordCounts tableName); [|apply IH].
    apply quiet_bind; [|intros acc'; apply IH].
    apply quiet_try_catch.
    + apply quiet_bind; [apply quiet_migrateTable_dry|].
      intros result. apply quiet_ret.
    + intros e. rewrite dry. simpl negb. cbv iota.
      apply quiet_bind; [apply quiet_ret | intros ?; apply quiet_throw].
Qed.

Lemma quiet_executeMigration_dry analyzer :
  quiet isRead obs (UserMigrator.executeMigration m analyzer).
Proof.
  unfold UserMigrator.executeMigration. rewrite dry. simpl negb. cbv iota.
  apply quiet_finally.
  - apply quiet_try_catch.
    + apply quiet_bind.
      { eapply quiet_weaken; [apply isSelectById_isRead|].
        apply quiet_validatePrerequisites, inert. }
      intros users.
      apply quiet_bind; [apply quiet_findTablesWithUserId, inert|].
      intros tableMap.
      apply quiet_bind; [apply quiet_countRecordsByTable, inert|].
      intros recordCounts.
      apply quiet_bind; [apply quiet_poolGetConnection; [exact inert | reflexivity]|].
      intros _.
      apply quiet_bind; [apply quiet_ret|]. intros _.
      apply quiet_bind.
      { eapply quiet_weaken; [apply isCount_isRead|].
        apply quiet_migrateEach_dry. }
      intros [migrationResults totalMigrated]. simpl andb. cbv iota.
      apply quiet_bind; [apply quiet_ret | intros _; apply quiet_ret].
    + intros e.
      apply quiet_bind; [apply quiet_connectionDefined|]. intros c.
      rewrite andb_false_r.
      apply quiet_bind; [apply quiet_ret | intros _; apply quiet_throw].
  - apply quiet_bind; [apply quiet_connectionDefined|]. intros [|].
    + apply quiet_connRelease; [exact inert | reflexivity].
    + apply quiet_ret.
Qed.

Lemma migrateTable_simulated tableName userIdColumn s :
  wp (UserMigrator.migrateTable m tableName userIdColumn)
     (fun res s' =>
        (exists tr, trace s' = trace s ++ tr)
        /\ forall result, res = Ok result ->
             UserMigrator.migrated result = 0
             /\ In {| ev_call := CountWhere tableName userIdColumn
                                   (UserMigrator.sourceUserId m);
                      ev_response := Number (UserMigrator.skipped result) |}
                   (trace s'))
     s.
Proof.
  unfold UserMigrator.migrateTable, poolCount. rewrite dry.
  apply wp_rethrow, wp_bind, wp_perform.
  - intros n w' E. destruct (n =? 0) eqn:Z0; apply wp_ret;
      (split; [eexists; reflexivity|]); intros result [= <-]; simpl;
      (split; [reflexivity|]); apply in_or_app; right; left.
    + apply Z.eqb_eq in Z0. subst n. reflexivity.
    + reflexivity.
  - intros msg w' E. split; [eexists; reflexivity | discriminate].
Qed.

Lemma migrateEach_simulated recordCounts entries acc s :
  simulated (UserMigrator.sourceUserId m) (trace s) (fst acc) ->
  wp (UserMigrator.migrateEach m recordCounts entries acc)
     (fun res s' =>
        forall acc', res = Ok acc' ->
          snd acc' = snd acc
          /\ simulated (UserMigrator.sourceUserId m) (trace s') (fst acc'))
     s.
Proof.
  revert acc s.
  induction entries as [|[tableName columns] rest IH]; intros acc s S; simpl.
  - apply wp_ret. intros acc' [= <-]. auto.
  - destruct (find isUserIdColumn columns) as [userIdColumn|] eqn:F;
      [|apply IH, S].
    destruct (UserMigrator.hasRecords recordCounts tableName); [|apply IH, S].
    apply find_some in F. destruct F as [_ F].
    apply wp_bind, wp_try_catch, wp_bind.
    eapply wp_mono; [apply migrateTable_simulated|].
    intros [result|e] s1 [[tr E] R]; cbv beta iota.
    + destruct (R result eq_refl) as [M0 C].
      apply wp_ret. cbv beta iota.
      eapply wp_mono; [apply IH|].
      * simpl fst. intros t res I. apply In_set in I.
        destruct I as [[= -> ->] | I].
        -- split; [exact M0|]. exists userIdColumn. auto.
        -- rewrite E. exact (simulated_more _ _ _ _ S t res I).
      * intros r s2 R2 acc' Eacc. destruct (R2 acc' Eacc) as [T S2].
        split; [|exact S2]. rewrite T. simpl. rewrite M0. lia.
    + rewrite dry. simpl negb. cbv iota.
      apply wp_bind, wp_ret, wp_throw. discriminate.
Qed.

End Simulate.

Section SimulateRun.
Context {W : Type} `{Environment W}.
Variable m : UserMigrator.t.
Hypothesis dry : UserMigrator.dryRun m = true.

Lemma executeMigration_simulated analyzer s :
  wp (UserMigrator.executeMigration m analyzer)
     (fun res s' =>
        forall rep, res = Ok rep ->
          UserMigrator.totalMigrated rep = 0
          /\ simulated (UserMigrator.sourceUserId m) (trace s')
               (UserMigrator.migrationResults rep))
     s.
Proof.
  unfold UserMigrator.executeMigration. rewrite dry. simpl negb. cbv iota.
  apply wp_finally, wp_try_catch.
  assert (Hthrew : forall e (s1 : state W),
    wp (c <- connectionDefined ;;
        (if c && false
         then try_catch connRollback (fun _ => ret tt) else ret tt) ;;;
        throw e)
       (fun (r : outcome UserMigrator.MigrationResult) s2 =>
          wp (c <- connectionDefined ;; (if c then connRelease else ret tt))
             (fun rf s3 =>
                match rf with
                | Ok _ =>
                    forall rep, r = Ok rep ->
                      UserMigrator.totalMigrated rep = 0
                      /\ simulated (UserMigrator.sourceUserId m) (trace s3)
                           (UserMigrator.migrationResults rep)
                | Threw e' =>
                    forall rep, Threw e' = Ok rep ->
                      UserMigrator.totalMigrated rep = 0
                      /\ simulated (UserMigrator.sourceUserId m) (trace s3)
                           (UserMigrator.migrationResults rep)
                end) s2) s1).
  { intros e s1. unfold connRollback, connRelease. wp_walk; discriminate. }
  do 5 (apply wp_bind_any; [intros ? ?|exact Hthrew]).
  apply wp_bind.
  eapply wp_mono; [apply migrateEach_simulated; [exact dry | intros t res []]|].
  intros [[results total]|e] s5 R; cbv beta iota; [|apply Hthrew].
  destruct (R _ eq_refl) as [T S]. simpl in T. subst total.
  unfold connRelease. wp_walk.
  all: intros rep [= <-]; simpl; split; auto.
  cbn [trace record]. apply simulated_more. exact S.
Qed.

Context {A : Type} (obs : W -> A).
Hypothesis inert : Inert obs.

Lemma isRead_isReadOrLog c : isRead c = true -> isReadOrLog c = true.
Proof. destruct c; simpl; congruence. Qed.

Lemma quiet_verifyEach entries verificationResults :
  quiet isRead obs (UserMigrator.verifyEach m entries verificationResults).
Proof.
  revert verificationResults.
  induction entries as [|[tableName columns] rest IH]; intros vr; simpl.
  - apply quiet_ret.
  - destruct (find isUserIdColumn columns) as [userIdColumn|]; [|apply IH].
    apply quiet_bind; [apply quiet_poolCount; [exact inert | reflexivity]|].
    intros sourceCount.
    apply quiet_bind; [apply quiet_poolCount; [exact inert | reflexivity]|].
    intros targetCount. apply IH.
Qed.

Lemma quiet_verifyMigration :
  quiet isRead obs (UserMigrator.verifyMigration m).
Proof.
  unfold UserMigrator.verifyMigration.
  apply quiet_try_catch; [|intros e; apply quiet_throw].
  apply quiet_bind; [apply quiet_findTablesWithUserId, inert|].
  intros tableMap. apply quiet_verifyEach.
Qed.

Lemma quiet_saveMigrationLog :
  quiet isReadOrLog obs (UserMigrator.saveMigrationLog m).
Proof.
  unfold UserMigrator.saveMigrationLog.
  apply quiet_bind; [apply quiet_writeFileSync; [exact inert | reflexivity]|].
  intros _. apply quiet_ret.
Qed.

Lemma quiet_run_dry analyzer :
  quiet isReadOrLog obs (UserMigrator.run m analyzer).
Proof.
  unfold UserMigrator.run.
  apply quiet_finally; [|apply quiet_poolEnd; [exact inert | reflexivity]].
  apply quiet_try_catch.
  - apply quiet_bind.
    { eapply quiet_weaken; [apply isRead_isReadOrLog|].
      apply quiet_executeMigration_dry; assumption. }
    intros migrationResult. apply quiet_bind.
    { eapply quiet_weaken; [apply isRead_isReadOrLog|].
      apply quiet_verifyMigration. }
    intros verificationResult.
    apply quiet_bind; [apply quiet_saveMigrationLog|].
    intros logFile. apply quiet_ret.
  - intros e. apply quiet_bind; [apply quiet_saveMigrationLog|].
    intros _. apply quiet_throw.
Qed.

End SimulateRun.

Lemma get_In {X : Type} (o : JS.object X) k v :
  JS.get o k = Some v -> In (k, v) o.
Proof.
  induction o as [|[k0 v0] o IH]; simpl; [discriminate|].
  destruct (String.eqb k0 k) eqn:K.
  - apply String.eqb_eq in K. subst k0. intros [= <-]. left. reflexivity.
  - intros G. right. apply IH, G.
Qed.

Lemma set_keeps {X : Type} (o : JS.object X) k v t :
  JS.get o t <> None -> JS.get (JS.set o k v) t <> None.
Proof.
  rewrite get_set. destruct (String.eqb k t); [discriminate | auto].
Qed.

Section Reported.
Context {W : Type} `{Environment W}.

(** A table that the analyzer counted rows in has positive record
    counts, and is a table of the map with the column that was counted. *)
Lemma countEach_found (a : DatabaseAnalyzer.t) all entries recordCounts
    base tr0 (s : state W) :
  incl entries all ->
  NoDup (map fst entries) ->
  trace s = base ++ tr0 ->
  (forall t c n,
     In {| ev_call := CountWhere t c (DatabaseAnalyzer.sourceUserId a);
           ev_response := Number n |} tr0 ->
     0 < n ->
     UserMigrator.hasRecords recordCounts t = true
     /\ (exists columns,
           In (t, columns) all /\ find isUserIdColumn columns = Some c)
     /\ ~ In t (map fst entries)) ->
  wp (DatabaseAnalyzer.countEach a entries recordCounts)
     (fun res s' =>
        exists recordCounts' tr,
          res = Ok recordCounts'
          /\ trace s' = base ++ tr
          /\ forall t c n,
               In {| ev_call := CountWhere t c (DatabaseAnalyzer.sourceUserId a);
                     ev_response := Number n |} tr ->
               0 < n ->
               UserMigrator.hasRecords recordCounts' t = true
               /\ exists columns,
                    In (t, columns) all
                    /\ find isUserIdColumn columns = Some c)
     s.
Proof.
  revert recordCounts tr0 s.
  induction entries as [|[tableName columns] rest IH];
    intros rc tr0 s Incl D Etr Inv; simpl.
  - apply wp_ret. exists rc, tr0. split; [reflexivity|]. split; [exact Etr|].
    intros t c n I Pos. destruct (Inv t c n I Pos) as [HR [Cols _]]. auto.
  - simpl in D. inversion D as [|? ? Nin D']; subst.
    assert (Incl' : incl rest all).
    { intros x I. apply Incl. right. exact I. }
    assert (Here : In (tableName, columns) all).
    { apply Incl. left. reflexivity. }
    assert (Old : forall v t c n,
              In {| ev_call := CountWhere t c (DatabaseAnalyzer.sourceUserId a);
                    ev_response := Number n |} tr0 ->
              0 < n ->
              UserMigrator.hasRecords (JS.set rc tableName v) t = true
              /\ (exists columns0,
                    In (t, columns0) all
                    /\ find isUserIdColumn columns0 = Some c)
              /\ ~ In t (map fst rest)).
    { intros v t c n I Pos. destruct (Inv t c n I Pos) as [HR [Cols Nt]].
      assert (tableName <> t) by (intros ->; apply Nt; left; reflexivity).
      split; [|split; [exact Cols|]].
      - unfold UserMigrator.hasRecords in *.
        rewrite get_set_other by assumption. exact HR.
      - intros I'. apply Nt. right. exact I'. }
    apply wp_bind, wp_try_catch.
    destruct (find isUserIdColumn columns) as [userIdColumn|] eqn:Fd.
    + unfold poolCount. apply wp_bind, wp_perform.
      * intros n0 w' E. apply wp_ret. cbv beta iota.
        apply (IH _ (tr0 ++ [{| ev_call :=
                                  CountWhere tableName userIdColumn
                                    (DatabaseAnalyzer.sourceUserId a);
                                ev_response := Number n0 |}]));
          [exact Incl' | exact D'
          | cbn [trace record]; rewrite Etr, <- app_assoc; reflexivity|].
        intros t c n I Pos. apply in_app_or in I. destruct I as [I|I].
        -- apply (Old _ t c n I Pos).
        -- destruct I as [[= <- <- <-]|[]].
           split; [|split; [exists columns; auto | exact Nin]].
           unfold UserMigrator.hasRecords. rewrite get_set_same. simpl.
           apply Z.ltb_lt, Pos.
      * intros msg w' E. apply wp_ret. cbv beta iota.
        apply (IH _ (tr0 ++ [{| ev_call :=
                                  CountWhere tableName userIdColumn
                                    (DatabaseAnalyzer.sourceUserId a);
                                ev_response := Failed msg |}]));
          [exact Incl' | exact D'
          | cbn [trace record]; rewrite Etr, <- app_assoc; reflexivity|].
        intros t c n I Pos. apply in_app_or in I. destruct I as [I|I].
        -- apply (Old _ t c n I Pos).
        -- destruct I as [I|[]]; discriminate I.
    + apply wp_ret. cbv beta iota.
      apply (IH _ tr0); [exact Incl' | exact D' | exact Etr|].
      intros t c n I Pos. destruct (Inv t c n I Pos) as [HR [Cols Nt]].
      split; [exact HR | split; [exact Cols|]].
      intros I'. apply Nt. right. exact I'.
Qed.

(** The loop of a migration keeps the entries it has, and when it
    returns it has made one for every table of its entries that has a
    user-id column and record counts, which are also the only tables it
    counts in. *)
Lemma migrateEach_entries (m : UserMigrator.t) recordCounts entries acc
    (s : state W) :
  wp (UserMigrator.migrateEach m recordCounts entries acc)
     (fun res s' =>
        exists tr,
          trace s' = trace s ++ tr
          /\ forall acc', res = Ok acc' ->
               (forall t, JS.get (fst acc) t <> None ->
                          JS.get (fst acc') t <> None)
               /\ (forall t columns c,
                     In (t, columns) entries ->
                     find isUserIdColumn columns = Some c ->
                     UserMigrator.hasRecords recordCounts t = true ->
                     JS.get (fst acc') t <> None)
               /\ (forall t c id rsp,
                     In {| ev_call := CountWhere t c id;
                           ev_response := rsp |} tr ->
                     JS.get (fst acc') t <> None))
     s.
Proof.
  revert acc s.
  induction entries as [|[tableName columns] rest IH]; intros acc s.
  - apply wp_ret. exists []. rewrite app_nil_r. split; [reflexivity|].
    intros acc' [= <-]. split; [auto|]. split; [intros ? ? ? []|intros ? ? ? ? []].
  - assert (Skip : forall (s0 : state W),
      (forall c, find isUserIdColumn columns = Some c ->
                 UserMigrator.hasRecords recordCounts tableName = true ->
                 False) ->
      wp (UserMigrator.migrateEach m recordCounts rest acc)
         (fun res s' =>
            exists tr,
              trace s' = trace s0 ++ tr
              /\ forall acc', res = Ok acc' ->
                   (forall t, JS.get (fst acc) t <> None ->
                              JS.get (fst acc') t <> None)
                   /\ (forall t columns0 c,
                         In (t, columns0) ((tableName, columns) :: rest) ->
                         find isUserIdColumn columns0 = Some c ->
                         UserMigrator.hasRecords recordCounts t = true ->
                         JS.get (fst acc') t <> None)
                   /\ (forall t c id rsp,
                         In {| ev_call := CountWhere t c id;
                               ev_response := rsp |} tr ->
                         JS.get (fst acc') t <> None)) s0).
    { intros s0 No. eapply wp_mono; [apply IH|].
      intros res s' [tr [Etr R]]. exists tr. split; [exact Etr|].
      intros acc' E. destruct (R acc' E) as [R1 [R2 R3]].
      split; [exact R1 | split; [|exact R3]].
      intros t columns0 c [[= <- <-]|I] Fd HR;
        [exfalso; eapply No; eassumption | eapply R2; eassumption]. }
    cbn [UserMigrator.migrateEach].
    destruct (find isUserIdColumn columns) as [userIdColumn|] eqn:Fd;
      [|apply Skip; discriminate].
    destruct (UserMigrator.hasRecords recordCounts tableName) eqn:HR;
      [|apply Skip; discriminate].
    clear Skip.
    assert (Step : forall result tr1 (s1 : state W),
      trace s1 = trace s ++ tr1 ->
      (forall t c id rsp,
         In {| ev_call := CountWhere t c id; ev_response := rsp |} tr1 ->
         t = tableName) ->
      wp (UserMigrator.migrateEach m recordCounts rest
            (JS.set (fst acc) tableName result,
             snd acc + UserMigrator.migrated result))
         (fun res s' =>
            exists tr,
              trace s' = trace s ++ tr
              /\ forall acc', res = Ok acc' ->
                   (forall t, JS.get (fst acc) t <> None ->
                              JS.get (fst acc') t <> None)
                   /\ (forall t columns0 c,
                         In (t, columns0) ((tableName, columns) :: rest) ->
                         find isUserIdColumn columns0 = Some c ->
                         UserMigrator.hasRecords recordCounts t = true ->
                         JS.get (fst acc') t <> None)
                   /\ (forall t c id rsp,
                         In {| ev_call := CountWhere t c id;
                               ev_response := rsp |} tr ->
                         JS.get (fst acc') t <> None)) s1).
    { intros result tr1 s1 Etr1 Own. eapply wp_mono; [apply IH|].
      intros res s' [tr [Etr R]]. exists (tr1 ++ tr).
      split; [rewrite Etr, Etr1, app_assoc; reflexivity|].
      intros acc' E. destruct (R acc' E) as [R1 [R2 R3]]. cbn [fst] in R1.
      assert (Mine : JS.get (fst acc') tableName <> None).
      { apply R1. rewrite get_set_same. discriminate. }
      split; [|split].
      - intros t G. apply R1, set_keeps, G.
      - intros t columns0 c [[= <- <-]|I] Fd0 HR0;
          [exact Mine | eapply R2; eassumption].
      - intros t c id rsp I. apply in_app_or in I. destruct I as [I|I].
        + rewrite (Own t c id rsp I). exact Mine.
        + eapply R3, I. }
    unfold UserMigrator.migrateTable, poolCount, poolUpdate, connRollback.
    wp_walk;
      first
        [ eapply Step;
          [cbn [trace record]; rewrite <- ?app_assoc; reflexivity|];
          intros t c id rsp I; simpl in I;
          repeat (destruct I as [I|I];
                  [first [discriminate I
                         | injection I; intros; subst; reflexivity]|]);
          contradiction
        | eexists;
          (split; [cbn [trace record]; rewrite <- ?app_assoc; reflexivity
                  | intros ? [=]]) ].
Qed.

Lemma executeMigration_reported (m : UserMigrator.t)
    (analyzer : DatabaseAnalyzer.t) (w : W) :
  wp (UserMigrator.executeMigration m analyzer)
     (fun res s' =>
        forall rep, res = Ok rep ->
          forall t c n,
            In {| ev_call :=
                    CountWhere t c (DatabaseAnalyzer.sourceUserId analyzer);
                  ev_response := Number n |} (trace s') ->
            0 < n ->
            JS.get (UserMigrator.migrationResults rep) t <> None)
     (init w).
Proof.
  unfold UserMigrator.executeMigration, UserMigrator.validatePrerequisites,
    DatabaseAnalyzer.findTablesWithUserId, DatabaseAnalyzer.countRecordsByTable,
    poolSelectById, poolListUserIdColumns, poolGetConnection,
    connBeginTransaction, connCommit, connRollback, connRelease.
  wp_walk; try discriminate.
  match goal with
  | P : DatabaseAnalyzer.pushColumns _ _ = inr ?tm
    |- wp (DatabaseAnalyzer.countEach _ _ _) _ ?s =>
      assert (D : NoDup (map fst (JS.entries tm)))
        by (apply entries_keys, (pushColumns_keys _ _ _ P); constructor);
      set (tableMap := JS.entries tm) in *; remember s as s3 eqn:Es3
  end.
  assert (E3 : forall ev, In ev (trace s3) ->
                 forall t c id, ev_call ev <> CountWhere t c id).
  { subst s3. cbn [trace record init]. intros ev I t c id.
    repeat (apply in_app_or in I; destruct I as [I|I]);
      simpl in I; try contradiction;
      destruct I as [<-|[]]; discriminate. }
  clearbody tableMap. clear Es3.
  eapply wp_mono;
    [apply (countEach_found analyzer tableMap tableMap [] (trace s3) []);
     [apply incl_refl | exact D | symmetry; apply app_nil_r
     | intros t c n []]|].
  intros res s4 [recordCounts [trc [-> [Etr Found]]]]. cbv beta iota.
  wp_walk; try discriminate.
  all: eapply wp_mono; [apply migrateEach_entries|];
    cbn [trace record]; intros res s6 [trl [Etl R]];
    destruct res as [[results total]|e]; wp_walk; try discriminate;
    destruct (R _ eq_refl) as [_ [R2 R3]]; cbn [fst] in R2, R3;
    intros rep [= <-] t c n I Pos; cbn [trace record] in I;
    cbn [UserMigrator.migrationResults];
    rewrite ?Etl, ?Etr in I;
    repeat (apply in_app_or in I; destruct I as [I|I]);
    try (simpl in I; destruct I as [I|[]]; discriminate I);
    first [ exfalso; exact (E3 _ I _ _ _ eq_refl)
          | destruct (Found t c n I Pos) as [HR [columns [Ic Fd]]];
            exact (R2 t columns c Ic Fd HR)
          | exact (R3 t c _ _ I) ].
Qed.

End Reported.

Section Keeps.
Context {W : Type} `{Environment W}.
Variable J : state W -> Prop.

Lemma keeps_ret {B : Type} (b : B) : keeps J (ret (W := W) b).
Proof. intros s j. exact j. Qed.

Lemma keeps_throw {B : Type} e : keeps J (throw (W := W) (A := B) e).
Proof. intros s j. exact j. Qed.

Lemma keeps_bind {B C : Type} (m : M W B) (k : B -> M W C) :
  keeps J m -> (forall b, keeps J (k b)) -> keeps J (bind m k).
Proof.
  intros Hm Hk s j. apply wp_bind.
  eapply wp_mono; [apply Hm, j|]. intros [b|e] s1 j1; [|exact j1].
  apply Hk, j1.
Qed.

Lemma keeps_try_catch {B : Type} (m : M W B) h :
  keeps J m -> (forall e, keeps J (h e)) -> keeps J (try_catch m h).
Proof.
  intros Hm Hh s j. apply wp_try_catch.
  eapply wp_mono; [apply Hm, j|]. intros [b|e] s1 j1; [exact j1|].
  apply Hh, j1.
Qed.

Lemma keeps_finally {B : Type} (m : M W B) f :
  keeps J m -> keeps J f -> keeps J (finally m f).
Proof.
  intros Hm Hf s j. apply wp_finally.
  eapply wp_mono; [apply Hm, j|]. intros r s1 j1. cbv beta in j1.
  eapply wp_mono; [apply Hf, j1|]. intros [u|e] s2 j2; exact j2.
Qed.

End Keeps.

Ltac keeps_step :=
  first
    [ apply keeps_ret
    | apply keeps_throw
    | apply keeps_bind; [|intros ?]
    | apply keeps_try_catch; [|intros ?] ].

Section Faithful.
Context {W : Type} `{Environment W} {A : Type} (obs : W -> A).
Hypothesis inert : Inert obs.
Variable w : W.

Lemma faithful_init : faithful obs w (init w).
Proof. split; [reflexivity | intros t c id n []]. Qed.

Lemma faithful_record (s : state W) w' c r :
  faithful obs w s ->
  obs w' = obs (world s) ->
  (forall t c' id n,
     c = CountWhere t c' id -> r = Number n ->
     fst (count_where t c' id (world s)) = inr n) ->
  faithful obs w (record s w' c r).
Proof.
  intros [O C] O' N. split; [simpl; congruence|].
  intros t c' id n I. cbn [trace record] in I.
  apply in_app_or in I. destruct I as [I|[I|[]]]; [exact (C t c' id n I)|].
  injection I as -> ->. exists (world s). split; [exact O|].
  apply (N t c' id n); reflexivity.
Qed.

Lemma keeps_perform_other {B : Type} c (f : W -> (string + B) * W)
    wrap show :
  isCount c = false -> (forall w0, obs (snd (f w0)) = obs w0) ->
  keeps (faithful obs w) (perform c f wrap show).
Proof.
  intros Nc O s j. apply wp_perform; intros x w' E;
    (apply faithful_record;
     [ exact j
     | specialize (O (world s)); rewrite E in O; exact O
     | intros t c' id n ->; discriminate Nc ]).
Qed.

Lemma keeps_perform_ c (f : W -> W) :
  isCount c = false -> (forall w0, obs (f w0) = obs w0) ->
  keeps (faithful obs w) (perform_ c f).
Proof.
  intros Nc O s j. apply wp_perform_. apply faithful_record;
    [exact j | apply O | intros t c' id n ->; discriminate Nc].
Qed.

Lemma keeps_poolCount t c i : keeps (faithful obs w) (poolCount t c i).
Proof.
  intros s j. unfold poolCount. apply wp_perform; intros x w' E;
    (apply faithful_record;
     [ exact j
     | pose proof (inert_count obs inert t c i (world s)) as O;
       rewrite E in O; exact O
     | ]).
  - intros t0 c0 id n [= <- <- <-] [= <-]. rewrite E. reflexivity.
  - intros t0 c0 id n _ [=].
Qed.

Lemma keeps_poolSelectById t i l :
  keeps (faithful obs w) (poolSelectById t i l).
Proof.
  apply keeps_perform_other; [reflexivity|]. apply inert_select, inert.
Qed.

Lemma keeps_poolListUserIdColumns :
  keeps (faithful obs w) poolListUserIdColumns.
Proof.
  apply keeps_perform_other; [reflexivity|]. apply inert_list, inert.
Qed.

Lemma keeps_connRelease : keeps (faithful obs w) connRelease.
Proof.
  apply keeps_perform_; [reflexivity|]. apply inert_release, inert.
Qed.

Lemma keeps_connectionDefined : keeps (faithful obs w) connectionDefined.
Proof. intros s j. exact j. Qed.

Lemma keeps_poolGetConnection : keeps (faithful obs w) poolGetConnection.
Proof.
  unfold poolGetConnection. apply keeps_bind.
  - apply keeps_perform_other; [reflexivity|].
    apply inert_get_connection, inert.
  - intros _ s j. exact j.
Qed.

Lemma keeps_validatePrerequisites m :
  keeps (faithful obs w) (UserMigrator.validatePrerequisites m).
Proof.
  unfold UserMigrator.validatePrerequisites.
  apply keeps_bind; [apply keeps_poolSelectById|].
  intros [|sourceUser0 ?]; [keeps_step|].
  apply keeps_bind; [apply keeps_poolSelectById|].
  intros [|targetUser0 ?]; keeps_step.
Qed.

Lemma keeps_findTablesWithUserId :
  keeps (faithful obs w) DatabaseAnalyzer.findTablesWithUserId.
Proof.
  unfold DatabaseAnalyzer.findTablesWithUserId.
  keeps_step; [|keeps_step].
  apply keeps_bind; [apply keeps_poolListUserIdColumns|].
  intros rows. destruct (DatabaseAnalyzer.pushColumns rows []); keeps_step.
Qed.

Lemma keeps_countEach a entries recordCounts :
  keeps (faithful obs w)
        (DatabaseAnalyzer.countEach a entries recordCounts).
Proof.
  revert recordCounts.
  induction entries as [|[tableName columns] rest IH]; intros rc; simpl.
  - keeps_step.
  - keeps_step; [|apply IH].
    keeps_step; [|keeps_step].
    destruct (find isUserIdColumn columns); [|keeps_step].
    keeps_step; [|keeps_step]. apply keeps_poolCount.
Qed.

Lemma keeps_countRecordsByTable a tableMap :
  keeps (faithful obs w) (DatabaseAnalyzer.countRecordsByTable a tableMap).
Proof.
  unfold DatabaseAnalyzer.countRecordsByTable.
  keeps_step; [apply keeps_countEach | keeps_step].
Qed.

Variable m : UserMigrator.t.
Hypothesis dry : UserMigrator.dryRun m = true.

Lemma keeps_migrateTable_dry tableName userIdColumn :
  keeps (faithful obs w)
        (UserMigrator.migrateTable m tableName userIdColumn).
Proof.
  unfold UserMigrator.migrateTable. rewrite dry.
  apply keeps_try_catch; [|intros e; apply keeps_throw].
  apply keeps_bind; [apply keeps_poolCount|].
  intros recordCount. destruct (recordCount =? 0); apply keeps_ret.
Qed.

Lemma keeps_migrateEach_dry recordCounts entries acc :
  keeps (faithful obs w)
        (UserMigrator.migrateEach m recordCounts entries acc).
Proof.
  revert acc.
  induction entries as [|[tableName columns] rest IH]; intros acc; simpl.
  - apply keeps_ret.
  - destruct (find isUserIdColumn columns) as [userIdColumn|]; [|apply IH].
    destruct (UserMigrator.hasRecords recordCounts tableName); [|apply IH].
    apply keeps_bind; [|intros acc'; apply IH].
    apply keeps_try_catch.
    + apply keeps_bind; [apply keeps_migrateTable_dry|].
      intros result. apply keeps_ret.
    + intros e. rewrite dry. simpl negb. cbv iota.
      apply keeps_bind; [apply keeps_ret | intros ?; apply keeps_throw].
Qed.

(** Every count that a simulated migration reads is a count of the store
    as it was before the run. *)
Lemma keeps_executeMigration_dry analyzer :
  keeps (faithful obs w) (UserMigrator.executeMigration m analyzer).
Proof.
  unfold UserMigrator.executeMigration. rewrite dry. simpl negb. cbv iota.
  apply keeps_finally.
  - apply keeps_try_catch.
    + apply keeps_bind; [apply keeps_validatePrerequisites|].
      intros users.
      apply keeps_bind; [apply keeps_findTablesWithUserId|].
      intros tableMap.
      apply keeps_bind; [apply keeps_countRecordsByTable|].
      intros recordCounts.
      apply keeps_bind; [apply keeps_poolGetConnection|].
      intros _.
      apply keeps_bind; [apply keeps_ret|]. intros _.
      apply keeps_bind; [apply keeps_migrateEach_dry|].
      intros [migrationResults totalMigrated]. simpl andb. cbv iota.
      apply keeps_bind; [apply keeps_ret | intros _; apply keeps_ret].
    + intros e.
      apply keeps_bind; [apply keeps_connectionDefined|]. intros c.
      rewrite andb_false_r.
      apply keeps_bind; [apply keeps_ret | intros _; apply keeps_throw].
  - apply keeps_bind; [apply keeps_connectionDefined|]. intros [|].
    + apply keeps_connRelease.
    + apply keeps_ret.
Qed.

End Faithful.

(** C7. A migration in Simulate mode only reads. [executeMigration] calls
    nothing but SELECT statements and the taking and giving back of a
    connection: no rewrite, no delete, no BEGIN, COMMIT or ROLLBACK; the
    stored data, and with it every reference count, is what it was
    before the run, and every count that the run reads is a count of
    that data. When it returns, [totalMigrated] is zero, every per-table
    result has [migrated] zero and, as [skipped], the count of the
    source identifier that the run read for that table, and every table
    in which the analyzer counted rows has such a result. The whole
    [run] adds to this only further counts, the write of its log file
    and the closing of the pool. *)
Theorem C7_simulate_mode_only_reads
    {W A : Type} `{Environment W} (obs : W -> A)
    (m : UserMigrator.t) (analyzer : DatabaseAnalyzer.t) (w : W) :
  Inert obs ->
  UserMigrator.dryRun m = true ->
  wp (UserMigrator.executeMigration m analyzer)
     (fun res s' =>
        allCalls isRead (trace s')
        /\ obs (world s') = obs w
        /\ countsOf obs w (trace s')
        /\ forall rep, res = Ok rep ->
             UserMigrator.totalMigrated rep = 0
             /\ simulated (UserMigrator.sourceUserId m) (trace s')
                  (UserMigrator.migrationResults rep)
             /\ forall t c n,
                  In {| ev_call :=
                          CountWhere t c
                            (DatabaseAnalyzer.sourceUserId analyzer);
                        ev_response := Number n |} (trace s') ->
                  0 < n ->
                  exists result c',
                    JS.get (UserMigrator.migrationResults rep) t = Some result
                    /\ UserMigrator.migrated result = 0
                    /\ isUserIdColumn c' = true
                    /\ In {| ev_call :=
                               CountWhere t c' (UserMigrator.sourceUserId m);
                             ev_response :=
                               Number (UserMigrator.skipped result) |}
                          (trace s'))
     (init w)
  /\ wp (UserMigrator.run m analyzer)
        (fun res s' =>
           allCalls isReadOrLog (trace s') /\ obs (world s') = obs w)
        (init w).
Proof.
  intros inert dry. split.
  - pose proof (quiet_executeMigration_dry obs inert m dry analyzer (init w)) as Q.
    pose proof (executeMigration_simulated m dry analyzer (init w)) as S.
    pose proof (executeMigration_reported m analyzer w) as R.
    pose proof (keeps_executeMigration_dry obs inert w m dry analyzer (init w)
                  (faithful_init obs w)) as F.
    unfold wp in *. apply advances_init in Q. destruct Q as [Q1 Q2].
    split; [exact Q1 | split; [exact Q2 | split; [exact (proj2 F)|]]].
    intros rep E. destruct (S rep E) as [S1 S2].
    split; [exact S1 | split; [exact S2|]].
    intros t c n I Pos.
    destruct (JS.get (UserMigrator.migrationResults rep) t) as [result|] eqn:G;
      [|exfalso; exact (R rep E t c n I Pos G)].
    destruct (S2 t result (get_In _ _ _ G)) as [Z0 [c' [U I']]].
    exists result, c'. auto.
  - pose proof (quiet_run_dry m dry obs inert analyzer (init w)) as Q.
    unfold wp in *. apply advances_init in Q. exact Q.
Qed.

Lemma C7_simulate_mode_only_reads_witness :
  UserMigrator.dryRun Scenario.dryMigrator = true
  /\ let '(res, s') :=
       UserMigrator.executeMigration Scenario.dryMigrator Scenario.analyzer
         (init Scenario.toMigrate) in
     allCalls isRead (trace s')
     /\ MySQL.tables (world s') = MySQL.tables Scenario.toMigrate
     /\ countsOf MySQL.tables Scenario.toMigrate (trace s')
     /\ exists rep,
          res = Ok rep
          /\ UserMigrator.totalMigrated rep = 0
          /\ simulated 41 (trace s') (UserMigrator.migrationResults rep)
          /\ In {| ev_call := CountWhere "content" "user_id" 41;
                   ev_response := Number 3 |} (trace s')
          /\ MySQL.references (MySQL.tables Scenario.toMigrate)
               "content" "user_id" 41 = 3
          /\ exists result c',
               JS.get (UserMigrator.migrationResults rep) "content"
               = Some result
               /\ UserMigrator.migrated result = 0
               /\ isUserIdColumn c' = true
               /\ In {| ev_call := CountWhere "content" c' 41;
                        ev_response :=
                          Number (UserMigrator.skipped result) |}
                     (trace s').
Proof.
  split; [reflexivity|].
  pose proof (proj1 (C7_simulate_mode_only_reads MySQL.tables
                       Scenario.dryMigrator Scenario.analyzer
                       Scenario.toMigrate MySQL_tables_inert eq_refl)) as T.
  unfold wp in T.
  destruct (UserMigrator.executeMigration Scenario.dryMigrator
              Scenario.analyzer (init Scenario.toMigrate))
    as [res s'] eqn:R.
  vm_compute in R. injection R as <- <-. cbn [fst snd] in T.
  destruct T as [T1 [T2 [T4 T3]]].
  split; [exact T1|]. split; [exact T2|]. split; [exact T4|].
  eexists. split; [reflexivity|].
  destruct (T3 _ eq_refl) as [Z0 [S C]].
  split; [exact Z0|]. split; [exact S|].
  assert (I : In {| ev_call := CountWhere "content" "user_id" 41;
                    ev_response := Number 3 |}
                 (trace
                    (snd (UserMigrator.executeMigration Scenario.dryMigrator
                            Scenario.analyzer (init Scenario.toMigrate)))))
    by (vm_compute; tauto).
  split; [exact I|]. split; [reflexivity|].
  exact (C "content" "user_id" 3 I eq_refl).
Defined.

(** The simulated run of the scenario: three rows of [content] and one of
    [media] point to user 41, and are reported as skipped. *)
Example simulated_run_reports_counts :
  fst (UserMigrator.executeMigration Scenario.dryMigrator Scenario.analyzer
         (init Scenario.toMigrate))
  = Ok {| UserMigrator.r_sourceUserId := 41;
          UserMigrator.r_targetUserId := 358;
          UserMigrator.totalMigrated := 0;
          UserMigrator.migrationResults :=
            [("content", {| UserMigrator.migrated := 0;
                            UserMigrator.skipped := 3;
                            UserMigrator.existingRecords := None |});
             ("media", {| UserMigrator.migrated := 0;
                          UserMigrator.skipped := 1;
                          UserMigrator.existingRecords := None |})];
          UserMigrator.r_dryRun := true |}.
Proof. vm_compute. reflexivity. Qed.

(* ===================================================================== *)
(** * Execute mode: when the transaction is committed *)
(* ===================================================================== *)

Lemma wp_bind_quiet {W A B C : Type} `{Environment W}
    (P : call -> bool) (obs : W -> A) (m : M W B) (k : B -> M W C)
    (Q : outcome C -> state W -> Prop) s :
  quiet P obs m ->
  (forall b s1, advances P obs s s1 -> wp (k b) Q s1) ->
  (forall e s1, advances P obs s s1 -> Q (Threw e) s1) ->
  wp (bind m k) Q s.
Proof.
  intros Hm Hk He. apply wp_bind. eapply wp_mono; [apply Hm|].
  intros [b|e] s1 Adv; auto.
Qed.

Lemma isRead_keepsTransaction c : isRead c = true -> keepsTransaction c = true.
Proof. destruct c; simpl; congruence. Qed.

Lemma isCountOrUpdate_keepsTransaction c :
  isCountOrUpdate c = true -> keepsTransaction c = true.
Proof. destruct c; simpl; congruence. Qed.

Lemma keepsTransaction_notRollback c :
  keepsTransaction c = true -> notRollback c = true.
Proof. destruct c; simpl; congruence. Qed.

Section Execute.
Context {W : Type} `{Environment W}.
Variable m : UserMigrator.t.

Lemma quiet_migrateTable tableName userIdColumn :
  quiet isCountOrUpdate blind
        (UserMigrator.migrateTable m tableName userIdColumn).
Proof.
  unfold UserMigrator.migrateTable.
  apply quiet_try_catch; [|intros e; apply quiet_throw].
  apply quiet_bind; [apply quiet_poolCount; [apply inert_blind | reflexivity]|].
  intros recordCount. destruct (recordCount =? 0); [apply quiet_ret|].
  destruct (UserMigrator.dryRun m); [apply quiet_ret|].
  apply quiet_bind; [apply quiet_poolCount; [apply inert_blind | reflexivity]|].
  intros existing.
  apply quiet_bind; [apply quiet_perform; reflexivity|].
  intros affectedRows. apply quiet_ret.
Qed.

(** While the loop does not give up, it only counts and rewrites. *)
Lemma migrateEach_returns recordCounts entries acc s :
  wp (UserMigrator.migrateEach m recordCounts entries acc)
     (fun res s' =>
        forall acc', res = Ok acc' -> advances isCountOrUpdate blind s s')
     s.
Proof.
  revert acc s.
  induction entries as [|[tableName columns] rest IH]; intros acc s; simpl.
  - apply wp_ret. intros _ _. apply advances_refl.
  - destruct (find isUserIdColumn columns) as [userIdColumn|]; [|apply IH].
    destruct (UserMigrator.hasRecords recordCounts tableName); [|apply IH].
    apply wp_bind, wp_try_catch.
    eapply wp_bind_quiet; [apply quiet_migrateTable | |].
    + intros result s1 Adv. apply wp_ret. cbv beta iota.
      eapply wp_mono; [apply IH|]. intros r s2 R acc' E.
      eapply advances_trans; [exact Adv | exact (R acc' E)].
    + intros e s1 Adv. unfold connRollback.
      destruct (UserMigrator.dryRun m); wp_walk; discriminate.
Qed.

End Execute.

Lemma failures_app tr1 tr2 : failures (tr1 ++ tr2) = failures tr1 + failures tr2.
Proof.
  unfold failures. rewrite filter_app, length_app. apply Nat2Z.inj_add.
Qed.

Lemma failures_nonneg tr : 0 <= failures tr.
Proof. unfold failures. lia. Qed.

(** An Execute-mode [executeMigration] that returns has opened a
    transaction and has made no ROLLBACK; it has committed when
    [totalMigrated] is positive, and has made no COMMIT when it is
    zero. *)
Lemma executeMigration_commits
    {W : Type} `{Environment W}
    (m : UserMigrator.t) (analyzer : DatabaseAnalyzer.t) (w : W) :
  UserMigrator.dryRun m = false ->
  wp (UserMigrator.executeMigration m analyzer)
     (fun res s' =>
        forall rep, res = Ok rep ->
          In {| ev_call := BeginTransaction; ev_response := Done |} (trace s')
          /\ allCalls notRollback (trace s')
          /\ (0 < UserMigrator.totalMigrated rep ->
              In {| ev_call := Commit; ev_response := Done |} (trace s'))
          /\ (UserMigrator.totalMigrated rep <= 0 ->
              allCalls keepsTransaction (trace s')))
     (init w).
Proof.
  intros exe. unfold UserMigrator.executeMigration. rewrite exe.
  simpl negb. cbv iota.
  apply wp_finally, wp_try_catch.
  set (Q := fun (res : outcome UserMigrator.MigrationResult) (s' : state W) =>
        forall rep, res = Ok rep ->
          In {| ev_call := BeginTransaction; ev_response := Done |} (trace s')
          /\ allCalls notRollback (trace s')
          /\ (0 < UserMigrator.totalMigrated rep ->
              In {| ev_call := Commit; ev_response := Done |} (trace s'))
          /\ (UserMigrator.totalMigrated rep <= 0 ->
              allCalls keepsTransaction (trace s'))).
  assert (Hthrew : forall e (s1 : state W),
    wp (c <- connectionDefined ;;
        (if c && true
         then try_catch connRollback (fun _ => ret tt) else ret tt) ;;;
        throw e)
       (fun (r : outcome UserMigrator.MigrationResult) s2 =>
          wp (c <- connectionDefined ;; (if c then connRelease else ret tt))
             (fun rf s3 =>
                match rf with
                | Ok _ => Q r s3
                | Threw e' => Q (Threw e') s3
                end) s2) s1).
  { intros e s1. unfold connRollback, connRelease, Q. wp_walk; discriminate. }
  eapply wp_bind_quiet;
    [apply (quiet_validatePrerequisites blind inert_blind) | | intros; apply Hthrew].
  intros users s1 A1.
  eapply wp_bind_quiet;
    [apply (quiet_findTablesWithUserId blind inert_blind) | | intros; apply Hthrew].
  intros tableMap s2 A2.
  eapply wp_bind_quiet;
    [apply (quiet_countRecordsByTable blind inert_blind) | | intros; apply Hthrew].
  intros recordCounts s3 A3.
  assert (K3 : allCalls keepsTransaction (trace s3)).
  { apply (advances_weaken _ isRead) in A1; [|apply isSelectById_isRead].
    pose proof (advances_trans _ _ _ _ _ (advances_trans _ _ _ _ _ A1 A2) A3) as A.
    apply advances_init in A. destruct A as [A _].
    eapply allCalls_weaken; [apply isRead_keepsTransaction | exact A]. }
  clear A1 A2 A3.
  unfold poolGetConnection, connBeginTransaction.
  apply wp_bind, wp_bind, wp_perform; [intros [] w4 E4 | intros; apply Hthrew].
  wp_simpl. apply wp_assignConnection. wp_simpl.
  apply wp_bind, wp_perform; [intros [] w5 E5 | intros; apply Hthrew].
  wp_simpl. apply wp_bind.
  eapply wp_mono; [apply migrateEach_returns|].
  intros [[results total]|e] s6 R; cbv beta iota; [|apply Hthrew].
  destruct (R _ eq_refl) as [[tr [Etr Ftr]] _]. clear R.
  cbn [trace record] in Etr.
  assert (K6 : allCalls keepsTransaction (trace s6)).
  { rewrite Etr. apply allCalls_app.
    - repeat (apply allCalls_snoc; [reflexivity|]). exact K3.
    - eapply allCalls_weaken; [apply isCountOrUpdate_keepsTransaction | exact Ftr]. }
  assert (B6 : In {| ev_call := BeginTransaction; ev_response := Done |} (trace s6)).
  { rewrite Etr. apply in_or_app. left. apply in_or_app. right. left. reflexivity. }
  assert (N6 := allCalls_weaken _ _ _ keepsTransaction_notRollback K6).
  unfold connCommit, connRelease.
  destruct (0 <? total) eqn:T; simpl andb; cbv iota.
  - apply Z.ltb_lt in T.
    apply wp_bind, wp_perform; [intros [] w7 E7 | intros; apply Hthrew].
    wp_walk; try discriminate.
    all: intros rep [= <-]; cbn [trace record UserMigrator.totalMigrated].
    all: repeat split; try (intros; lia).
    all: try (repeat (apply in_or_app; left); exact B6).
    all: try (repeat (apply allCalls_snoc; [reflexivity|]); exact N6).
    all: intros _; in_trace.
  - apply Z.ltb_ge in T.
    wp_walk; try discriminate.
    all: intros rep [= <-]; cbn [trace record UserMigrator.totalMigrated].
    all: repeat split; try (intros; lia).
    all: try (repeat (apply in_or_app; left); exact B6).
    all: try (repeat (apply allCalls_snoc; [reflexivity|]); assumption).
    all: intros _; repeat (apply allCalls_snoc; [reflexivity|]); assumption.
Qed.

Lemma failures_In ev tr : In ev tr -> succeeded ev = false -> 0 < failures tr.
Proof.
  intros I F. apply in_split in I. destruct I as [l1 [l2 ->]].
  unfold failures. rewrite filter_app, length_app. cbn [filter].
  rewrite F. cbn [negb Datatypes.length]. lia.
Qed.

Lemma failures_snoc_failed tr c msg :
  0 < failures (tr ++ [{| ev_call := c; ev_response := Failed msg |}]).
Proof.
  apply (failures_In {| ev_call := c; ev_response := Failed msg |});
    [apply in_or_app; right; left; reflexivity | reflexivity].
Qed.

Lemma failures_more tr1 tr2 : 0 < failures tr1 -> 0 < failures (tr1 ++ tr2).
Proof.
  rewrite failures_app. pose proof (failures_nonneg tr2). lia.
Qed.

Lemma failures_zero_app tr1 tr2 : failures (tr1 ++ tr2) = 0 -> failures tr1 = 0.
Proof.
  rewrite failures_app. pose proof (failures_nonneg tr1).
  pose proof (failures_nonneg tr2). lia.
Qed.

(** An event that occurs once in a list splits it in one way only. *)
Lemma split_once {X : Type} (b : X) base rest pre post :
  ~ In b base -> ~ In b rest ->
  base ++ b :: rest = pre ++ b :: post -> post = rest.
Proof.
  revert pre. induction base as [|a base IH]; intros [|p pre] Nb Nr E;
    simpl in E.
  - injection E as E. symmetry. exact E.
  - injection E as <- E. exfalso. apply Nr. rewrite E. apply in_elt.
  - injection E as -> _. exfalso. apply Nb. left. reflexivity.
  - injection E as _ E. apply (IH pre); [|exact Nr | exact E].
    intros I. apply Nb. right. exact I.
Qed.

Lemma allCalls_notBegin_In tr r :
  allCalls notBegin tr ->
  ~ In {| ev_call := BeginTransaction; ev_response := r |} tr.
Proof.
  intros F I. apply (allCalls_In _ _ _ F) in I. discriminate I.
Qed.

Lemma isRead_notBegin c : isRead c = true -> notBegin c = true.
Proof. destruct c; simpl; congruence. Qed.

Lemma advances_allCalls {W A : Type} `{Environment W}
    (P : call -> bool) (obs : W -> A) (s s' : state W) :
  advances P obs s s' -> allCalls P (trace s) -> allCalls P (trace s').
Proof.
  intros [[tr [-> F]] _] F0. apply allCalls_app; assumption.
Qed.

Section Returns.
Context {W : Type} `{Environment W}.
Variable m : UserMigrator.t.

(** The loop of a migration begins no transaction, and when it gives up
    one of its calls has failed. *)
Lemma migrateEach_threw recordCounts entries acc (s : state W) :
  wp (UserMigrator.migrateEach m recordCounts entries acc)
     (fun res s' =>
        exists tr,
          trace s' = trace s ++ tr
          /\ allCalls notBegin tr
          /\ forall e, res = Threw e -> 0 < failures tr)
     s.
Proof.
  revert acc s.
  induction entries as [|[tableName columns] rest IH]; intros acc s.
  - apply wp_ret. exists []. rewrite app_nil_r.
    split; [reflexivity|]. split; [constructor | discriminate].
  - cbn [UserMigrator.migrateEach].
    destruct (find isUserIdColumn columns) as [userIdColumn|]; [|apply IH].
    destruct (UserMigrator.hasRecords recordCounts tableName); [|apply IH].
    assert (Step : forall acc1 tr1 (s1 : state W),
      trace s1 = trace s ++ tr1 ->
      allCalls notBegin tr1 ->
      wp (UserMigrator.migrateEach m recordCounts rest acc1)
         (fun res s' =>
            exists tr,
              trace s' = trace s ++ tr
              /\ allCalls notBegin tr
              /\ forall e, res = Threw e -> 0 < failures tr) s1).
    { intros acc1 tr1 s1 Etr1 N1. eapply wp_mono; [apply IH|].
      intros res s' [tr [Etr [N F]]]. exists (tr1 ++ tr).
      split; [rewrite Etr, Etr1, app_assoc; reflexivity|].
      split; [apply allCalls_app; assumption|].
      intros e E. rewrite failures_app.
      pose proof (failures_nonneg tr1). pose proof (F e E). lia. }
    unfold UserMigrator.migrateTable, poolCount, poolUpdate, connRollback.
    wp_walk;
      first
        [ eapply Step;
          [cbn [trace record]; rewrite <- ?app_assoc; reflexivity
          |repeat constructor]
        | eexists;
          (split; [cbn [trace record]; rewrite <- ?app_assoc; reflexivity|]);
          (split; [repeat constructor|]);
          intros _ _;
          match goal with
          | |- 0 < failures ?l =>
              match l with
              | context [{| ev_call := ?c; ev_response := Failed ?msg |}] =>
                  apply (failures_In
                           {| ev_call := c; ev_response := Failed msg |});
                  [simpl; tauto | reflexivity]
              end
          end ].
Qed.

(** An Execute-mode migration that has begun its transaction, and of
    which no call has failed from then on, returns. *)
Lemma executeMigration_returns (analyzer : DatabaseAnalyzer.t) (w : W) :
  UserMigrator.dryRun m = false ->
  wp (UserMigrator.executeMigration m analyzer)
     (fun res s' =>
        forall pre post,
          trace s'
          = pre ++ {| ev_call := BeginTransaction; ev_response := Done |}
                   :: post ->
          failures post = 0 ->
          exists rep, res = Ok rep)
     (init w).
Proof.
  intros exe. unfold UserMigrator.executeMigration. rewrite exe.
  simpl negb. cbv iota.
  apply wp_finally, wp_try_catch.
  set (B := {| ev_call := BeginTransaction; ev_response := Done |}).
  set (Q := fun (res : outcome UserMigrator.MigrationResult) (s' : state W) =>
        forall pre post,
          trace s' = pre ++ B :: post -> failures post = 0 ->
          exists rep, res = Ok rep).
  assert (Early : forall e (s1 : state W),
    ~ In B (trace s1) ->
    wp (c <- connectionDefined ;;
        (if c && true
         then try_catch connRollback (fun _ => ret tt) else ret tt) ;;;
        throw e)
       (fun (r : outcome UserMigrator.MigrationResult) s2 =>
          wp (c <- connectionDefined ;; (if c then connRelease else ret tt))
             (fun rf s3 =>
                match rf with
                | Ok _ => Q r s3
                | Threw e' => Q (Threw e') s3
                end) s2) s1).
  { intros e s1 N. unfold connRollback, connRelease, Q.
    wp_walk; intros pre post E _; exfalso; cbn [trace record] in E;
      apply N;
      assert (I : In B (pre ++ B :: post)) by apply in_elt;
      rewrite <- E in I;
      repeat (apply in_app_or in I; destruct I as [I|I];
              [|destruct I as [I|[]]; discriminate I]);
      exact I. }
  assert (Late : forall e (s1 : state W) base rest,
    trace s1 = base ++ B :: rest ->
    ~ In B base -> allCalls notBegin rest -> 0 < failures rest ->
    wp (c <- connectionDefined ;;
        (if c && true
         then try_catch connRollback (fun _ => ret tt) else ret tt) ;;;
        throw e)
       (fun (r : outcome UserMigrator.MigrationResult) s2 =>
          wp (c <- connectionDefined ;; (if c then connRelease else ret tt))
             (fun rf s3 =>
                match rf with
                | Ok _ => Q r s3
                | Threw e' => Q (Threw e') s3
                end) s2) s1).
  { intros e s1 base rest Etr Nb Nr F. unfold connRollback, connRelease, Q.
    wp_walk;
      (intros pre post E Z; exfalso; cbn [trace record] in E;
       rewrite Etr, <- ?app_assoc in E; cbn [app] in E;
       apply split_once in E;
       [ subst post; try apply failures_zero_app in Z; lia
       | exact Nb
       | apply allCalls_notBegin_In;
         repeat first [ exact Nr | apply allCalls_app | repeat constructor ] ]). }
  eapply wp_bind_quiet;
    [apply (quiet_validatePrerequisites blind inert_blind) | |].
  2: { intros e s1 A. apply Early.
       apply (advances_weaken _ isRead) in A; [|apply isSelectById_isRead].
       apply advances_init in A. destruct A as [A _].
       apply allCalls_notBegin_In.
       eapply allCalls_weaken; [apply isRead_notBegin | exact A]. }
  intros users s1 A1.
  apply (advances_weaken _ isRead) in A1; [|apply isSelectById_isRead].
  eapply wp_bind_quiet;
    [apply (quiet_findTablesWithUserId blind inert_blind) | |].
  2: { intros e s2 A2. apply Early.
       pose proof (advances_trans _ _ _ _ _ A1 A2) as A.
       apply advances_init in A. destruct A as [A _].
       apply allCalls_notBegin_In.
       eapply allCalls_weaken; [apply isRead_notBegin | exact A]. }
  intros tableMap s2 A2.
  eapply wp_bind_quiet;
    [apply (quiet_countRecordsByTable blind inert_blind) | |].
  2: { intros e s3 A3. apply Early.
       pose proof (advances_trans _ _ _ _ _
                     (advances_trans _ _ _ _ _ A1 A2) A3) as A.
       apply advances_init in A. destruct A as [A _].
       apply allCalls_notBegin_In.
       eapply allCalls_weaken; [apply isRead_notBegin | exact A]. }
  intros recordCounts s3 A3.
  assert (K3 : allCalls notBegin (trace s3)).
  { pose proof (advances_trans _ _ _ _ _ (advances_trans _ _ _ _ _ A1 A2) A3) as A.
    apply advances_init in A. destruct A as [A _].
    eapply allCalls_weaken; [apply isRead_notBegin | exact A]. }
  clear A1 A2 A3.
  unfold poolGetConnection, connBeginTransaction.
  apply wp_bind, wp_bind, wp_perform; [intros [] w4 E4 |].
  2: { intros msg w4 E4. apply Early. cbn [trace record]. intros I.
       apply in_app_or in I. destruct I as [I|[I|[]]]; [|discriminate I].
       exact (allCalls_notBegin_In _ _ K3 I). }
  wp_simpl. apply wp_assignConnection. wp_simpl.
  apply wp_bind, wp_perform; [intros [] w5 E5 |].
  2: { intros msg w5 E5. apply Early. cbn [trace record]. intros I.
       repeat (apply in_app_or in I; destruct I as [I|I];
               [|destruct I as [I|[]]; discriminate I]).
       exact (allCalls_notBegin_In _ _ K3 I). }
  wp_simpl. apply wp_bind.
  eapply wp_mono; [apply migrateEach_threw|].
  cbn [trace record].
  assert (Nb : ~ In B (trace s3 ++ [{| ev_call := GetConnection;
                                      ev_response := Done |}])).
  { intros I. apply in_app_or in I. destruct I as [I|[I|[]]]; [|discriminate I].
    exact (allCalls_notBegin_In _ _ K3 I). }
  intros [[results total]|e] s6 [trl [Etr [Nl F]]]; cbv beta iota.
  2: { eapply (Late e s6 _ trl);
         [rewrite Etr, <- app_assoc; reflexivity | exact Nb | exact Nl
         | exact (F e eq_refl)]. }
  unfold connCommit, connRelease.
  destruct (0 <? total) eqn:T; simpl andb; cbv iota.
  - apply wp_bind, wp_perform; [intros [] w7 E7 |].
    + wp_walk; intros pre post _ _; eexists; reflexivity.
    + intros msg w7 E7.
      eapply (Late _ _ (trace s3 ++ [{| ev_call := GetConnection;
                                      ev_response := Done |}])
                  (trl ++ [{| ev_call := Commit; ev_response := Failed msg |}]));
        [cbn [trace record]; rewrite Etr, <- !app_assoc; reflexivity
        | exact Nb
        | apply allCalls_snoc; [reflexivity | exact Nl]
        | apply failures_snoc_failed].
  - wp_walk; intros pre post _ _; eexists; reflexivity.
Qed.

End Returns.

(** C8, amended. An Execute-mode [executeMigration] that has opened its
    transaction, and of which no call has failed from then on (no count
    or rewrite of the loop, and not the COMMIT), returns without error,
    has made no ROLLBACK, and has committed that transaction when
    [totalMigrated] is positive; when [totalMigrated] is zero it has
    made no COMMIT: the connection is released with the transaction
    neither committed nor rolled back. Every run that returns without
    error is such a run: it has opened a transaction, has made no
    ROLLBACK, and has committed exactly when [totalMigrated] is
    positive. *)
Theorem C8_commit_exactly_when_rows_were_migrated
    {W : Type} `{Environment W}
    (m : UserMigrator.t) (analyzer : DatabaseAnalyzer.t) (w : W) :
  UserMigrator.dryRun m = false ->
  wp (UserMigrator.executeMigration m analyzer)
     (fun res s' =>
        (forall pre post,
           trace s'
           = pre ++ {| ev_call := BeginTransaction; ev_response := Done |}
                    :: post ->
           failures post = 0 ->
           exists rep,
             res = Ok rep
             /\ allCalls notRollback (trace s')
             /\ (0 < UserMigrator.totalMigrated rep ->
                 In {| ev_call := Commit; ev_response := Done |} (trace s'))
             /\ (UserMigrator.totalMigrated rep <= 0 ->
                 allCalls keepsTransaction (trace s')))
        /\ forall rep, res = Ok rep ->
             In {| ev_call := BeginTransaction; ev_response := Done |}
                (trace s')
             /\ allCalls notRollback (trace s')
             /\ (0 < UserMigrator.totalMigrated rep ->
                 In {| ev_call := Commit; ev_response := Done |} (trace s'))
             /\ (UserMigrator.totalMigrated rep <= 0 ->
                 allCalls keepsTransaction (trace s')))
     (init w).
Proof.
  intros exe.
  pose proof (executeMigration_returns m analyzer w exe) as R.
  pose proof (executeMigration_commits m analyzer w exe) as C.
  unfold wp in *. split; [|exact C].
  intros pre post E F. destruct (R pre post E F) as [rep Ok].
  exists rep. split; [exact Ok|]. apply (C rep Ok).
Qed.

Lemma C8_commit_exactly_when_rows_were_migrated_witness :
  UserMigrator.dryRun Scenario.migrator = false
  /\ let '(res, s') :=
       UserMigrator.executeMigration Scenario.migrator Scenario.analyzer
         (init Scenario.toMigrate) in
     exists pre post,
       trace s'
       = pre ++ {| ev_call := BeginTransaction; ev_response := Done |}
                :: post
       /\ failures post = 0
       /\ exists rep,
            res = Ok rep
            /\ UserMigrator.totalMigrated rep = 4
            /\ In {| ev_call := Commit; ev_response := Done |} (trace s').
Proof.
  split; [reflexivity|].
  pose proof (C8_commit_exactly_when_rows_were_migrated Scenario.migrator
                Scenario.analyzer Scenario.toMigrate eq_refl) as T.
  unfold wp in T.
  destruct (UserMigrator.executeMigration Scenario.migrator Scenario.analyzer
              (init Scenario.toMigrate)) as [res s'] eqn:R.
  vm_compute in R. injection R as <- <-. cbn [fst snd trace] in T.
  destruct T as [T _].
  match goal with
  | |- exists pre post, trace ?s = _ /\ _ =>
      set (pre := firstn 6 (trace s)); set (post := skipn 7 (trace s))
  end.
  exists pre, post.
  split; [reflexivity|]. split; [reflexivity|].
  destruct (T pre post eq_refl eq_refl) as [rep [E [_ [C _]]]].
  exists rep. split; [exact E|].
  injection E as <-. split; [reflexivity|]. apply C. reflexivity.
Defined.

(** The run of the witness migrates four rows and commits. *)
Example migration_commits :
  let '(res, s') :=
    UserMigrator.executeMigration Scenario.migrator Scenario.analyzer
      (init Scenario.toMigrate) in
  (exists rep, res = Ok rep /\ UserMigrator.totalMigrated rep = 4)
  /\ map ev_call (trace s')
     = [SelectById "users" 41 true; SelectById "users" 358 true;
        ListUserIdColumns;
        CountWhere "content" "user_id" 41; CountWhere "media" "user_id" 41;
        GetConnection; BeginTransaction;
        CountWhere "content" "user_id" 41; CountWhere "content" "user_id" 358;
        UpdateWhere "content" "user_id" 358 41;
        CountWhere "media" "user_id" 41; CountWhere "media" "user_id" 358;
        UpdateWhere "media" "user_id" 358 41;
        Commit; Release]
  /\ MySQL.references (MySQL.tables (world s')) "content" "user_id" 41 = 0
  /\ MySQL.references (MySQL.tables (world s')) "content" "user_id" 358 = 4
  /\ MySQL.references (MySQL.tables (world s')) "media" "user_id" 358 = 1.
Proof. vm_compute. split; [eexists; split; reflexivity|]. repeat split. Qed.

(** C8 as stated fails: in Execute mode, with no row left that points to
    user 41, every binding is passed over, the run returns without error
    with [totalMigrated] zero, and the transaction it opened is not
    committed. *)
Lemma C8_no_commit_when_nothing_was_migrated :
  UserMigrator.dryRun Scenario.migrator = false
  /\ exists rep s',
       UserMigrator.executeMigration Scenario.migrator Scenario.analyzer
         (init Scenario.alreadyMigrated) = (Ok rep, s')
       /\ UserMigrator.totalMigrated rep = 0
       /\ In {| ev_call := BeginTransaction; ev_response := Done |} (trace s')
       /\ Forall (fun e => succeeded e = true) (trace s')
       /\ forall e, In e (trace s') -> ev_call e <> Commit.
Proof.
  split; [reflexivity|]. eexists. eexists.
  split; [vm_compute; reflexivity|].
  split; [reflexivity|].
  split; [simpl; tauto|].
  split.
  - repeat constructor.
  - intros e I. simpl in I.
    repeat (destruct I as [<- | I]; [discriminate|]). destruct I.
Qed.

(* ===================================================================== *)
(** * What stops a migration before it starts *)
(* ===================================================================== *)




(** C5. The migrator does not reject identical identifiers, where the
    configuration test of the same repository does. With SOURCE_USER_ID
    and TARGET_USER_ID both 358, [testConfiguration] of test.js throws
    its "identifiers cannot be equal" error; the constructor of the
    migrator takes the two identifiers as they are, and
    [executeMigration] raises no error: it rewrites the four rows of
    [content] that point to user 358 "from 358 to 358" and commits. *)
Theorem C5_identical_identifiers_are_migrated :
  UserMigrator.new Scenario.sameIdsEnv = Scenario.sameIds
  /\ UserMigrator.sourceUserId Scenario.sameIds
     = UserMigrator.targetUserId Scenario.sameIds
  /\ MigrationTester.testConfiguration Scenario.sameIdsEnv
     = inl MigrationTester.IdenticalUserIds
  /\ exists rep s',
       UserMigrator.executeMigration Scenario.sameIds Scenario.sameIdsAnalyzer
         (init Scenario.alreadyMigrated) = (Ok rep, s')
       /\ UserMigrator.totalMigrated rep = 4
       /\ In {| ev_call := UpdateWhere "content" "user_id" 358 358;
                ev_response := Number 4 |} (trace s')
       /\ In {| ev_call := Commit; ev_response := Done |} (trace s').
Proof.
  split; [reflexivity|]. split; [reflexivity|]. split; [reflexivity|].
  eexists. eexists.
  split; [vm_compute; reflexivity|].
  split; [reflexivity|]. split; simpl; tauto.
Qed.

(* ===================================================================== *)
(** * Where the code departs from the specification *)
(* ===================================================================== *)

(** ROLLBACK on the held connection never changes the committed data:
    it only drops what was pending on that connection. *)
Lemma MySQL_rollback_keeps_committed_data (d : MySQL.db) :
  MySQL.tables (snd (MySQL.rollbackTransaction d)) = MySQL.tables d.
Proof. reflexivity. Qed.

(** C1. The code does not give the atomicity the claim states. The
    rewrites go through [this.pool.execute], each on a pooled connection
    in autocommit mode, and not through the connection on which the
    transaction was opened. Here the rewrite of [content] succeeds and
    the rewrite of [media] fails: the error reaches the caller as it
    was thrown and ROLLBACK is called, but the three rows of [content]
    stay rewritten: the counts of [content] are not the pre-run counts. *)
Theorem C1_failed_rewrite_keeps_earlier_rewrites :
  UserMigrator.dryRun Scenario.migrator = false
  /\ let '(res, s') :=
       UserMigrator.executeMigration Scenario.migrator Scenario.analyzer
         (init Scenario.secondRewriteFails) in
     res = Threw (QueryError "UPDATE command denied")
     /\ In {| ev_call := UpdateWhere "content" "user_id" 358 41;
              ev_response := Number 3 |} (trace s')
     /\ In {| ev_call := UpdateWhere "media" "user_id" 358 41;
              ev_response := Failed "UPDATE command denied" |} (trace s')
     /\ In {| ev_call := Rollback; ev_response := Done |} (trace s')
     /\ MySQL.references (MySQL.tables Scenario.secondRewriteFails)
          "content" "user_id" 41 = 3
     /\ MySQL.references (MySQL.tables (world s')) "content" "user_id" 41 = 0
     /\ MySQL.references (MySQL.tables Scenario.secondRewriteFails)
          "content" "user_id" 358 = 1
     /\ MySQL.references (MySQL.tables (world s')) "content" "user_id" 358 = 4
     /\ MySQL.references (MySQL.tables (world s')) "media" "user_id" 41 = 1.
Proof.
  split; [reflexivity|]. vm_compute.
  repeat split; tauto.
Qed.

(** C3. The safety check does not compute the aggregate the claim
    states when a count fails. Counting [content] fails while three of
    its rows still point to user 41: the entry recorded for [content] is
    -1, the aggregate is 0 and not the sum -1 of the recorded entries,
    and the removal is judged safe. The run then backs up and deletes
    user 41, and the three rows point to a user that is gone. *)
Theorem C3_failed_count_is_taken_as_zero :
  MySQL.references (MySQL.tables Scenario.countFails) "content" "user_id" 41 = 3
  /\ (let '(res, s') :=
        UserRemover.verifySafeToRemove Scenario.remover
          (init Scenario.countFails) in
      In {| ev_call := CountWhere "content" "user_id" 41;
            ev_response := Failed "SELECT command denied" |} (trace s')
      /\ exists sr,
           res = Ok sr
           /\ UserRemover.isSafe sr = true
           /\ UserRemover.totalReferences sr = 0
           /\ UserRemover.sumRemaining (UserRemover.safetyCheck sr) = -1
           /\ option_map UserRemover.remainingReferences
                (JS.get (UserRemover.safetyCheck sr) "content") = Some (-1))
  /\ (let '(res, s') :=
        UserRemover.run Scenario.remover (init Scenario.countFails) in
      (exists rr, res = Ok rr
                  /\ UserRemover.removed (UserRemover.removal rr) = true)
      /\ In {| ev_call := DeleteById "user" 41; ev_response := Number 1 |}
            (trace s')
      /\ MySQL.references (MySQL.tables (world s')) "user" "id" 41 = 0
      /\ MySQL.references (MySQL.tables (world s')) "content" "user_id" 41 = 3).
Proof.
  vm_compute. split; [reflexivity|]. split.
  - split; [tauto|]. eexists. repeat split.
  - split; [eexists; split; reflexivity|]. repeat split; tauto.
Qed.

(** C4. The code does not report the failure the claim states. The
    store answers the read after the delete with a count of one: the
    user is still there. [verifyRemoval] returns [success: false] and
    ROLLBACK is called, but [run] then goes on to save its log and
    returns its result: the caller gets no error. *)
Theorem C4_user_still_present_is_not_an_error :
  UserRemover.dryRun Scenario.remover = false
  /\ let '(res, s') := UserRemover.run Scenario.remover (init Scenario.staleRead) in
     (exists rr,
        res = Ok rr
        /\ UserRemover.removed (UserRemover.removal rr) = true
        /\ UserRemover.verification rr
           = {| UserRemover.success := false;
                UserRemover.userStillExists := true |})
     /\ map (fun e => (ev_call e, ev_response e)) (skipn 6 (trace s'))
        = [(DeleteById "user" 41, Number 1);
           (CountWhere "user" "id" 41, Number 1);
           (Rollback, Done);
           (WriteFile (RemovalLog 41 false), Done);
           (Release, Done);
           (PoolEnd, Done)].
Proof.
  split; [reflexivity|]. vm_compute.
  split; [eexists; repeat split | reflexivity].
Qed.

(** C2. The removal gate does not fail closed. Three rows of [content]
    still point to user 41 and counting them fails: the safety check
    takes the failed count as no reference (the defect shown for C3),
    no "not safe to remove" error is raised, and the Execute-mode run
    writes the backup, deletes the row of user 41 from [user] and
    returns. Afterwards the row is gone and the three references are
    still there. *)
Theorem C2_remaining_references_do_not_stop_the_removal :
  UserRemover.dryRun Scenario.remover = false
  /\ referencesTo (MySQL.tables Scenario.countFails)
       (UserRemover.migrationTables Scenario.remover) 41 = 3
  /\ MySQL.references (MySQL.tables Scenario.countFails) "user" "id" 41 = 1
  /\ (let '(res, s') :=
        UserRemover.run Scenario.remover (init Scenario.countFails) in
      (exists rr, res = Ok rr)
      /\ In {| ev_call :=
                 WriteFile (UserBackup 41 (Scenario.userRow 41 "ana")
                              (UserRemover.migrationTables Scenario.remover));
               ev_response := Done |} (trace s')
      /\ In {| ev_call := DeleteById "user" 41; ev_response := Number 1 |}
            (trace s')
      /\ MySQL.references (MySQL.tables (world s')) "user" "id" 41 = 0
      /\ referencesTo (MySQL.tables (world s'))
           (UserRemover.migrationTables Scenario.remover) 41 = 3).
Proof.
  vm_compute. split; [reflexivity|]. split; [reflexivity|].
  split; [reflexivity|]. split; [eexists; reflexivity|].
  repeat split; tauto.
Qed.

(** C10. The migrator falls back on its defaults; the analyzer, which
    decides what the run migrates, does not. With SOURCE_USER_ID set to
    "abc" the migrator and the remover take 41 (and the migrator 358 as
    target, as with the variable unset), but the analyzer keeps the
    string "abc" where the other constructors parse it. The run counts
    with that parameter, finds no row in any table, passes over all of
    them and returns with nothing migrated: the four rows that point to
    user 41 are not rewritten, where the run with the variable unset
    rewrites them. *)
Theorem C10_the_analyzer_does_not_fall_back :
  fallsBack (Scenario.abcEnv "SOURCE_USER_ID")
  /\ Scenario.abcMigrator = Scenario.migrator
  /\ UserMigrator.sourceUserId Scenario.abcMigrator = 41
  /\ UserMigrator.targetUserId Scenario.abcMigrator = 358
  /\ UserRemover.sourceUserId (UserRemover.new Scenario.abcEnv) = 41
  /\ DatabaseAnalyzer.sourceUserIdSetting Scenario.abcEnv = inl "abc"
  /\ DatabaseAnalyzer.sourceUserIdSetting Scenario.noEnv = inr 41
  /\ (let '(res, s') :=
        UserMigrator.executeMigration Scenario.abcMigrator Scenario.abcAnalyzer
          (init Scenario.toMigrate) in
      (exists rep, res = Ok rep
                   /\ UserMigrator.totalMigrated rep = 0
                   /\ UserMigrator.migrationResults rep = [])
      /\ map ev_call (trace s')
         = [SelectById "users" 41 true; SelectById "users" 358 true;
            ListUserIdColumns;
            CountWhere "content" "user_id" 0; CountWhere "media" "user_id" 0;
            GetConnection; BeginTransaction; Release]
      /\ MySQL.references (MySQL.tables (world s')) "content" "user_id" 41 = 3
      /\ MySQL.references (MySQL.tables (world s')) "media" "user_id" 41 = 1)
  /\ (let '(res, s') :=
        UserMigrator.executeMigration Scenario.migrator Scenario.analyzer
          (init Scenario.toMigrate) in
      (exists rep, res = Ok rep /\ UserMigrator.totalMigrated rep = 4)
      /\ MySQL.references (MySQL.tables (world s')) "content" "user_id" 41 = 0
      /\ MySQL.references (MySQL.tables (world s')) "media" "user_id" 41 = 0).
Proof.
  split; [right; left; reflexivity|].
  vm_compute.
  repeat (split; [reflexivity|]).
  split.
  - split; [eexists; repeat split|]. repeat split.
  - split; [eexists; repeat split|]. repeat split.
Qed.

(* ===================================================================== *)
(** * The aggregate of the safety check, in general *)
(* ===================================================================== *)

Lemma sumRemaining_set_fresh (o : JS.object UserRemover.SafetyEntry) k v :
  JS.get o k = None ->
  UserRemover.sumRemaining (JS.set o k v)
  = UserRemover.sumRemaining o + UserRemover.remainingReferences v.
Proof.
  induction o as [|[k0 v0] o IH]; simpl; intros G.
  - lia.
  - destruct (String.eqb k0 k); [discriminate|].
    simpl. rewrite (IH G). lia.
Qed.

Section Aggregate.
Context {W : Type} `{Environment W}.
Variable r : UserRemover.t.

(** Each count that succeeds adds the same number to the aggregate and
    to the recorded entries; each count that fails adds nothing to the
    aggregate and records -1. *)
Lemma checkEach_aggregate bindings acc s :
  NoDup (map table bindings) ->
  (forall b, In b bindings -> JS.get (fst acc) (table b) = None) ->
  wp (UserRemover.checkEach r bindings acc)
     (fun res s' =>
        exists acc' tr,
          res = Ok acc'
          /\ trace s' = trace s ++ tr
          /\ snd acc' - UserRemover.sumRemaining (fst acc') - failures tr
             = snd acc - UserRemover.sumRemaining (fst acc))
     s.
Proof.
  revert acc s.
  induction bindings as [|b rest IH]; intros acc s D Fresh; simpl.
  - apply wp_ret. exists acc, []. rewrite app_nil_r.
    repeat split. unfold failures. simpl. lia.
  - inversion D as [|? ? Nin D']; subst.
    assert (Fb : JS.get (fst acc) (table b) = None) by (apply Fresh; left; reflexivity).
    assert (Frest : forall v b', In b' rest ->
              JS.get (JS.set (fst acc) (table b) v) (table b') = None).
    { intros v b' I. rewrite get_set_other.
      - apply Fresh. right. exact I.
      - intros E. apply Nin. rewrite E. apply in_map. exact I. }
    unfold poolCount.
    apply wp_bind, wp_try_catch, wp_bind, wp_perform.
    + intros n w' E. apply wp_ret. cbv beta iota.
      eapply wp_mono; [apply IH; [exact D' | apply Frest]|].
      intros res s' [acc' [tr [-> [Etr Eq]]]].
      exists acc'. eexists. split; [reflexivity|].
      split; [rewrite Etr; cbn [trace record]; rewrite <- app_assoc; reflexivity|].
      rewrite failures_app. cbn [fst snd] in Eq.
      rewrite sumRemaining_set_fresh in Eq by exact Fb.
      match goal with
      | |- context [failures [?e]] => change (failures [e]) with 0
      end.
      cbn [UserRemover.remainingReferences] in Eq. lia.
    + intros msg w' E. apply wp_ret. cbv beta iota.
      eapply wp_mono; [apply IH; [exact D' | apply Frest]|].
      intros res s' [acc' [tr [-> [Etr Eq]]]].
      exists acc'. eexists. split; [reflexivity|].
      split; [rewrite Etr; cbn [trace record]; rewrite <- app_assoc; reflexivity|].
      rewrite failures_app. cbn [fst snd] in Eq.
      rewrite sumRemaining_set_fresh in Eq by exact Fb.
      match goal with
      | |- context [failures [?e]] => change (failures [e]) with 1
      end.
      cbn [UserRemover.remainingReferences] in Eq. lia.
Qed.

(** With distinct tables in the binding list, as in [MIGRATION_TABLES],
    the aggregate is the sum of the recorded entries plus the number of
    counts that failed: it is that sum exactly when no count failed. The
    check itself never throws, and judges the removal safe exactly when
    the aggregate is zero. *)
Lemma verifySafeToRemove_aggregate (w : W) :
  NoDup (map table (UserRemover.migrationTables r)) ->
  wp (UserRemover.verifySafeToRemove r)
     (fun res s' =>
        exists sr,
          res = Ok sr
          /\ UserRemover.totalReferences sr
             = UserRemover.sumRemaining (UserRemover.safetyCheck sr)
               + failures (trace s')
          /\ UserRemover.isSafe sr = (UserRemover.totalReferences sr =? 0))
     (init w).
Proof.
  intros D. unfold UserRemover.verifySafeToRemove.
  apply wp_rethrow, wp_bind.
  eapply wp_mono; [apply checkEach_aggregate; [exact D | reflexivity]|].
  intros res s' [[sc total] [tr [-> [Etr Eq]]]]. cbv beta iota.
  apply wp_ret. eexists. split; [reflexivity|]. simpl in *. subst tr.
  split; [lia | reflexivity].
Qed.

End Aggregate.

Example MIGRATION_TABLES_distinct : NoDup (map table MIGRATION_TABLES).
Proof.
  repeat constructor; simpl; intuition discriminate.
Qed.

(** The check of the migrator, [verifyMigration], treats a failed count
    differently: it gives up, and returns only when no call failed. Its
    aggregate is the [reduce] over the results it returns. *)
Lemma verifyMigration_returns_without_failure {W : Type} `{Environment W}
    (m : UserMigrator.t) (w : W) :
  wp (UserMigrator.verifyMigration m)
     (fun res s' => forall vr, res = Ok vr -> failures (trace s') = 0)
     (init w).
Proof.
  assert (Each : forall entries vr (s : state W),
            failures (trace s) = 0 ->
            wp (UserMigrator.verifyEach m entries vr)
               (fun res s' => forall vr', res = Ok vr' -> failures (trace s') = 0)
               s).
  { induction entries as [|[tableName columns] rest IH]; intros vr s F; simpl.
    - apply wp_ret. auto.
    - destruct (find isUserIdColumn columns) as [userIdColumn|]; [|apply IH, F].
      unfold poolCount.
      apply wp_bind, wp_perform; [intros n1 w1 E1 | discriminate].
      apply wp_bind, wp_perform; [intros n2 w2 E2 | discriminate].
      apply IH. cbn [trace record]. rewrite !failures_app, F. reflexivity. }
  unfold UserMigrator.verifyMigration, DatabaseAnalyzer.findTablesWithUserId,
    poolListUserIdColumns.
  apply wp_rethrow, wp_bind, wp_rethrow, wp_bind, wp_perform;
    [intros rows w1 E1 | discriminate].
  destruct (DatabaseAnalyzer.pushColumns rows []) as [e|tableMap];
    [apply wp_throw; discriminate|].
  apply wp_ret. cbv beta iota. apply Each. reflexivity.
Qed.

(* ===================================================================== *)
(** * The aggregate against the stored data *)
(* ===================================================================== *)

Lemma MySQL_countWhere_counts t c id (d d' : MySQL.db) n :
  MySQL.countWhere t c id d = (inr n, d') ->
  d' = d /\ n = MySQL.references (MySQL.tables d) t c id.
Proof.
  unfold MySQL.countWhere, MySQL.references.
  destruct (MySQL.findTable (MySQL.tables d) t) as [td|]; [|discriminate].
  destruct (negb (MySQL.can_select td)); [discriminate|].
  destruct (negb (MySQL.hasColumn td c)); [discriminate|].
  intros [= <- <-]. auto.
Qed.

Lemma MySQL_checkEach_counts (r : UserRemover.t) bindings acc
    (s : state MySQL.db) :
  wp (UserRemover.checkEach r bindings acc)
     (fun res s' =>
        exists acc' tr,
          res = Ok acc'
          /\ trace s' = trace s ++ tr
          /\ world s' = world s
          /\ (failures tr = 0 ->
              snd acc'
              = snd acc + referencesTo (MySQL.tables (world s)) bindings
                            (UserRemover.sourceUserId r)))
     s.
Proof.
  revert acc s. induction bindings as [|b rest IH]; intros acc s; simpl.
  - apply wp_ret. exists acc, []. rewrite app_nil_r. repeat split. lia.
  - unfold poolCount. apply wp_bind, wp_try_catch, wp_bind, wp_perform.
    + intros n w' E. apply MySQL_countWhere_counts in E. destruct E as [-> ->].
      apply wp_ret. cbv beta iota.
      eapply wp_mono; [apply IH|].
      intros res s' [acc' [tr [-> [Etr [Ew Eq]]]]].
      exists acc'. eexists. split; [reflexivity|].
      split; [rewrite Etr; cbn [trace record]; rewrite <- app_assoc; reflexivity|].
      split; [exact Ew|].
      rewrite failures_app.
      match goal with
      | |- context [failures [?e]] => change (failures [e]) with 0
      end.
      intros F. cbn [fst snd world record] in Eq. rewrite (Eq F). lia.
    + intros msg w' E. apply wp_ret. cbv beta iota.
      eapply wp_mono; [apply IH|].
      intros res s' [acc' [tr [-> [Etr [Ew Eq]]]]].
      exists acc'. eexists. split; [reflexivity|].
      split; [rewrite Etr; cbn [trace record]; rewrite <- app_assoc; reflexivity|].
      split.
      { rewrite Ew. cbn [world record].
        simpl in E. unfold MySQL.countWhere in E.
        destruct (MySQL.findTable (MySQL.tables (world s)) (table b)) as [td|];
          [|congruence].
        destruct (negb (MySQL.can_select td)); [congruence|].
        destruct (negb (MySQL.hasColumn td (column b))); congruence. }
      rewrite failures_app.
      match goal with
      | |- context [failures [?e]] => change (failures [e]) with 1
      end.
      pose proof (failures_nonneg tr). lia.
Qed.

(** On the in-memory store, when no count fails, the aggregate of the
    safety check is the real number of rows that still point to the
    source user, and the data is untouched. *)
Lemma MySQL_verifySafeToRemove_counts_references (r : UserRemover.t)
    (d : MySQL.db) :
  wp (UserRemover.verifySafeToRemove r)
     (fun res s' =>
        world s' = d
        /\ exists sr,
             res = Ok sr
             /\ (failures (trace s') = 0 ->
                 UserRemover.totalReferences sr
                 = referencesTo (MySQL.tables d) (UserRemover.migrationTables r)
                     (UserRemover.sourceUserId r)))
     (init d).
Proof.
  unfold UserRemover.verifySafeToRemove.
  apply wp_rethrow, wp_bind.
  eapply wp_mono; [apply MySQL_checkEach_counts|].
  intros res s' [[sc total] [tr [-> [Etr [Ew Eq]]]]]. cbv beta iota.
  apply wp_ret. split; [exact Ew|]. eexists. split; [reflexivity|].
  simpl in *. subst tr. intros F. rewrite (Eq F). lia.
Qed.

(* ===================================================================== *)
(** * The connection and transaction protocol *)
(* ===================================================================== *)

Lemma runs_app p tr1 tr2 :
  runs p (tr1 ++ tr2)
  = match runs p tr1 with
    | Some q => runs q tr2
    | None => None
    end.
Proof.
  revert p. induction tr1 as [|e tr1 IH]; intros p; simpl; [reflexivity|].
  destruct (step p e); [apply IH | reflexivity].
Qed.

Lemma follows_snoc q q' tr e :
  follows q tr -> step q e = Some q' -> follows q' (tr ++ [e]).
Proof.
  unfold follows. intros F S. rewrite runs_app, F. simpl. rewrite S. reflexivity.
Qed.

Lemma follows_stable (P : call -> bool) q tr tr' :
  (forall e, P (ev_call e) = true -> step q e = Some q) ->
  follows q tr -> allCalls P tr' -> follows q (tr ++ tr').
Proof.
  unfold follows. intros St F A. rewrite runs_app, F. clear F.
  induction A as [|e tr' Pe A IH]; simpl; [reflexivity|].
  rewrite (St e Pe). exact IH.
Qed.

Lemma follows_advances {W A : Type} (P : call -> bool) (obs : W -> A) q
    (s s' : state W) :
  (forall e, P (ev_call e) = true -> step q e = Some q) ->
  follows q (trace s) -> advances P obs s s' -> follows q (trace s').
Proof.
  intros St F [[tr [-> A']] _]. eapply follows_stable; eassumption.
Qed.

Lemma isQuery_stable q e :
  q <> Closed -> isQuery (ev_call e) = true -> step q e = Some q.
Proof.
  intros N. unfold step. destruct (ev_call e); simpl; try discriminate;
    destruct q; congruence.
Qed.

Lemma isCount_isQuery c : isCount c = true -> isQuery c = true.
Proof. destruct c; simpl; congruence. Qed.

Lemma isSelectById_isQuery c : isSelectById c = true -> isQuery c = true.
Proof. destruct c; simpl; congruence. Qed.

Lemma isCountOrUpdate_stable_Open e :
  isCountOrUpdate (ev_call e) = true -> step Open e = Some Open.
Proof. unfold step. destruct (ev_call e); simpl; congruence. Qed.

(** The trace of a run that was built call by call keeps to the
    protocol. *)
Ltac solve_follows :=
  first [ eassumption
        | eapply follows_snoc; [solve_follows | reflexivity] ].

Section Queries.
Context {W : Type} `{Environment W} {A : Type} (obs : W -> A).
Hypothesis inert : Inert obs.

Lemma quiet_findTablesWithUserId_queries :
  quiet isQuery obs DatabaseAnalyzer.findTablesWithUserId.
Proof.
  unfold DatabaseAnalyzer.findTablesWithUserId.
  quiet_step; [|quiet_step].
  apply quiet_bind;
    [apply quiet_poolListUserIdColumns; [exact inert | reflexivity]|].
  intros rows. destruct (DatabaseAnalyzer.pushColumns rows []); quiet_step.
Qed.

Lemma quiet_countRecordsByTable_queries a tableMap :
  quiet isQuery obs (DatabaseAnalyzer.countRecordsByTable a tableMap).
Proof.
  unfold DatabaseAnalyzer.countRecordsByTable.
  quiet_step; [|quiet_step].
  generalize (@nil (string * DatabaseAnalyzer.RecordCount)).
  induction (JS.entries tableMap) as [|[tableName columns] rest IH];
    intros rc; simpl.
  - quiet_step.
  - quiet_step; [|apply IH].
    quiet_step; [|quiet_step].
    destruct (find isUserIdColumn columns); [|quiet_step].
    quiet_step; [|quiet_step].
    apply quiet_poolCount; [exact inert | reflexivity].
Qed.

Lemma quiet_verifyMigration_queries m :
  quiet isQuery obs (UserMigrator.verifyMigration m).
Proof.
  unfold UserMigrator.verifyMigration.
  apply quiet_try_catch; [|intros e; apply quiet_throw].
  apply quiet_bind; [apply quiet_findTablesWithUserId_queries|].
  intros tableMap. generalize (@nil (string * UserMigrator.VerificationResult)).
  induction (JS.entries tableMap) as [|[tableName columns] rest IH];
    intros vr; simpl.
  - apply quiet_ret.
  - destruct (find isUserIdColumn columns) as [userIdColumn|]; [|apply IH].
    apply quiet_bind; [apply quiet_poolCount; [exact inert | reflexivity]|].
    intros sourceCount.
    apply quiet_bind; [apply quiet_poolCount; [exact inert | reflexivity]|].
    intros targetCount. apply IH.
Qed.

End Queries.

Section MigrationProtocol.
Context {W : Type} `{Environment W}.
Variable m : UserMigrator.t.

(** The loop of a simulated migration only counts: it stays where it is. *)
Lemma migrateEach_protocol_dry recordCounts entries acc q (s : state W) :
  UserMigrator.dryRun m = true -> q <> Closed ->
  follows q (trace s) ->
  wp (UserMigrator.migrateEach m recordCounts entries acc)
     (fun _ s' => follows q (trace s') /\ connection s' = connection s)
     s.
Proof.
  intros dry N F.
  eapply wp_mono;
    [apply (quiet_migrateEach_dry blind inert_blind m dry)|].
  intros r s' Adv. split.
  - eapply follows_advances; [|exact F|exact Adv].
    intros e Pe. apply isQuery_stable; [exact N | apply isCount_isQuery, Pe].
  - destruct Adv as [_ [_ C]]. apply C. reflexivity.
Qed.

(** The loop of an executed migration counts and rewrites inside the
    open transaction; when it gives up it has called ROLLBACK. *)
Lemma migrateEach_protocol recordCounts entries acc (s : state W) :
  UserMigrator.dryRun m = false ->
  follows Open (trace s) ->
  wp (UserMigrator.migrateEach m recordCounts entries acc)
     (fun res s' =>
        connection s' = connection s
        /\ match res with
           | Ok _ => follows Open (trace s')
           | Threw _ => follows Ended (trace s')
           end)
     s.
Proof.
  intros exe. revert acc s.
  induction entries as [|[tableName columns] rest IH]; intros acc s F; simpl.
  - apply wp_ret. auto.
  - destruct (find isUserIdColumn columns) as [userIdColumn|]; [|apply IH, F].
    destruct (UserMigrator.hasRecords recordCounts tableName); [|apply IH, F].
    rewrite exe. simpl negb. cbv iota.
    apply wp_bind, wp_try_catch.
    eapply wp_bind_quiet; [apply quiet_migrateTable | |].
    + intros result s1 Adv. apply wp_ret. cbv beta iota.
      assert (F1 : follows Open (trace s1)).
      { eapply follows_advances; [|exact F|exact Adv].
        intros e. apply isCountOrUpdate_stable_Open. }
      assert (C1 : connection s1 = connection s).
      { destruct Adv as [_ [_ C]]. apply C. reflexivity. }
      eapply wp_mono; [apply IH, F1|].
      intros r s2 [C2 R]. split; [congruence | exact R].
    + intros e s1 Adv.
      assert (F1 : follows Open (trace s1)).
      { eapply follows_advances; [|exact F|exact Adv].
        intros e'. apply isCountOrUpdate_stable_Open. }
      assert (C1 : connection s1 = connection s).
      { destruct Adv as [_ [_ C]]. apply C. reflexivity. }
      unfold connRollback. wp_walk; cbn [trace record connection];
        (split; [exact C1 | solve_follows]).
Qed.

Lemma executeMigration_protocol analyzer (w : W) :
  wp (UserMigrator.executeMigration m analyzer)
     (fun _ s' => follows Idle (trace s') \/ follows Returned (trace s'))
     (init w).
Proof.
  unfold UserMigrator.executeMigration.
  apply wp_finally, wp_try_catch.
  assert (Hidle : forall e (s1 : state W),
    advances isQuery blind (init w) s1 ->
    wp (c <- connectionDefined ;;
        (if c && negb (UserMigrator.dryRun m)
         then try_catch connRollback (fun _ => ret tt) else ret tt) ;;;
        throw e)
       (fun (r : outcome UserMigrator.MigrationResult) s2 =>
          wp (c <- connectionDefined ;; (if c then connRelease else ret tt))
             (fun rf s3 =>
                match rf with
                | Ok _ => follows Idle (trace s3) \/ follows Returned (trace s3)
                | Threw _ => follows Idle (trace s3) \/ follows Returned (trace s3)
                end) s2) s1).
  { intros e s1 Adv. pose proof Adv as [_ [_ C]].
    specialize (C eq_refl). simpl in C.
    apply advances_init in Adv. destruct Adv as [Q _].
    assert (F : follows Idle (trace s1)).
    { apply (follows_stable isQuery Idle [] (trace s1)); [|reflexivity|exact Q].
      intros e'. apply isQuery_stable. discriminate. }
    wp_walk. left. exact F. }
  eapply wp_bind_quiet;
    [eapply quiet_weaken;
       [apply isSelectById_isQuery
       |apply (quiet_validatePrerequisites blind inert_blind)]
    | | intros; apply Hidle; assumption].
  intros users s1 A1.
  eapply wp_bind_quiet;
    [apply (quiet_findTablesWithUserId_queries blind inert_blind)
    | | intros e s2 A2; apply Hidle; eapply advances_trans; eassumption].
  intros tableMap s2 A2.
  pose proof (advances_trans _ _ _ _ _ A1 A2) as A12.
  eapply wp_bind_quiet;
    [apply (quiet_countRecordsByTable_queries blind inert_blind)
    | | intros e s3 A3; apply Hidle; eapply advances_trans; eassumption].
  intros recordCounts s3 A3.
  pose proof (advances_trans _ _ _ _ _ A12 A3) as Adv. clear A1 A2 A3 A12 Hidle.
  pose proof Adv as [_ [_ C]]. specialize (C eq_refl). simpl in C.
  apply advances_init in Adv. destruct Adv as [Q _].
  assert (F : follows Idle (trace s3)).
  { apply (follows_stable isQuery Idle [] (trace s3)); [|reflexivity|exact Q].
    intros e'. apply isQuery_stable. discriminate. }
  unfold poolGetConnection, connBeginTransaction, connCommit, connRollback,
    connRelease.
  apply wp_bind, wp_bind, wp_perform;
    [intros [] w4 E4 | intros msg w4 E4; wp_walk; left; cbn [trace record];
                       solve_follows].
  wp_simpl. apply wp_assignConnection. wp_simpl.
  destruct (UserMigrator.dryRun m) eqn:dry; simpl negb; cbv iota.
  - apply wp_bind, wp_ret. wp_simpl. apply wp_bind.
    eapply wp_mono;
      [apply (migrateEach_protocol_dry _ _ _ Held); [exact dry | discriminate|];
       cbn [trace record]; solve_follows|].
    intros [[results total]|e] s6 [F6 C6]; cbn [connection] in C6.
    + wp_walk; right; cbn [trace record]; solve_follows.
    + wp_walk; right; cbn [trace record]; solve_follows.
  - apply wp_bind, wp_perform; [intros [] w5 E5 | intros msg w5 E5].
    + wp_simpl. apply wp_bind.
      eapply wp_mono;
        [apply migrateEach_protocol; [exact dry|];
         cbn [trace record]; solve_follows|].
      intros [[results total]|e] s6 [C6 F6]; cbn [connection record] in C6.
      * destruct (0 <? total); wp_walk; right; cbn [trace record];
          solve_follows.
      * wp_walk; right; cbn [trace record]; solve_follows.
    + wp_walk; right; cbn [trace record]; solve_follows.
Qed.

End MigrationProtocol.

(** X1. [executeMigration] keeps to the connection protocol on every
    path, errors included: it asks for a connection only after its
    reads, opens a transaction only on a held connection, rewrites only
    while that transaction is open, commits or rolls back only with the
    connection in hand, and gives the connection back exactly when it
    got one, as its last call. *)
Theorem X1_executeMigration_keeps_the_connection_protocol
    {W : Type} `{Environment W}
    (m : UserMigrator.t) (analyzer : DatabaseAnalyzer.t) (w : W) :
  wp (UserMigrator.executeMigration m analyzer)
     (fun _ s' => follows Idle (trace s') \/ follows Returned (trace s'))
     (init w).
Proof. apply executeMigration_protocol. Qed.

(** X2. [UserMigrator.run] ends every path by closing the pool, with no
    connection left in hand, having kept to the protocol; and on every
    path it has tried to write the migration log before that. *)
Theorem X2_migration_run_closes_the_pool_and_writes_its_log
    {W : Type} `{Environment W}
    (m : UserMigrator.t) (analyzer : DatabaseAnalyzer.t) (w : W) :
  wp (UserMigrator.run m analyzer)
     (fun _ s' =>
        follows Closed (trace s')
        /\ exists rsp,
             In {| ev_call := WriteFile (MigrationLog (UserMigrator.sourceUserId m)
                                           (UserMigrator.targetUserId m)
                                           (UserMigrator.dryRun m));
                   ev_response := rsp |} (trace s'))
     (init w).
Proof.
  unfold UserMigrator.run, UserMigrator.saveMigrationLog, writeFileSync, poolEnd.
  apply wp_finally, wp_try_catch, wp_bind.
  eapply wp_mono; [apply executeMigration_protocol|].
  intros r1 s1 F1.
  assert (F : exists q, follows q (trace s1) /\ (q = Idle \/ q = Returned)).
  { destruct F1; eauto. }
  clear F1. destruct F as [q [F Hq]].
  assert (Pool : step q {| ev_call := PoolEnd; ev_response := Done |} = Some Closed)
    by (destruct Hq; subst; reflexivity).
  assert (File : forall f rsp,
            step q {| ev_call := WriteFile f; ev_response := rsp |} = Some q)
    by (intros; destruct Hq; subst; reflexivity).
  destruct r1 as [migrationResult|e1]; cbv beta iota.
  - eapply wp_bind_quiet;
      [apply (quiet_verifyMigration_queries blind inert_blind) | |].
    + intros vr s2 Adv.
      assert (F2 : follows q (trace s2)).
      { eapply follows_advances; [|exact F|exact Adv].
        intros e'. apply isQuery_stable. destruct Hq; subst; discriminate. }
      wp_walk; cbn [trace record];
        (split;
         [repeat first [ exact F2
                       | eapply follows_snoc;
                         [| first [apply File | exact Pool]] ]
         | eexists; in_trace]).
    + intros e s2 Adv.
      assert (F2 : follows q (trace s2)).
      { eapply follows_advances; [|exact F|exact Adv].
        intros e'. apply isQuery_stable. destruct Hq; subst; discriminate. }
      wp_walk; cbn [trace record];
        (split;
         [repeat first [ exact F2
                       | eapply follows_snoc;
                         [| first [apply File | exact Pool]] ]
         | eexists; in_trace]).
  - wp_walk; cbn [trace record];
      (split;
       [repeat first [ exact F
                     | eapply follows_snoc;
                       [| first [apply File | exact Pool]] ]
       | eexists; in_trace]).
Qed.

(** X3. [UserRemover.run] keeps to the protocol on every path and ends
    by closing the pool: a delete comes only inside the transaction it
    opened, the connection is given back exactly when it was taken, and
    on every path the removal log write has been tried. *)
Theorem X3_removal_run_keeps_the_protocol
    {W : Type} `{Environment W} (r : UserRemover.t) (w : W) :
  wp (UserRemover.run r)
     (fun _ s' =>
        follows Closed (trace s')
        /\ exists rsp,
             In {| ev_call := WriteFile (RemovalLog (UserRemover.sourceUserId r)
                                           (UserRemover.dryRun r));
                   ev_response := rsp |} (trace s'))
     (init w).
Proof.
  pose proof (quiet_verifySafeToRemove blind inert_blind r (init w)) as Hq.
  unfold wp in Hq.
  unfold UserRemover.run.
  apply wp_finally, wp_try_catch, wp_bind.
  unfold wp at 1.
  destruct (UserRemover.verifySafeToRemove r (init w)) as [res1 s1].
  simpl in Hq. destruct Hq as [[tr [Etr Ftr]] [_ Hconn]].
  simpl in Etr, Hconn. specialize (Hconn eq_refl). subst tr.
  assert (F : follows Idle (trace s1)).
  { apply (follows_stable isCount Idle [] (trace s1)); [|reflexivity|exact Ftr].
    intros e' Pe. apply isQuery_stable; [discriminate | apply isCount_isQuery, Pe]. }
  cbn [fst snd].
  unfold UserRemover.createUserBackup, UserRemover.removeUserRecord,
    UserRemover.verifyRemoval, UserRemover.saveRemovalLog, poolSelectById,
    poolCount, poolDelete, writeFileSync, connBeginTransaction, connCommit,
    connRollback, connRelease, poolEnd, poolGetConnection.
  destruct (UserRemover.dryRun r);
    (destruct res1 as [sr|e1]; [destruct (UserRemover.isSafe sr)|]);
    wp_walk; cbn [trace record];
    (split; [solve_follows | eexists; in_trace]).
Qed.

(* ===================================================================== *)
(** * The rewrite of one table *)
(* ===================================================================== *)

(** X4. What [migrateTable] does and reports. When it returns, either it
    made the one count of the source identifier, migrated nothing and
    reports that count as skipped (a count of zero, or Simulate mode);
    or, in Execute mode with a nonzero count, it made exactly that
    count, a count of the target identifier and one UPDATE, and
    [migrated] is the number of affected rows that UPDATE returned, not
    the count. The only errors it throws are those of its queries. *)
Theorem X4_migrateTable_reports_the_affected_rows
    {W : Type} `{Environment W}
    (m : UserMigrator.t) (tableName userIdColumn : string) (s : state W) :
  wp (UserMigrator.migrateTable m tableName userIdColumn)
     (fun res s' =>
        (forall e, res = Threw e -> exists msg, e = QueryError msg)
        /\ forall result, res = Ok result ->
             (UserMigrator.existingRecords result = None
              /\ UserMigrator.migrated result = 0
              /\ (UserMigrator.skipped result = 0
                  \/ UserMigrator.dryRun m = true)
              /\ trace s'
                 = trace s
                   ++ [{| ev_call := CountWhere tableName userIdColumn
                                       (UserMigrator.sourceUserId m);
                          ev_response := Number (UserMigrator.skipped result) |}])
             \/ (exists n k,
                   n <> 0
                   /\ UserMigrator.dryRun m = false
                   /\ UserMigrator.existingRecords result = Some k
                   /\ UserMigrator.skipped result = 0
                   /\ trace s'
                      = trace s
                        ++ [{| ev_call := CountWhere tableName userIdColumn
                                            (UserMigrator.sourceUserId m);
                               ev_response := Number n |};
                            {| ev_call := CountWhere tableName userIdColumn
                                            (UserMigrator.targetUserId m);
                               ev_response := Number k |};
                            {| ev_call := UpdateWhere tableName userIdColumn
                                            (UserMigrator.targetUserId m)
                                            (UserMigrator.sourceUserId m);
                               ev_response :=
                                 Number (UserMigrator.migrated result) |}]))
     s.
Proof.
  unfold UserMigrator.migrateTable, poolCount, poolUpdate.
  wp_walk; cbn [trace record]; (split; [intros e [= <-]; eauto|]);
    try discriminate; intros result [= <-]; simpl;
    repeat match goal with
           | E : (_ =? 0) = true |- _ => apply Z.eqb_eq in E; subst
           | E : (_ =? 0) = false |- _ => apply Z.eqb_neq in E
           end;
    first [ left; solve [repeat split; auto]
          | right; eexists; eexists; rewrite <- !app_assoc; simpl;
            solve [repeat split; eauto] ].
Qed.

(* ===================================================================== *)
(** * The table map of the schema scan *)
(* ===================================================================== *)

(** X5. The rows of the catalogue give [findTablesWithUserId] its table
    map exactly when none of them names a table like a member of
    [Object.prototype] ([constructor], [toString], ...): the map then
    lists every table once, and under a table exactly the columns its
    rows give, in catalogue order, a table with no row not being in the
    map. When a row names such a table, [push] is not a function of
    what the map gives for it, and the TypeError is thrown. *)
Theorem X5_table_map_groups_the_columns_by_table
    (rows : list (string * string)) :
  match DatabaseAnalyzer.pushColumns rows [] with
  | inr tableMap =>
      (forall tableName c, In (tableName, c) rows ->
                           JS.inherited tableName = false)
      /\ NoDup (map fst tableMap)
      /\ forall tableName,
           JS.get tableMap tableName
           = match columnsOf rows tableName with
             | [] => None
             | columns => Some columns
             end
  | inl e =>
      exists tableName c,
        In (tableName, c) rows
        /\ JS.inherited tableName = true
        /\ e = NotAFunction tableName
  end.
Proof.
  pose proof (pushColumns_outcome rows []) as O.
  destruct (DatabaseAnalyzer.pushColumns rows []) as [e|tableMap] eqn:P;
    [exact O|].
  split; [|split].
  - intros t c I. apply (O t c I). reflexivity.
  - apply (pushColumns_keys _ _ _ P). constructor.
  - intros t. rewrite (pushColumns_get _ _ _ t P). reflexivity.
Qed.

Lemma findTablesWithUserId_keys {W : Type} `{Environment W} (s : state W) :
  wp DatabaseAnalyzer.findTablesWithUserId
     (fun res _ => forall tableMap, res = Ok tableMap -> NoDup (map fst tableMap))
     s.
Proof.
  unfold DatabaseAnalyzer.findTablesWithUserId, poolListUserIdColumns.
  apply wp_rethrow, wp_bind, wp_perform; [|discriminate].
  intros rows w' E.
  destruct (DatabaseAnalyzer.pushColumns rows []) as [e|tm] eqn:P;
    [apply wp_throw; discriminate|].
  apply wp_ret. intros tableMap [= <-].
  apply (pushColumns_keys _ _ _ P). constructor.
Qed.

(* ===================================================================== *)
(** * The totals of a migration *)
(* ===================================================================== *)

Lemma sumMigrated_set_fresh (o : JS.object UserMigrator.PerTableResult) k v :
  JS.get o k = None ->
  sumMigrated (JS.set o k v) = sumMigrated o + UserMigrator.migrated v.
Proof.
  induction o as [|[k0 v0] o IH]; simpl; intros G.
  - lia.
  - destruct (String.eqb k0 k); [discriminate|].
    simpl. rewrite (IH G). lia.
Qed.

Lemma migrateEach_total {W : Type} `{Environment W}
    (m : UserMigrator.t) recordCounts entries acc (s : state W) :
  NoDup (map fst entries) ->
  (forall t, In t (map fst entries) -> JS.get (fst acc) t = None) ->
  wp (UserMigrator.migrateEach m recordCounts entries acc)
     (fun res _ =>
        forall acc', res = Ok acc' ->
          snd acc' - sumMigrated (fst acc') = snd acc - sumMigrated (fst acc))
     s.
Proof.
  revert acc s.
  induction entries as [|[tableName columns] rest IH]; intros acc s D Fresh; simpl.
  - apply wp_ret. intros acc' [= <-]. reflexivity.
  - simpl in D. inversion D as [|? ? Nin D']; subst.
    assert (Frest : forall t, In t (map fst rest) -> JS.get (fst acc) t = None).
    { intros t I. apply Fresh. right. exact I. }
    destruct (find isUserIdColumn columns) as [userIdColumn|];
      [|apply IH; assumption].
    destruct (UserMigrator.hasRecords recordCounts tableName);
      [|apply IH; assumption].
    apply wp_bind, wp_try_catch, wp_bind. unfold wp at 1.
    destruct (UserMigrator.migrateTable m tableName userIdColumn s)
      as [[result|e] s1]; cbn [fst snd]; cbv beta iota.
    + apply wp_ret. cbv beta iota.
      eapply wp_mono; [apply IH; [exact D'|]|].
      * cbn [fst]. intros t I. rewrite get_set_other; [apply Frest, I|].
        intros <-. contradiction.
      * intros r s2 R acc' E. rewrite (R acc' E). cbn [fst snd].
        rewrite sumMigrated_set_fresh; [lia|].
        apply Fresh. left. reflexivity.
    + unfold connRollback. wp_walk; discriminate.
Qed.

Lemma executeMigration_total {W : Type} `{Environment W}
    (m : UserMigrator.t) (analyzer : DatabaseAnalyzer.t) (s : state W) :
  wp (UserMigrator.executeMigration m analyzer)
     (fun res _ =>
        forall rep, res = Ok rep ->
          UserMigrator.totalMigrated rep
          = sumMigrated (UserMigrator.migrationResults rep))
     s.
Proof.
  unfold UserMigrator.executeMigration.
  apply wp_finally, wp_try_catch.
  assert (Hthrew : forall e (s1 : state W),
    wp (c <- connectionDefined ;;
        (if c && negb (UserMigrator.dryRun m)
         then try_catch connRollback (fun _ => ret tt) else ret tt) ;;;
        throw e)
       (fun (r : outcome UserMigrator.MigrationResult) s2 =>
          wp (c <- connectionDefined ;; (if c then connRelease else ret tt))
             (fun rf _ =>
                match rf with
                | Ok _ =>
                    forall rep, r = Ok rep ->
                      UserMigrator.totalMigrated rep
                      = sumMigrated (UserMigrator.migrationResults rep)
                | Threw e' =>
                    forall rep, Threw e' = Ok rep ->
                      UserMigrator.totalMigrated rep
                      = sumMigrated (UserMigrator.migrationResults rep)
                end) s2) s1).
  { intros e s1. unfold connRollback, connRelease. wp_walk; discriminate. }
  apply wp_bind_any; [intros users s1 | exact Hthrew].
  apply wp_bind. eapply wp_mono; [apply findTablesWithUserId_keys|].
  intros [tableMap|e] s2 K; cbv beta iota; [|apply Hthrew].
  specialize (K tableMap eq_refl).
  do 3 (apply wp_bind_any; [intros ? ?|exact Hthrew]).
  apply wp_bind.
  eapply wp_mono;
    [apply migrateEach_total; [apply entries_keys, K | reflexivity]|].
  intros [[results total]|e] s6 R; cbv beta iota; [|apply Hthrew].
  specialize (R _ eq_refl). simpl in R.
  unfold connCommit, connRollback, connRelease.
  wp_walk; try discriminate; intros rep [= <-]; simpl; lia.
Qed.

(** X6. In the report that [executeMigration] returns, [totalMigrated]
    is the sum of [migrated] over the per-table results, in any mode
    and against any store. *)
Theorem X6_totalMigrated_is_the_sum_of_the_results
    {W : Type} `{Environment W}
    (m : UserMigrator.t) (analyzer : DatabaseAnalyzer.t) (s : state W) :
  wp (UserMigrator.executeMigration m analyzer)
     (fun res _ =>
        match res with
        | Ok rep =>
            UserMigrator.totalMigrated rep
            = sumMigrated (UserMigrator.migrationResults rep)
        | Threw _ => True
        end)
     s.
Proof.
  eapply wp_mono; [apply executeMigration_total|].
  intros [rep|e] s' R; [apply R; reflexivity | exact I].
Qed.

(* ===================================================================== *)
(** * Which rewrites a migration makes *)
(* ===================================================================== *)

Section Rewrites.
Context {W : Type} `{Environment W}.
Variable m : UserMigrator.t.

(** The loop rewrites only tables of its entries that the record counts
    give rows for, in the user-id column it finds, from the source user
    to the target user; it deletes nothing. *)
Lemma migrateEach_rewrites recordCounts entries acc (s : state W) :
  wp (UserMigrator.migrateEach m recordCounts entries acc)
     (fun _ s' =>
        exists tr,
          trace s' = trace s ++ tr
          /\ Forall
               (fun e =>
                  match ev_call e with
                  | UpdateWhere t col newId oldId =>
                      newId = UserMigrator.targetUserId m
                      /\ oldId = UserMigrator.sourceUserId m
                      /\ UserMigrator.hasRecords recordCounts t = true
                      /\ exists columns,
                           In (t, columns) entries
                           /\ find isUserIdColumn columns = Some col
                  | DeleteById _ _ => False
                  | _ => True
                  end) tr)
     s.
Proof.
  revert acc s.
  induction entries as [|[tableName columns] rest IH]; intros acc s.
  - apply wp_ret. exists []. rewrite app_nil_r. split; constructor.
  - assert (Hrest : forall acc (s : state W),
      wp (UserMigrator.migrateEach m recordCounts rest acc)
         (fun _ s' =>
            exists tr,
              trace s' = trace s ++ tr
              /\ Forall
                   (fun e =>
                      match ev_call e with
                      | UpdateWhere t col newId oldId =>
                          newId = UserMigrator.targetUserId m
                          /\ oldId = UserMigrator.sourceUserId m
                          /\ UserMigrator.hasRecords recordCounts t = true
                          /\ exists columns0,
                               In (t, columns0) ((tableName, columns) :: rest)
                               /\ find isUserIdColumn columns0 = Some col
                      | DeleteById _ _ => False
                      | _ => True
                      end) tr) s).
    { intros acc0 s0. eapply wp_mono; [apply IH|].
      intros r s' [tr [E F]]. exists tr. split; [exact E|].
      eapply Forall_impl; [|exact F].
      intros e. cbv beta. destruct (ev_call e); auto.
      intros [? [? [? [cs [I Fd]]]]]. repeat split; auto.
      exists cs. split; [right; exact I | exact Fd]. }
    clear IH. cbn [UserMigrator.migrateEach].
    destruct (find isUserIdColumn columns) as [userIdColumn|] eqn:Fd;
      [|apply Hrest].
    destruct (UserMigrator.hasRecords recordCounts tableName) eqn:HR;
      [|apply Hrest].
    assert (J : exists columns0,
               In (tableName, columns0) ((tableName, columns) :: rest)
               /\ find isUserIdColumn columns0 = Some userIdColumn).
    { exists columns. split; [left; reflexivity | exact Fd]. }
    unfold UserMigrator.migrateTable, poolCount, poolUpdate, connRollback.
    wp_walk;
      first
        [ eapply wp_mono; [apply Hrest|]; cbn [trace record];
          intros r s' [tr [E F]]; eexists;
          (split; [rewrite E, <- ?app_assoc; simpl; reflexivity|]);
          repeat (constructor; [simpl; auto|]); exact F
        | eexists;
          (split; [cbn [trace record]; rewrite <- ?app_assoc; simpl;
                   reflexivity|]);
          repeat (constructor; [simpl; auto|]); constructor ].
Qed.

(** Every entry of the record counts comes from a count on the user-id
    column found for a table of the map: it carries the number the count
    gave, or zero with the error when the count failed. *)
Lemma countEach_records (a : DatabaseAnalyzer.t) tableMap base entries
    recordCounts tr0 (s : state W) :
  incl entries tableMap ->
  trace s = base ++ tr0 ->
  allCalls isCount tr0 ->
  (forall t e, JS.get recordCounts t = Some e ->
     match DatabaseAnalyzer.error e with
     | None =>
         exists columns c,
           In (t, columns) tableMap
           /\ find isUserIdColumn columns = Some c
           /\ In {| ev_call := CountWhere t c (DatabaseAnalyzer.sourceUserId a);
                    ev_response := Number (DatabaseAnalyzer.count e) |} tr0
     | Some _ => DatabaseAnalyzer.count e = 0
     end) ->
  wp (DatabaseAnalyzer.countEach a entries recordCounts)
     (fun res s' =>
        exists recordCounts' tr,
          res = Ok recordCounts'
          /\ trace s' = base ++ tr
          /\ allCalls isCount tr
          /\ forall t e, JS.get recordCounts' t = Some e ->
               match DatabaseAnalyzer.error e with
               | None =>
                   exists columns c,
                     In (t, columns) tableMap
                     /\ find isUserIdColumn columns = Some c
                     /\ In {| ev_call :=
                                CountWhere t c (DatabaseAnalyzer.sourceUserId a);
                              ev_response := Number (DatabaseAnalyzer.count e) |}
                           tr
               | Some _ => DatabaseAnalyzer.count e = 0
               end)
     s.
Proof.
  revert recordCounts tr0 s.
  induction entries as [|[tableName columns] rest IH];
    intros rc tr0 s Incl Etr Q Inv; simpl.
  - apply wp_ret. exists rc, tr0. auto.
  - assert (Incl' : incl rest tableMap).
    { intros x I. apply Incl. right. exact I. }
    assert (Here : In (tableName, columns) tableMap).
    { apply Incl. left. reflexivity. }
    apply wp_bind, wp_try_catch.
    destruct (find isUserIdColumn columns) as [userIdColumn|] eqn:Fd.
    + unfold poolCount. apply wp_bind, wp_perform.
      * intros n w' E. apply wp_ret. cbv beta iota.
        apply (IH _ (tr0 ++ [{| ev_call :=
                                  CountWhere tableName userIdColumn
                                    (DatabaseAnalyzer.sourceUserId a);
                                ev_response := Number n |}])); [exact Incl'| | |].
        -- cbn [trace record]. rewrite Etr, app_assoc. reflexivity.
        -- apply allCalls_snoc; [reflexivity | exact Q].
        -- intros t e. rewrite get_set.
           destruct (String.eqb tableName t) eqn:Et.
           ++ apply String.eqb_eq in Et. subst t. intros [= <-]. simpl.
              exists columns, userIdColumn.
              repeat split; try assumption.
              apply in_or_app. right. left. reflexivity.
           ++ intros G. specialize (Inv t e G).
              destruct (DatabaseAnalyzer.error e); [exact Inv|].
              destruct Inv as [cs [c [I1 [I2 I3]]]].
              exists cs, c. repeat split; try assumption.
              apply in_or_app. left. exact I3.
      * intros msg w' E. apply wp_ret. cbv beta iota.
        apply (IH _ (tr0 ++ [{| ev_call :=
                                  CountWhere tableName userIdColumn
                                    (DatabaseAnalyzer.sourceUserId a);
                                ev_response := Failed msg |}])); [exact Incl'| | |].
        -- cbn [trace record]. rewrite Etr, app_assoc. reflexivity.
        -- apply allCalls_snoc; [reflexivity | exact Q].
        -- intros t e. rewrite get_set.
           destruct (String.eqb tableName t) eqn:Et.
           ++ intros [= <-]. reflexivity.
           ++ intros G. specialize (Inv t e G).
              destruct (DatabaseAnalyzer.error e); [exact Inv|].
              destruct Inv as [cs [c [I1 [I2 I3]]]].
              exists cs, c. repeat split; try assumption.
              apply in_or_app. left. exact I3.
    + apply wp_ret. cbv beta iota. apply (IH _ tr0); assumption.
Qed.

(** X7. [countRecordsByTable] of the schema-scan analyzer never throws
    and only counts. An entry it returns without an error carries the
    number that a count on the user-id column of that table gave; an
    entry with an error carries zero, so that the migration takes the
    table for one without rows. *)
Theorem X7_record_counts_come_from_counts_and_failures_count_as_zero
    (a : DatabaseAnalyzer.t) tableMap
    (s : state W) :
  wp (DatabaseAnalyzer.countRecordsByTable a tableMap)
     (fun res s' =>
        exists recordCounts tr,
          res = Ok recordCounts
          /\ trace s' = trace s ++ tr
          /\ allCalls isCount tr
          /\ forall t e, JS.get recordCounts t = Some e ->
               match DatabaseAnalyzer.error e with
               | None =>
                   exists columns c,
                     In (t, columns) tableMap
                     /\ find isUserIdColumn columns = Some c
                     /\ In {| ev_call :=
                                CountWhere t c (DatabaseAnalyzer.sourceUserId a);
                              ev_response := Number (DatabaseAnalyzer.count e) |}
                           tr
               | Some _ =>
                   DatabaseAnalyzer.count e = 0
                   /\ UserMigrator.hasRecords recordCounts t = false
               end)
     s.
Proof.
  unfold DatabaseAnalyzer.countRecordsByTable. apply wp_try_catch.
  eapply wp_mono;
    [apply (countEach_records a tableMap (trace s) (JS.entries tableMap) [] []);
     [intros x; apply entries_In | symmetry; apply app_nil_r | constructor
     | intros t e; discriminate]|].
  intros res s' [rc [tr [-> [Etr [Q Inv]]]]].
  exists rc, tr. repeat split; try assumption.
  intros t e G. specialize (Inv t e G).
  destruct (DatabaseAnalyzer.error e); [|exact Inv].
  split; [exact Inv|]. unfold UserMigrator.hasRecords. rewrite G, Inv.
  reflexivity.
Qed.

End Rewrites.

Lemma justified_incl m a ctx ctx' e :
  incl ctx ctx' -> justified m a ctx e -> justified m a ctx' e.
Proof.
  unfold justified. intros I. destruct (ev_call e); auto.
  intros [? [? [? [n [? In_n]]]]]. repeat split; auto.
  exists n. split; [assumption | apply I, In_n].
Qed.

Lemma justified_app_queries m a tr tr' :
  Forall (justified m a tr) tr -> allCalls isQuery tr' ->
  Forall (justified m a (tr ++ tr')) (tr ++ tr').
Proof.
  intros G Q. apply Forall_app. split.
  - eapply Forall_impl; [|exact G].
    intros e. apply justified_incl, incl_appl, incl_refl.
  - eapply Forall_impl; [|exact Q].
    intros e. cbv beta. unfold justified.
    destruct (ev_call e); simpl; auto; discriminate.
Qed.

Lemma justified_snoc m a tr e :
  Forall (justified m a tr) tr ->
  match ev_call e with
  | UpdateWhere _ _ _ _ | DeleteById _ _ => False
  | _ => True
  end ->
  Forall (justified m a (tr ++ [e])) (tr ++ [e]).
Proof.
  intros G N. apply Forall_app. split.
  - eapply Forall_impl; [|exact G].
    intros e'. apply justified_incl, incl_appl, incl_refl.
  - constructor; [|constructor]. unfold justified.
    destruct (ev_call e); auto; contradiction.
Qed.

Lemma justified_app_loop m a recordCounts entries ctx tr tr' :
  Forall (justified m a tr) tr ->
  NoDup (map fst entries) ->
  incl ctx tr ->
  (forall t e, JS.get recordCounts t = Some e ->
     match DatabaseAnalyzer.error e with
     | None =>
         exists columns c,
           In (t, columns) entries
           /\ find isUserIdColumn columns = Some c
           /\ In {| ev_call := CountWhere t c (DatabaseAnalyzer.sourceUserId a);
                    ev_response := Number (DatabaseAnalyzer.count e) |} ctx
     | Some _ =>
         DatabaseAnalyzer.count e = 0
     end) ->
  Forall
    (fun e =>
       match ev_call e with
       | UpdateWhere t col newId oldId =>
           newId = UserMigrator.targetUserId m
           /\ oldId = UserMigrator.sourceUserId m
           /\ UserMigrator.hasRecords recordCounts t = true
           /\ exists columns,
                In (t, columns) entries
                /\ find isUserIdColumn columns = Some col
       | DeleteById _ _ => False
       | _ => True
       end) tr' ->
  Forall (justified m a (tr ++ tr')) (tr ++ tr').
Proof.
  intros G D I Inv F. apply Forall_app. split.
  - eapply Forall_impl; [|exact G].
    intros e. apply justified_incl, incl_appl, incl_refl.
  - eapply Forall_impl; [|exact F].
    intros e. cbv beta. unfold justified. destruct (ev_call e); auto.
    intros [-> [-> [HR [columns [Ic Fd]]]]].
    repeat split; [apply (find_some _ _ Fd)|].
    unfold UserMigrator.hasRecords in HR.
    destruct (JS.get recordCounts tbl) as [rc|] eqn:Grc; [|discriminate].
    apply Z.ltb_lt in HR. specialize (Inv tbl rc Grc).
    destruct (DatabaseAnalyzer.error rc); [lia|].
    destruct Inv as [columns' [c [Ic' [Fd' In_c]]]].
    assert (columns' = columns) by (eapply NoDup_keys_In; eassumption).
    subst columns'. assert (c = col) by congruence. subst c.
    exists (DatabaseAnalyzer.count rc). split; [exact HR|].
    apply in_or_app. left. apply I, In_c.
Qed.

Ltac good :=
  cbn [trace record init];
  repeat first [ assumption
               | apply Forall_nil
               | apply justified_snoc; [|exact I] ].

Section JustifiedRewrites.
Context {W : Type} `{Environment W}.
Variable m : UserMigrator.t.
Variable analyzer : DatabaseAnalyzer.t.

(** X8. Whatever the store answers, every rewrite that
    [executeMigration] issues moves rows from the source user to the
    target user, in a column that is [user_id], [usuario_id] or ends
    with [_user_id], of a table for which the analyzer counted at least
    one row on that same column; and [executeMigration] never issues a
    DELETE. *)
Theorem X8_every_rewrite_follows_a_positive_count (w : W) :
  wp (UserMigrator.executeMigration m analyzer)
     (fun _ s' => Forall (justified m analyzer (trace s')) (trace s'))
     (init w).
Proof.
  unfold UserMigrator.executeMigration, UserMigrator.validatePrerequisites,
    DatabaseAnalyzer.findTablesWithUserId, DatabaseAnalyzer.countRecordsByTable,
    poolSelectById, poolListUserIdColumns, poolGetConnection,
    connBeginTransaction, connCommit, connRollback, connRelease.
  wp_walk; try solve [good].
  match goal with
  | P : DatabaseAnalyzer.pushColumns _ _ = inr ?tm
    |- wp (DatabaseAnalyzer.countEach _ _ _) _ ?s =>
      assert (D : NoDup (map fst (JS.entries tm)))
        by (apply entries_keys, (pushColumns_keys _ _ _ P); constructor);
      set (tableMap := JS.entries tm) in *; remember s as s3 eqn:Es3
  end.
  assert (G3 : Forall (justified m analyzer (trace s3)) (trace s3))
    by (subst s3; good).
  clearbody tableMap. clear Es3.
  eapply wp_mono;
    [apply (countEach_records analyzer tableMap (trace s3) _ [] []);
     [apply incl_refl | symmetry; apply app_nil_r | constructor
     | intros t e; discriminate]|].
  intros res s4 [recordCounts [trc [-> [Etr [Q Inv]]]]]. cbv beta iota.
  assert (G4 : Forall (justified m analyzer (trace s4)) (trace s4)).
  { rewrite Etr. apply justified_app_queries; [exact G3|].
    eapply Forall_impl; [|exact Q]. intros e. apply isCount_isQuery. }
  assert (I4 : incl trc (trace s4)).
  { rewrite Etr. apply incl_appr, incl_refl. }
  wp_walk; try solve [good].
  all: eapply wp_mono; [apply migrateEach_rewrites|];
    cbn [trace record]; intros res s6 [trl [Etl F]];
    assert (G6 : Forall (justified m analyzer (trace s6)) (trace s6))
      by (rewrite Etl;
          eapply justified_app_loop;
          [good | exact D | | exact Inv | exact F];
          repeat apply incl_appl; exact I4);
    destruct res as [[results total]|e]; wp_walk; good.
Qed.

End JustifiedRewrites.

(* ===================================================================== *)
(** * What the verification of a migration reports *)
(* ===================================================================== *)

Section Verification.
Context {W : Type} `{Environment W}.
Variable m : UserMigrator.t.

Lemma verifyEach_reports entries verificationResults base tr0 (s : state W) :
  trace s = base ++ tr0 ->
  allCalls isQuery tr0 ->
  failures tr0 = 0 ->
  (forall t v, JS.get verificationResults t = Some v ->
     exists c,
       isUserIdColumn c = true
       /\ In {| ev_call := CountWhere t c (UserMigrator.sourceUserId m);
                ev_response := Number (UserMigrator.sourceRemaining v) |} tr0
       /\ In {| ev_call := CountWhere t c (UserMigrator.targetUserId m);
                ev_response := Number (UserMigrator.targetTotal v) |} tr0) ->
  wp (UserMigrator.verifyEach m entries verificationResults)
     (fun res s' =>
        exists tr,
          trace s' = base ++ tr
          /\ allCalls isQuery tr
          /\ forall vr, res = Ok vr ->
               failures tr = 0
               /\ forall t v, JS.get vr t = Some v ->
                    exists c,
                      isUserIdColumn c = true
                      /\ In {| ev_call :=
                                 CountWhere t c (UserMigrator.sourceUserId m);
                               ev_response :=
                                 Number (UserMigrator.sourceRemaining v) |} tr
                      /\ In {| ev_call :=
                                 CountWhere t c (UserMigrator.targetUserId m);
                               ev_response :=
                                 Number (UserMigrator.targetTotal v) |} tr)
     s.
Proof.
  revert verificationResults tr0 s.
  induction entries as [|[tableName columns] rest IH];
    intros vr tr0 s Etr Q F Inv; simpl.
  - apply wp_ret. exists tr0. split; [exact Etr|]. split; [exact Q|].
    intros vr' [= <-]. split; assumption.
  - destruct (find isUserIdColumn columns) as [userIdColumn|] eqn:Fd;
      [|apply (IH _ tr0); assumption].
    unfold poolCount. apply wp_bind, wp_perform.
    + intros n1 w1 E1. apply wp_bind, wp_perform.
      * intros n2 w2 E2.
        apply (IH _ ((tr0 ++ [{| ev_call :=
                                   CountWhere tableName userIdColumn
                                     (UserMigrator.sourceUserId m);
                                 ev_response := Number n1 |}])
                       ++ [{| ev_call :=
                                CountWhere tableName userIdColumn
                                  (UserMigrator.targetUserId m);
                              ev_response := Number n2 |}])).
        -- cbn [trace record]. rewrite Etr, <- !app_assoc. reflexivity.
        -- repeat (apply allCalls_snoc; [reflexivity|]). exact Q.
        -- rewrite !failures_app, F. reflexivity.
        -- intros t v. rewrite get_set.
           destruct (String.eqb tableName t) eqn:Et.
           ++ apply String.eqb_eq in Et. subst t. intros [= <-]. simpl.
              exists userIdColumn. split; [apply (find_some _ _ Fd)|].
              split; in_trace.
           ++ intros G. destruct (Inv t v G) as [c [Ic [I1 I2]]].
              exists c. split; [exact Ic|].
              split; apply in_or_app; left; apply in_or_app; left; assumption.
      * intros msg w2 E2. eexists. cbn [trace record].
        split; [rewrite Etr, <- ?app_assoc; reflexivity|].
        split; [|discriminate].
        repeat first [ exact Q | apply allCalls_app | repeat constructor ].
    + intros msg w1 E1. eexists. cbn [trace record].
      split; [rewrite Etr, <- ?app_assoc; reflexivity|].
      split; [|discriminate].
      repeat first [ exact Q | apply allCalls_app | repeat constructor ].
Qed.

(** X9. [verifyMigration] only issues read queries. When it returns, no
    query has failed, and the entry it reports for a table carries the
    two numbers that the counts for the source user and for the target
    user gave on a user-id column of that table. *)
Theorem X9_verification_reports_the_counts_it_read (s : state W) :
  wp (UserMigrator.verifyMigration m)
     (fun res s' =>
        exists tr,
          trace s' = trace s ++ tr
          /\ allCalls isQuery tr
          /\ forall vr, res = Ok vr ->
               failures tr = 0
               /\ forall t v, JS.get vr t = Some v ->
                    exists c,
                      isUserIdColumn c = true
                      /\ In {| ev_call :=
                                 CountWhere t c (UserMigrator.sourceUserId m);
                               ev_response :=
                                 Number (UserMigrator.sourceRemaining v) |} tr
                      /\ In {| ev_call :=
                                 CountWhere t c (UserMigrator.targetUserId m);
                               ev_response :=
                                 Number (UserMigrator.targetTotal v) |} tr)
     s.
Proof.
  unfold UserMigrator.verifyMigration, DatabaseAnalyzer.findTablesWithUserId,
    poolListUserIdColumns.
  apply wp_rethrow, wp_bind, wp_rethrow, wp_bind, wp_perform.
  - intros rows w1 E1.
    destruct (DatabaseAnalyzer.pushColumns rows []) as [e|tableMap].
    + apply wp_throw. eexists. cbn [trace record].
      split; [reflexivity|]. split; [repeat constructor | discriminate].
    + apply wp_ret. cbv beta iota.
      eapply wp_mono;
        [apply (verifyEach_reports _ _ (trace s)
                  [{| ev_call := ListUserIdColumns;
                      ev_response := Names rows |}]);
         [reflexivity | repeat constructor | reflexivity
         | intros t v; discriminate]|].
      intros res s' R. exact R.
  - intros msg w1 E1. eexists. cbn [trace record].
    split; [reflexivity|]. split; [repeat constructor | discriminate].
Qed.

End Verification.

Lemma totalSourceRemaining_from (values : list UserMigrator.VerificationResult)
    (start : Z) :
  (forall v, In v values -> 0 <= UserMigrator.sourceRemaining v) ->
  start
  <= fold_left (fun sum result => sum + UserMigrator.sourceRemaining result)
               values start
  /\ (fold_left (fun sum result => sum + UserMigrator.sourceRemaining result)
                values start = start
      <-> forall v, In v values -> UserMigrator.sourceRemaining v = 0).
Proof.
  revert start. induction values as [|v values IH]; intros start N; simpl.
  - split; [lia|]. split; [contradiction | reflexivity].
  - assert (Nv : 0 <= UserMigrator.sourceRemaining v) by (apply N; left; reflexivity).
    destruct (IH (start + UserMigrator.sourceRemaining v)) as [L E].
    { intros v' I. apply N. right. exact I. }
    split; [lia|]. split.
    + intros T v' [<-|I]; [lia|]. apply E; [lia | exact I].
    + intros Z0. rewrite (Z0 v (or_introl eq_refl)) in *.
      rewrite Z.add_0_r in *. apply E. intros v' I. apply Z0. right. exact I.
Qed.

(** X10. The total that [verifyMigration] computes for its closing
    message is zero exactly when every table reports zero rows left for
    the source user, counts being non-negative. *)
Theorem X10_no_row_left_means_every_table_reports_zero
    (verificationResults : JS.object UserMigrator.VerificationResult) :
  (forall t v, In (t, v) verificationResults ->
               0 <= UserMigrator.sourceRemaining v) ->
  UserMigrator.totalSourceRemaining verificationResults = 0
  <-> forall t v, In (t, v) verificationResults ->
                  UserMigrator.sourceRemaining v = 0.
Proof.
  intros N. unfold UserMigrator.totalSourceRemaining.
  destruct (totalSourceRemaining_from
              (map snd (JS.entries verificationResults)) 0) as [_ E].
  { intros v I. apply in_map_iff in I. destruct I as [[t v'] [<- I]].
    apply (proj1 (entries_In _ _)) in I. apply (N t v' I). }
  rewrite E. split.
  - intros Z0 t v I. apply Z0. change v with (snd (t, v)).
    apply in_map, entries_In, I.
  - intros Z0 v I. apply in_map_iff in I. destruct I as [[t v'] [<- I]].
    apply (proj1 (entries_In _ _)) in I. apply (Z0 t v' I).
Qed.

Lemma X10_no_row_left_means_every_table_reports_zero_witness :
  UserMigrator.totalSourceRemaining
    [("content", {| UserMigrator.sourceRemaining := 0;
                    UserMigrator.targetTotal := 5 |});
     ("media", {| UserMigrator.sourceRemaining := 0;
                  UserMigrator.targetTotal := 2 |})] = 0
  <-> forall t v,
        In (t, v)
           [("content", {| UserMigrator.sourceRemaining := 0;
                           UserMigrator.targetTotal := 5 |});
            ("media", {| UserMigrator.sourceRemaining := 0;
                         UserMigrator.targetTotal := 2 |})] ->
        UserMigrator.sourceRemaining v = 0.
Proof.
  apply X10_no_row_left_means_every_table_reports_zero.
  intros t v [[= <- <-]|[[= <- <-]|[]]]; simpl; lia.
Defined.

(* ===================================================================== *)
(** * The outcomes of a removal *)
(* ===================================================================== *)

Lemma isCount_isReadOrFile c : isCount c = true -> isReadOrFile c = true.
Proof. destruct c; simpl; congruence. Qed.

Lemma isCount_notCommit c : isCount c = true -> notCommit c = true.
Proof. destruct c; simpl; congruence. Qed.

Lemma isCount_notRollback c : isCount c = true -> notRollback c = true.
Proof. destruct c; simpl; congruence. Qed.

Section SimulateRemoval.
Context {W : Type} `{Environment W} {A : Type} (obs : W -> A).
Hypothesis inert : Inert obs.
Variable r : UserRemover.t.
Hypothesis dry : UserRemover.dryRun r = true.

Lemma quiet_removal_dry : quiet isReadOrFile obs (UserRemover.run r).
Proof.
  unfold UserRemover.run, UserRemover.createUserBackup,
    UserRemover.removeUserRecord, UserRemover.verifyRemoval,
    UserRemover.saveRemovalLog.
  rewrite dry. cbn [negb andb].
  apply quiet_finally.
  - apply quiet_try_catch.
    + apply quiet_bind.
      { eapply quiet_weaken; [apply isCount_isReadOrFile|].
        apply quiet_verifySafeToRemove, inert. }
      intros safetyResult. apply quiet_bind.
      { destruct (negb (UserRemover.isSafe safetyResult)); quiet_step. }
      intros _. apply quiet_bind.
      { apply quiet_try_catch; [|intros e; apply quiet_throw].
        apply quiet_bind;
          [apply quiet_poolSelectById; [exact inert | reflexivity]|].
        intros [|user ?]; [apply quiet_throw|].
        apply quiet_bind;
          [apply quiet_writeFileSync; [exact inert | reflexivity]|].
        intros _. apply quiet_ret. }
      intros backupFile. apply quiet_bind;
        [apply quiet_poolGetConnection; [exact inert | reflexivity]|].
      intros _. apply quiet_bind; [apply quiet_ret|].
      intros _. apply quiet_bind.
      { apply quiet_try_catch; [apply quiet_ret | intros e; apply quiet_throw]. }
      intros removalResult. apply quiet_bind.
      { apply quiet_try_catch; [|intros e; apply quiet_throw].
        apply quiet_bind; [apply quiet_poolCount; [exact inert | reflexivity]|].
        intros count. destruct (0 <? count); apply quiet_ret. }
      intros verificationResult. apply quiet_bind.
      { apply quiet_ret. }
      intros _. apply quiet_bind.
      { apply quiet_bind;
          [apply quiet_writeFileSync; [exact inert | reflexivity]|].
        intros _. apply quiet_ret. }
      intros logFile. apply quiet_ret.
    + intros e. apply quiet_bind; [apply quiet_connectionDefined|].
      intros c. apply quiet_bind.
      { rewrite andb_false_r. apply quiet_ret. }
      intros _. apply quiet_bind.
      { apply quiet_bind;
          [apply quiet_writeFileSync; [exact inert | reflexivity]|].
        intros _. apply quiet_ret. }
      intros _. apply quiet_throw.
  - apply quiet_bind; [apply quiet_connectionDefined|].
    intros c. apply quiet_bind.
    { destruct c; [apply quiet_connRelease; [exact inert | reflexivity]
                  | apply quiet_ret]. }
    intros _. apply quiet_poolEnd; [exact inert | reflexivity].
Qed.

Lemma removal_dry_result (s : state W) :
  wp (UserRemover.run r)
     (fun res _ =>
        forall rr, res = Ok rr ->
          UserRemover.removal rr
          = {| UserRemover.removed := false;
               UserRemover.simulated := true;
               UserRemover.affectedRows := None |})
     s.
Proof.
  unfold UserRemover.run.
  apply wp_finally, wp_try_catch.
  assert (Hthrew : forall e (s1 : state W),
    wp (c <- connectionDefined ;;
        (if c && negb (UserRemover.dryRun r)
         then try_catch connRollback (fun _ => ret tt) else ret tt) ;;;
        UserRemover.saveRemovalLog r ;;;
        throw e)
       (fun (res : outcome UserRemover.RunResult) s2 =>
          wp (c <- connectionDefined ;;
              (if c then connRelease else ret tt) ;;;
              poolEnd)
             (fun rf _ =>
                match rf with
                | Ok _ =>
                    forall rr, res = Ok rr ->
                      UserRemover.removal rr
                      = {| UserRemover.removed := false;
                           UserRemover.simulated := true;
                           UserRemover.affectedRows := None |}
                | Threw e' =>
                    forall rr, Threw e' = Ok rr ->
                      UserRemover.removal rr
                      = {| UserRemover.removed := false;
                           UserRemover.simulated := true;
                           UserRemover.affectedRows := None |}
                end) s2) s1).
  { intros e s1.
    unfold UserRemover.saveRemovalLog, writeFileSync, connRollback,
      connRelease, poolEnd.
    wp_walk; discriminate. }
  do 5 (apply wp_bind_any; [intros ? ?|exact Hthrew]).
  unfold UserRemover.removeUserRecord. rewrite dry.
  apply wp_bind, wp_try_catch, wp_ret. cbv beta iota.
  unfold UserRemover.verifyRemoval, UserRemover.saveRemovalLog, poolCount,
    writeFileSync, connCommit, connRollback, connRelease, poolEnd.
  wp_walk; try discriminate; intros rr [= <-]; reflexivity.
Qed.

End SimulateRemoval.

(** X11. A removal in Simulate mode only reads, writes its two files
    and closes the pool: it issues no DELETE, no rewrite and no BEGIN,
    COMMIT or ROLLBACK, and the stored data is what it was before the
    run. When it returns, it reports the removal as simulated and not
    done. *)
Theorem X11_simulated_removal_changes_nothing
    {W A : Type} `{Environment W} (obs : W -> A)
    (r : UserRemover.t) (w : W) :
  Inert obs ->
  UserRemover.dryRun r = true ->
  wp (UserRemover.run r)
     (fun res s' =>
        allCalls isReadOrFile (trace s')
        /\ obs (world s') = obs w
        /\ forall rr, res = Ok rr ->
             UserRemover.removal rr
             = {| UserRemover.removed := false;
                  UserRemover.simulated := true;
                  UserRemover.affectedRows := None |})
     (init w).
Proof.
  intros inert dry.
  pose proof (quiet_removal_dry obs inert r dry (init w)) as Q.
  pose proof (removal_dry_result r dry (init w)) as R.
  unfold wp in *. apply advances_init in Q. destruct Q as [Q1 Q2]. auto.
Qed.

Lemma X11_simulated_removal_changes_nothing_witness :
  UserRemover.dryRun dryRemover = true
  /\ wp (UserRemover.run dryRemover)
        (fun res s' =>
           allCalls isReadOrFile (trace s')
           /\ MySQL.tables (world s') = MySQL.tables Scenario.readyToRemove
           /\ forall rr, res = Ok rr ->
                UserRemover.removal rr
                = {| UserRemover.removed := false;
                     UserRemover.simulated := true;
                     UserRemover.affectedRows := None |})
        (init Scenario.readyToRemove).
Proof.
  split; [reflexivity|].
  exact (X11_simulated_removal_changes_nothing MySQL.tables dryRemover
           Scenario.readyToRemove MySQL_tables_inert eq_refl).
Defined.

(** No DELETE that found no row is in a trace built call by call, when
    the deletes it holds found rows. *)
Ltac no_delete_of_nothing I Ftr :=
  repeat (apply in_app_or in I; destruct I as [I | I];
          [| simpl in I; destruct I as [I | []];
             first [ discriminate I | injection I as I; congruence ]]);
  apply (allCalls_In _ _ _ Ftr) in I; discriminate I.

Section ExecuteRemoval.
Context {W : Type} `{Environment W}.
Variable r : UserRemover.t.

(** What an executed removal has done when it returns, and what it has
    done when its DELETE found no row. *)
Lemma removal_outcomes (w : W) :
  wp (UserRemover.run r)
     (fun res s' =>
        (forall rr, res = Ok rr -> UserRemover.dryRun r = false ->
           UserRemover.isSafe (UserRemover.safety rr) = true
           /\ UserRemover.removed (UserRemover.removal rr) = true
           /\ (exists n,
                 n <> 0
                 /\ UserRemover.affectedRows (UserRemover.removal rr) = Some n
                 /\ In {| ev_call := DeleteById "user" (UserRemover.sourceUserId r);
                          ev_response := Number n |} (trace s'))
           /\ if UserRemover.success (UserRemover.verification rr)
              then In {| ev_call := Commit; ev_response := Done |} (trace s')
                   /\ allCalls notRollback (trace s')
              else In {| ev_call := Rollback; ev_response := Done |} (trace s')
                   /\ allCalls notCommit (trace s'))
        /\ (In {| ev_call := DeleteById "user" (UserRemover.sourceUserId r);
                  ev_response := Number 0 |} (trace s') ->
            (res = Threw (NoUserDeleted (UserRemover.sourceUserId r))
             \/ exists msg, res = Threw (IOError msg))
            /\ (exists rsp,
                  In {| ev_call := Rollback; ev_response := rsp |} (trace s'))
            /\ allCalls notCommit (trace s')))
     (init w).
Proof.
  pose proof (quiet_verifySafeToRemove blind inert_blind r (init w)) as Hq.
  unfold wp in Hq.
  unfold UserRemover.run.
  apply wp_finally, wp_try_catch, wp_bind.
  unfold wp at 1.
  destruct (UserRemover.verifySafeToRemove r (init w)) as [res1 s1].
  simpl in Hq. destruct Hq as [[tr [Etr Ftr]] [_ C]].
  simpl in Etr, C. specialize (C eq_refl). subst tr.
  assert (NC : allCalls notCommit (trace s1))
    by (eapply allCalls_weaken; [apply isCount_notCommit | exact Ftr]).
  assert (NR : allCalls notRollback (trace s1))
    by (eapply allCalls_weaken; [apply isCount_notRollback | exact Ftr]).
  cbn [fst snd].
  unfold UserRemover.createUserBackup, UserRemover.removeUserRecord,
    UserRemover.verifyRemoval, UserRemover.saveRemovalLog, poolSelectById,
    poolCount, poolDelete, writeFileSync, connBeginTransaction, connCommit,
    connRollback, connRelease, poolEnd, poolGetConnection.
  destruct (UserRemover.dryRun r) eqn:dry;
    (destruct res1 as [sr|e1]; [destruct (UserRemover.isSafe sr) eqn:safe|]);
    wp_walk; cbn [trace record];
    repeat match goal with
           | E : (_ =? 0) = true |- _ => apply Z.eqb_eq in E; subst
           | E : (_ =? 0) = false |- _ => apply Z.eqb_neq in E
           end;
    try solve [ match goal with
                | E : UserRemover.success _ = _ |- _ =>
                    cbn in E; discriminate E
                end ];
    (split;
     [ intros rr E dryF;
       first
         [ discriminate E
         | discriminate dryF
         | injection E as <-; simpl;
           (split; [exact safe|]); (split; [reflexivity|]);
           (split; [eexists; split; [eassumption|]; split;
                    [reflexivity | solve [in_trace]]|]);
           (split; [solve [in_trace] | solve_allCalls]) ]
     | intros I;
       first
         [ exfalso; no_delete_of_nothing I Ftr
         | (split; [first [ left; reflexivity | right; eexists; reflexivity ]|]);
           (split; [eexists; solve [in_trace] | solve_allCalls]) ] ]).
Qed.

End ExecuteRemoval.

(** X12. When a removal in Execute mode returns, the safety check had
    found the removal safe and the DELETE had removed at least one row
    of the user table. The transaction was committed, and never rolled
    back, when the closing check found the user gone; it was rolled
    back, and never committed, when the check still found the user:
    the run returns all the same. *)
Theorem X12_executed_removal_commits_only_a_verified_delete
    {W : Type} `{Environment W} (r : UserRemover.t) (w : W) :
  UserRemover.dryRun r = false ->
  wp (UserRemover.run r)
     (fun res s' =>
        forall rr, res = Ok rr ->
          UserRemover.isSafe (UserRemover.safety rr) = true
          /\ UserRemover.removed (UserRemover.removal rr) = true
          /\ (exists n,
                n <> 0
                /\ UserRemover.affectedRows (UserRemover.removal rr) = Some n
                /\ In {| ev_call := DeleteById "user" (UserRemover.sourceUserId r);
                         ev_response := Number n |} (trace s'))
          /\ if UserRemover.success (UserRemover.verification rr)
             then In {| ev_call := Commit; ev_response := Done |} (trace s')
                  /\ allCalls notRollback (trace s')
             else In {| ev_call := Rollback; ev_response := Done |} (trace s')
                  /\ allCalls notCommit (trace s'))
     (init w).
Proof.
  intros exe. eapply wp_mono; [apply removal_outcomes|].
  intros res s' [Returned _] rr E. apply Returned; assumption.
Qed.

Lemma X12_executed_removal_commits_only_a_verified_delete_witness :
  UserRemover.dryRun Scenario.remover = false
  /\ wp (UserRemover.run Scenario.remover)
        (fun res s' =>
           forall rr, res = Ok rr ->
             UserRemover.isSafe (UserRemover.safety rr) = true
             /\ UserRemover.removed (UserRemover.removal rr) = true
             /\ (exists n,
                   n <> 0
                   /\ UserRemover.affectedRows (UserRemover.removal rr) = Some n
                   /\ In {| ev_call :=
                              DeleteById "user"
                                (UserRemover.sourceUserId Scenario.remover);
                            ev_response := Number n |} (trace s'))
             /\ if UserRemover.success (UserRemover.verification rr)
                then In {| ev_call := Commit; ev_response := Done |} (trace s')
                     /\ allCalls notRollback (trace s')
                else In {| ev_call := Rollback; ev_response := Done |} (trace s')
                     /\ allCalls notCommit (trace s'))
        (init Scenario.readyToRemove).
Proof.
  split; [reflexivity|].
  apply (X12_executed_removal_commits_only_a_verified_delete
           Scenario.remover Scenario.readyToRemove).
  reflexivity.
Defined.



(* ===================================================================== *)
(** * The entries of the safety check *)
(* ===================================================================== *)

Lemma checkEach_keys {W : Type} `{Environment W}
    (r : UserRemover.t) bindings acc (s : state W) :
  NoDup (map table bindings) ->
  (forall b, In b bindings -> JS.get (fst acc) (table b) = None) ->
  wp (UserRemover.checkEach r bindings acc)
     (fun res _ =>
        forall acc', res = Ok acc' ->
          map fst (fst acc') = map fst (fst acc) ++ map table bindings)
     s.
Proof.
  revert acc s.
  induction bindings as [|b rest IH]; intros acc s D Fresh; simpl.
  - apply wp_ret. intros acc' [= <-]. rewrite app_nil_r. reflexivity.
  - inversion D as [|? ? Nin D']; subst.
    assert (Fb : JS.get (fst acc) (table b) = None)
      by (apply Fresh; left; reflexivity).
    assert (Frest : forall v b', In b' rest ->
              JS.get (JS.set (fst acc) (table b) v) (table b') = None).
    { intros v b' I. rewrite get_set_other.
      - apply Fresh. right. exact I.
      - intros E. apply Nin. rewrite E. apply in_map. exact I. }
    unfold poolCount.
    apply wp_bind, wp_try_catch, wp_bind, wp_perform.
    + intros n w' E. apply wp_ret. cbv beta iota.
      eapply wp_mono; [apply IH; [exact D' | apply Frest]|].
      intros res s' K acc' Eacc. rewrite (K acc' Eacc). cbn [fst].
      rewrite keys_set, Fb, <- app_assoc. reflexivity.
    + intros msg w' E. apply wp_ret. cbv beta iota.
      eapply wp_mono; [apply IH; [exact D' | apply Frest]|].
      intros res s' K acc' Eacc. rewrite (K acc' Eacc). cbn [fst].
      rewrite keys_set, Fb, <- app_assoc. reflexivity.
Qed.

(** X14. With distinct tables in the binding list, the safety check of
    the remover never throws and reports one entry per binding, in
    their order. Its total is the sum of the recorded entries plus the
    number of counts that failed, so it is that sum only when no count
    failed; the removal is judged safe exactly when the total is
    zero. *)
Theorem X14_safety_check_reports_every_binding
    {W : Type} `{Environment W} (r : UserRemover.t) (w : W) :
  NoDup (map table (UserRemover.migrationTables r)) ->
  wp (UserRemover.verifySafeToRemove r)
     (fun res s' =>
        exists sr,
          res = Ok sr
          /\ map fst (UserRemover.safetyCheck sr)
             = map table (UserRemover.migrationTables r)
          /\ UserRemover.totalReferences sr
             = UserRemover.sumRemaining (UserRemover.safetyCheck sr)
               + failures (trace s')
          /\ UserRemover.isSafe sr = (UserRemover.totalReferences sr =? 0))
     (init w).
Proof.
  intros D.
  pose proof (verifySafeToRemove_aggregate r w D) as Agg.
  assert (Keys : wp (UserRemover.verifySafeToRemove r)
                    (fun res _ =>
                       forall sr, res = Ok sr ->
                         map fst (UserRemover.safetyCheck sr)
                         = map table (UserRemover.migrationTables r))
                    (init w)).
  { unfold UserRemover.verifySafeToRemove. apply wp_rethrow, wp_bind.
    eapply wp_mono; [apply checkEach_keys; [exact D | reflexivity]|].
    intros [[sc total]|e] s' K; cbv beta iota; [apply wp_ret|discriminate].
    intros sr [= <-]. exact (K _ eq_refl). }
  unfold wp in *. destruct Agg as [sr [E [Total Safe]]].
  exists sr. repeat split; try assumption. apply Keys, E.
Qed.

Lemma X14_safety_check_reports_every_binding_witness :
  NoDup (map table (UserRemover.migrationTables Scenario.remover))
  /\ wp (UserRemover.verifySafeToRemove Scenario.remover)
        (fun res s' =>
           exists sr,
             res = Ok sr
             /\ map fst (UserRemover.safetyCheck sr)
                = map table (UserRemover.migrationTables Scenario.remover)
             /\ UserRemover.totalReferences sr
                = UserRemover.sumRemaining (UserRemover.safetyCheck sr)
                  + failures (trace s')
             /\ UserRemover.isSafe sr = (UserRemover.totalReferences sr =? 0))
        (init Scenario.countFails).
Proof.
  assert (D : NoDup (map table (UserRemover.migrationTables Scenario.remover))).
  { repeat constructor; simpl; intuition discriminate. }
  split; [exact D|].
  exact (X14_safety_check_reports_every_binding Scenario.remover
           Scenario.countFails D).
Defined.

(* ===================================================================== *)
(** * config/tables.js: the lookups *)
(* ===================================================================== *)

(** X16. The two lookups of [config/tables.js] agree: a table is
    included exactly when a column is found for it; the column found is
    the one of a configured binding for that table; and every
    configured binding's table is included. *)
Theorem X16_table_lookups_agree (tableName : string) :
  (isTableIncluded tableName = true
   <-> exists c, getUserColumnForTable tableName = Some c)
  /\ (forall c, getUserColumnForTable tableName = Some c ->
        In {| table := tableName; column := c |} getMigrationTables)
  /\ (forall b, In b getMigrationTables ->
        isTableIncluded (table b) = true).
Proof.
  unfold isTableIncluded, getUserColumnForTable, getMigrationTables.
  generalize MIGRATION_TABLES. intros bindings. repeat split.
  - intros I. apply existsb_exists in I. destruct I as [b [Ib Eb]].
    destruct (find (fun t => String.eqb (table t) tableName) bindings)
      as [b'|] eqn:Fd; [eexists; reflexivity|].
    rewrite (find_none _ _ Fd b Ib) in Eb. discriminate.
  - intros [c Ec].
    destruct (find (fun t => String.eqb (table t) tableName) bindings)
      as [b'|] eqn:Fd; [|discriminate].
    apply find_some in Fd. apply existsb_exists. exists b'. exact Fd.
  - intros c Ec.
    destruct (find (fun t => String.eqb (table t) tableName) bindings)
      as [[t' c']|] eqn:Fd; [|discriminate].
    apply find_some in Fd. destruct Fd as [Ib Eb]. simpl in *.
    apply String.eqb_eq in Eb. injection Ec as <-. subst t'. exact Ib.
  - intros b Ib. apply existsb_exists. exists b.
    split; [exact Ib | apply String.eqb_refl].
Qed.

(* ===================================================================== *)
(** * The validation of the configured bindings *)
(* ===================================================================== *)

Section Validation.
Context {W : Type} `{Catalogue W}.
Variable pool : W.

Lemma validateTablesEach_other bindings results t :
  ~ In t (map table bindings) ->
  JS.get (Tables.validateTablesEach pool bindings results) t
  = JS.get results t.
Proof.
  revert results. induction bindings as [|b rest IH]; intros results N; simpl.
  - reflexivity.
  - rewrite IH by (intros I; apply N; right; exact I).
    apply get_set_other. intros E. apply N. left. exact E.
Qed.

Lemma validateTablesEach_get bindings results b :
  NoDup (map table bindings) -> In b bindings ->
  option_map Tables.exists_
    (JS.get (Tables.validateTablesEach pool bindings results) (table b))
  = Some match count_tables pool (table b) with
         | inr n => 0 <? n
         | inl _ => false
         end.
Proof.
  revert results. induction bindings as [|b0 rest IH]; intros results D I;
    simpl in *; [contradiction|].
  inversion D as [|? ? Nin D']; subst.
  destruct I as [->|I].
  - rewrite validateTablesEach_other by exact Nin.
    rewrite get_set_same.
    destruct (count_tables pool (table b)); reflexivity.
  - apply IH; assumption.
Qed.

Lemma validateColumnsEach_other bindings results t :
  ~ In t (map table bindings) ->
  JS.get (Tables.validateColumnsEach pool bindings results) t
  = JS.get results t.
Proof.
  revert results. induction bindings as [|b rest IH]; intros results N; simpl.
  - reflexivity.
  - rewrite IH by (intros I; apply N; right; exact I).
    apply get_set_other. intros E. apply N. left. exact E.
Qed.

Lemma validateColumnsEach_get bindings results b :
  NoDup (map table bindings) -> In b bindings ->
  option_map Tables.columnExists
    (JS.get (Tables.validateColumnsEach pool bindings results) (table b))
  = Some match count_columns pool (table b) (column b) with
         | inr n => 0 <? n
         | inl _ => false
         end.
Proof.
  revert results. induction bindings as [|b0 rest IH]; intros results D I;
    simpl in *; [contradiction|].
  inversion D as [|? ? Nin D']; subst.
  destruct I as [->|I].
  - rewrite validateColumnsEach_other by exact Nin.
    rewrite get_set_same.
    destruct (count_columns pool (table b) (column b)); reflexivity.
  - apply IH; assumption.
Qed.

Lemma validateEach_allValid tableValidation columnValidation bindings acc :
  snd (ConfiguredAnalyzer.validateEach tableValidation columnValidation
         bindings acc)
  = snd acc
    && forallb
         (fun b =>
            match JS.get tableValidation (table b) with
            | Some c => Tables.exists_ c
            | None => false
            end
            && match JS.get columnValidation (table b) with
               | Some c => Tables.columnExists c
               | None => false
               end)
         bindings.
Proof.
  revert acc. induction bindings as [|b rest IH]; intros acc; simpl.
  - rewrite andb_true_r. reflexivity.
  - rewrite IH. cbn [snd].
    destruct (match JS.get tableValidation (table b) with
              | Some c => Tables.exists_ c
              | None => false
              end);
      destruct (match JS.get columnValidation (table b) with
                | Some c => Tables.columnExists c
                | None => false
                end);
      simpl; try reflexivity; rewrite ?andb_false_r; reflexivity.
Qed.

(** X17. With distinct tables in the binding list,
    [validateMigrationTables] returns exactly when, for every binding,
    the catalogue query for the table and the one for the column both
    succeed with a positive count; otherwise it throws its "tables or
    columns not found" error. A catalogue query that fails counts as a
    table or a column that does not exist. *)
Theorem X17_validation_passes_exactly_when_every_binding_exists
    (bindings : list Binding) :
  NoDup (map table bindings) ->
  (exists validationResults,
     ConfiguredAnalyzer.validateMigrationTablesFor pool bindings
     = inr validationResults)
  <-> forall b, In b bindings ->
        (exists n, count_tables pool (table b) = inr n /\ 0 < n)
        /\ (exists n,
              count_columns pool (table b) (column b) = inr n /\ 0 < n).
Proof.
  intros D. unfold ConfiguredAnalyzer.validateMigrationTablesFor.
  pose proof (validateEach_allValid
                (Tables.validateTablesExistFor pool bindings)
                (Tables.validateColumnsExistFor pool bindings)
                bindings ([], true)) as V.
  destruct (ConfiguredAnalyzer.validateEach
              (Tables.validateTablesExistFor pool bindings)
              (Tables.validateColumnsExistFor pool bindings)
              bindings ([], true)) as [validationResults allValid].
  cbn [snd andb] in V.
  assert (Each : forall b, In b bindings ->
            (match JS.get (Tables.validateTablesExistFor pool bindings) (table b) with
             | Some c => Tables.exists_ c
             | None => false
             end
             && match JS.get (Tables.validateColumnsExistFor pool bindings) (table b) with
                | Some c => Tables.columnExists c
                | None => false
                end = true)
            <-> (exists n, count_tables pool (table b) = inr n /\ 0 < n)
                /\ (exists n,
                      count_columns pool (table b) (column b) = inr n
                      /\ 0 < n)).
  { intros b I.
    pose proof (validateTablesEach_get bindings [] b D I) as T.
    pose proof (validateColumnsEach_get bindings [] b D I) as C.
    unfold Tables.validateTablesExistFor, Tables.validateColumnsExistFor.
    destruct (JS.get (Tables.validateTablesEach pool bindings []) (table b))
      as [tc|]; [|discriminate].
    destruct (JS.get (Tables.validateColumnsEach pool bindings []) (table b))
      as [cc|]; [|discriminate].
    simpl in T, C. injection T as ->. injection C as ->.
    rewrite andb_true_iff.
    destruct (count_tables pool (table b)) as [m1|n1],
             (count_columns pool (table b) (column b)) as [m2|n2];
      rewrite ?Z.ltb_lt; split;
      try (intros [? ?]; discriminate);
      try (intros [[? [? ?]] [? [? ?]]]; discriminate).
    - intros [L1 L2]. split; eexists; split; (reflexivity || assumption).
    - intros [[k1 [[= <-] L1]] [k2 [[= <-] L2]]]. split; assumption. }
  split.
  - intros [vr E]. destruct allValid; [|discriminate].
    intros b I. apply Each; [exact I|].
    symmetry in V. rewrite forallb_forall in V. apply V, I.
  - intros All. assert (allValid = true) as ->.
    { rewrite V. apply forallb_forall. intros b I. apply Each; auto. }
    eexists. reflexivity.
Qed.

End Validation.

Lemma X17_validation_passes_exactly_when_every_binding_exists_witness :
  NoDup (map table getMigrationTables)
  /\ ((exists validationResults,
         ConfiguredAnalyzer.validateMigrationTablesFor Scenario.toMigrate
           getMigrationTables
         = inr validationResults)
      <-> forall b, In b getMigrationTables ->
            (exists n, count_tables Scenario.toMigrate (table b) = inr n
                       /\ 0 < n)
            /\ (exists n,
                  count_columns Scenario.toMigrate (table b) (column b) = inr n
                  /\ 0 < n)).
Proof.
  assert (D : NoDup (map table getMigrationTables)).
  { repeat constructor; simpl; intuition discriminate. }
  split; [exact D|].
  exact (X17_validation_passes_exactly_when_every_binding_exists
           Scenario.toMigrate getMigrationTables D).
Defined.

(* ===================================================================== *)
(** * The safety check of the schema-scan remover *)
(* ===================================================================== *)

Section LegacySafetyCheck.
Context {W : Type} `{Environment W}.
Variable sourceUserId : Z.

Lemma legacy_checkEach_aggregate entries acc base tr0 (s : state W) :
  trace s = base ++ tr0 ->
  allCalls isQuery tr0 ->
  failures tr0 = 0 ->
  NoDup (map fst entries) ->
  (forall t, In t (map fst entries) -> JS.get (fst acc) t = None) ->
  wp (LegacyUserRemover.checkEach sourceUserId entries acc)
     (fun res s' =>
        exists tr,
          trace s' = base ++ tr
          /\ allCalls isQuery tr
          /\ match res with
             | Ok acc' =>
                 failures tr = 0
                 /\ snd acc' - UserRemover.sumRemaining (fst acc')
                    = snd acc - UserRemover.sumRemaining (fst acc)
             | Threw e =>
                 failures tr = 1 /\ exists msg, e = QueryError msg
             end)
     s.
Proof.
  revert acc tr0 s.
  induction entries as [|[tableName columns] rest IH];
    intros acc tr0 s Etr Q F D Fresh; simpl.
  - apply wp_ret. exists tr0. auto.
  - simpl in D. inversion D as [|? ? Nin D']; subst.
    assert (Frest : forall t, In t (map fst rest) -> JS.get (fst acc) t = None).
    { intros t I. apply Fresh. right. exact I. }
    destruct (find isUserIdColumn columns) as [userIdColumn|];
      [|apply (IH _ tr0); assumption].
    unfold poolCount. apply wp_bind, wp_perform.
    + intros n w' E.
      eapply wp_mono;
        [apply (IH _ (tr0 ++ [{| ev_call :=
                                   CountWhere tableName userIdColumn sourceUserId;
                                 ev_response := Number n |}]));
         [cbn [trace record]; rewrite Etr, <- app_assoc; reflexivity
         |apply allCalls_snoc; [reflexivity | exact Q]
         |rewrite failures_app, F; reflexivity
         |exact D'
         |]|].
      * cbn [fst]. intros t I. rewrite get_set_other; [apply Frest, I|].
        intros <-. contradiction.
      * intros res s' [tr [Etr' [Q' R]]]. exists tr.
        split; [exact Etr'|]. split; [exact Q'|].
        destruct res as [acc'|e]; [|exact R].
        destruct R as [F' Eq]. split; [exact F'|].
        cbn [fst snd] in Eq.
        rewrite sumRemaining_set_fresh in Eq
          by (apply Fresh; left; reflexivity).
        cbn [UserRemover.remainingReferences] in Eq. lia.
    + intros msg w' E. eexists. cbn [trace record].
      split; [rewrite Etr, <- app_assoc; reflexivity|].
      split; [apply allCalls_app; [exact Q | repeat constructor]|].
      split; [rewrite failures_app, F; reflexivity | eexists; reflexivity].
Qed.

(** X18. The safety check of the schema-scan remover fails closed. It
    only issues read queries. When it returns, no query failed, its
    total is the sum of the entries it recorded, and the removal is
    judged safe exactly when that total is zero. It throws in two
    cases only: at the first query that fails, with the error of that
    query; and, no query having failed, when the catalogue names a
    table like a member of [Object.prototype], with the TypeError of
    the table map. *)
Theorem X18_schema_scan_safety_check_fails_closed (s : state W) :
  wp (LegacyUserRemover.verifySafeToRemove sourceUserId)
     (fun res s' =>
        exists tr,
          trace s' = trace s ++ tr
          /\ allCalls isQuery tr
          /\ match res with
             | Ok sr =>
                 failures tr = 0
                 /\ UserRemover.totalReferences sr
                    = UserRemover.sumRemaining (UserRemover.safetyCheck sr)
                 /\ UserRemover.isSafe sr
                    = (UserRemover.totalReferences sr =? 0)
             | Threw e =>
                 (failures tr = 1 /\ exists msg, e = QueryError msg)
                 \/ (failures tr = 0
                     /\ exists tableName,
                          JS.inherited tableName = true
                          /\ e = NotAFunction tableName)
             end)
     s.
Proof.
  unfold LegacyUserRemover.verifySafeToRemove,
    DatabaseAnalyzer.findTablesWithUserId, poolListUserIdColumns.
  apply wp_rethrow, wp_bind, wp_rethrow, wp_bind, wp_perform.
  - intros rows w1 E1.
    pose proof (pushColumns_outcome rows []) as O.
    destruct (DatabaseAnalyzer.pushColumns rows []) as [e|tableMap] eqn:P.
    + apply wp_throw. eexists. cbn [trace record].
      split; [reflexivity|]. split; [repeat constructor|].
      right. split; [reflexivity|].
      destruct O as [t [c [_ [Inh ->]]]]. exists t. auto.
    + apply wp_ret. cbv beta iota. apply wp_bind.
      eapply wp_mono;
        [apply (legacy_checkEach_aggregate _ _ (trace s)
                  [{| ev_call := ListUserIdColumns;
                      ev_response := Names rows |}]);
         [reflexivity | repeat constructor | reflexivity
         | apply entries_keys, (pushColumns_keys _ _ _ P); constructor
         | reflexivity]|].
      intros res s' [tr [Etr [Q R]]].
      destruct res as [[safetyCheck totalReferences]|e]; cbv beta iota.
      * apply wp_ret. exists tr. split; [exact Etr|]. split; [exact Q|].
        destruct R as [F Eq]. simpl in *. repeat split; try assumption. lia.
      * exists tr. auto.
  - intros msg w1 E1. eexists. cbn [trace record].
    split; [reflexivity|]. split; [repeat constructor|].
    left. split; [reflexivity | eexists; reflexivity].
Qed.

End LegacySafetyCheck.

(* ===================================================================== *)
(** * The record counts of the configured analyzer *)
(* ===================================================================== *)

Section ConfiguredCounts.
Context {W : Type} `{Environment W}.
Variable a : ConfiguredAnalyzer.t.

Lemma configured_countEach_records all bindings recordCounts base tr0
    (s : state W) :
  incl bindings all ->
  trace s = base ++ tr0 ->
  (forall t e, JS.get recordCounts t = Some e ->
     exists b,
       In b all /\ table b = t
       /\ ConfiguredAnalyzer.rc_column e = column b
       /\ match ConfiguredAnalyzer.error e with
          | None =>
              In {| ev_call :=
                      CountWhere t (column b)
                        (ConfiguredAnalyzer.sourceUserId a);
                    ev_response := Number (ConfiguredAnalyzer.count e) |} tr0
          | Some err =>
              ConfiguredAnalyzer.count e = 0
              /\ exists msg,
                   err = QueryError msg
                   /\ In {| ev_call :=
                              CountWhere t (column b)
                                (ConfiguredAnalyzer.sourceUserId a);
                            ev_response := Failed msg |} tr0
          end) ->
  wp (ConfiguredAnalyzer.countEach a bindings recordCounts)
     (fun res s' =>
        exists recordCounts' tr,
          res = Ok recordCounts'
          /\ trace s' = base ++ tr0 ++ tr
          /\ map ev_call tr
             = map (fun b => CountWhere (table b) (column b)
                               (ConfiguredAnalyzer.sourceUserId a)) bindings
          /\ forall t e, JS.get recordCounts' t = Some e ->
               exists b,
                 In b all /\ table b = t
                 /\ ConfiguredAnalyzer.rc_column e = column b
                 /\ match ConfiguredAnalyzer.error e with
                    | None =>
                        In {| ev_call :=
                                CountWhere t (column b)
                                  (ConfiguredAnalyzer.sourceUserId a);
                              ev_response :=
                                Number (ConfiguredAnalyzer.count e) |}
                           (tr0 ++ tr)
                    | Some err =>
                        ConfiguredAnalyzer.count e = 0
                        /\ exists msg,
                             err = QueryError msg
                             /\ In {| ev_call :=
                                        CountWhere t (column b)
                                          (ConfiguredAnalyzer.sourceUserId a);
                                      ev_response := Failed msg |} (tr0 ++ tr)
                    end)
     s.
Proof.
  revert recordCounts tr0 s.
  induction bindings as [|b rest IH]; intros rc tr0 s Incl Etr Inv; simpl.
  - apply wp_ret. exists rc, []. rewrite !app_nil_r. auto.
  - assert (Incl' : incl rest all).
    { intros x I. apply Incl. right. exact I. }
    assert (Here : In b all) by (apply Incl; left; reflexivity).
    assert (Step : forall rsp rc' (s1 : state W),
      trace s1 = base ++ tr0
                 ++ [{| ev_call :=
                          CountWhere (table b) (column b)
                            (ConfiguredAnalyzer.sourceUserId a);
                        ev_response := rsp |}] ->
      (forall t e, JS.get rc' t = Some e ->
         exists b0,
           In b0 all /\ table b0 = t
           /\ ConfiguredAnalyzer.rc_column e = column b0
           /\ match ConfiguredAnalyzer.error e with
              | None =>
                  In {| ev_call :=
                          CountWhere t (column b0)
                            (ConfiguredAnalyzer.sourceUserId a);
                        ev_response := Number (ConfiguredAnalyzer.count e) |}
                     (tr0 ++ [{| ev_call :=
                                   CountWhere (table b) (column b)
                                     (ConfiguredAnalyzer.sourceUserId a);
                                 ev_response := rsp |}])
              | Some err =>
                  ConfiguredAnalyzer.count e = 0
                  /\ exists msg,
                       err = QueryError msg
                       /\ In {| ev_call :=
                                  CountWhere t (column b0)
                                    (ConfiguredAnalyzer.sourceUserId a);
                                ev_response := Failed msg |}
                             (tr0 ++ [{| ev_call :=
                                           CountWhere (table b) (column b)
                                             (ConfiguredAnalyzer.sourceUserId a);
                                         ev_response := rsp |}])
              end) ->
      wp (ConfiguredAnalyzer.countEach a rest rc')
         (fun res s' =>
            exists recordCounts' tr,
              res = Ok recordCounts'
              /\ trace s' = base ++ tr0 ++ tr
              /\ map ev_call tr
                 = CountWhere (table b) (column b)
                     (ConfiguredAnalyzer.sourceUserId a)
                   :: map (fun b => CountWhere (table b) (column b)
                                      (ConfiguredAnalyzer.sourceUserId a)) rest
              /\ forall t e, JS.get recordCounts' t = Some e ->
                   exists b0,
                     In b0 all /\ table b0 = t
                     /\ ConfiguredAnalyzer.rc_column e = column b0
                     /\ match ConfiguredAnalyzer.error e with
                        | None =>
                            In {| ev_call :=
                                    CountWhere t (column b0)
                                      (ConfiguredAnalyzer.sourceUserId a);
                                  ev_response :=
                                    Number (ConfiguredAnalyzer.count e) |}
                               (tr0 ++ tr)
                        | Some err =>
                            ConfiguredAnalyzer.count e = 0
                            /\ exists msg,
                                 err = QueryError msg
                                 /\ In {| ev_call :=
                                            CountWhere t (column b0)
                                              (ConfiguredAnalyzer.sourceUserId a);
                                          ev_response := Failed msg |}
                                       (tr0 ++ tr)
                        end) s1).
    { intros rsp rc' s1 Etr1 Inv1.
      eapply wp_mono;
        [apply (IH rc' (tr0 ++ [{| ev_call :=
                                     CountWhere (table b) (column b)
                                       (ConfiguredAnalyzer.sourceUserId a);
                                   ev_response := rsp |}]) s1 Incl');
         [rewrite Etr1; reflexivity | exact Inv1]|].
      intros res s' [rc'' [tr [-> [Etr' [Calls Inv']]]]].
      exists rc''. eexists. split; [reflexivity|].
      split; [rewrite Etr', <- !app_assoc; reflexivity|].
      split; [simpl; rewrite Calls; reflexivity|].
      intros t e G. destruct (Inv' t e G) as [b0 [I0 [T0 [C0 R0]]]].
      exists b0. rewrite <- !app_assoc in R0. simpl in R0.
      repeat split; assumption. }
    unfold poolCount. apply wp_bind, wp_try_catch, wp_bind, wp_perform.
    + intros n w' E. apply wp_ret. cbv beta iota.
      apply (Step (Number n)).
      * cbn [trace record]. rewrite Etr, <- app_assoc. reflexivity.
      * intros t e. rewrite get_set.
        destruct (String.eqb (table b) t) eqn:Et.
        -- apply String.eqb_eq in Et. subst t. intros [= <-]. simpl.
           exists b. repeat split; try assumption.
           apply in_or_app. right. left. reflexivity.
        -- intros G. destruct (Inv t e G) as [b0 [I0 [T0 [C0 R0]]]].
           exists b0. repeat split; try assumption.
           destruct (ConfiguredAnalyzer.error e).
           ++ destruct R0 as [Z0 [msg [Em Im]]]. split; [exact Z0|].
              exists msg. split; [exact Em|]. apply in_or_app. left. exact Im.
           ++ apply in_or_app. left. exact R0.
    + intros msg w' E. apply wp_ret. cbv beta iota.
      apply (Step (Failed msg)).
      * cbn [trace record]. rewrite Etr, <- app_assoc. reflexivity.
      * intros t e. rewrite get_set.
        destruct (String.eqb (table b) t) eqn:Et.
        -- apply String.eqb_eq in Et. subst t. intros [= <-]. simpl.
           exists b. repeat split; try assumption.
           exists msg. split; [reflexivity|].
           apply in_or_app. right. left. reflexivity.
        -- intros G. destruct (Inv t e G) as [b0 [I0 [T0 [C0 R0]]]].
           exists b0. repeat split; try assumption.
           destruct (ConfiguredAnalyzer.error e).
           ++ destruct R0 as [Z0 [msg' [Em Im]]]. split; [exact Z0|].
              exists msg'. split; [exact Em|]. apply in_or_app. left. exact Im.
           ++ apply in_or_app. left. exact R0.
Qed.

End ConfiguredCounts.

(** X19. [countRecordsByTable] of the configured analyzer never throws.
    It issues exactly one count per configured binding, in their order,
    on the binding's table and column. An entry it returns names the
    column of a binding for that table and carries the number the count
    gave, or zero together with the error of the count that failed. *)
Theorem X19_configured_counts_follow_the_bindings
    {W : Type} `{Environment W} (a : ConfiguredAnalyzer.t) (s : state W) :
  wp (ConfiguredAnalyzer.countRecordsByTable a)
     (fun res s' =>
        exists recordCounts tr,
          res = Ok recordCounts
          /\ trace s' = trace s ++ tr
          /\ map ev_call tr
             = map (fun b => CountWhere (table b) (column b)
                               (ConfiguredAnalyzer.sourceUserId a))
                   (ConfiguredAnalyzer.migrationTables a)
          /\ forall t e, JS.get recordCounts t = Some e ->
               exists b,
                 In b (ConfiguredAnalyzer.migrationTables a) /\ table b = t
                 /\ ConfiguredAnalyzer.rc_column e = column b
                 /\ match ConfiguredAnalyzer.error e with
                    | None =>
                        In {| ev_call :=
                                CountWhere t (column b)
                                  (ConfiguredAnalyzer.sourceUserId a);
                              ev_response :=
                                Number (ConfiguredAnalyzer.count e) |} tr
                    | Some err =>
                        ConfiguredAnalyzer.count e = 0
                        /\ exists msg,
                             err = QueryError msg
                             /\ In {| ev_call :=
                                        CountWhere t (column b)
                                          (ConfiguredAnalyzer.sourceUserId a);
                                      ev_response := Failed msg |} tr
                    end)
     s.
Proof.
  unfold ConfiguredAnalyzer.countRecordsByTable. apply wp_try_catch.
  eapply wp_mono;
    [apply (configured_countEach_records a
              (ConfiguredAnalyzer.migrationTables a)
              (ConfiguredAnalyzer.migrationTables a) [] (trace s) []);
     [apply incl_refl | symmetry; apply app_nil_r
     | intros t e; discriminate]|].
  intros res s' [rc [tr [-> [Etr [Calls Inv]]]]].
  exists rc, tr. split; [reflexivity|]. split; [exact Etr|].
  split; [exact Calls | exact Inv].
Qed.

(* ===================================================================== *)
(** * A migration that fails *)
(* ===================================================================== *)

Lemma isCountOrUpdate_inLoop c : isCountOrUpdate c = true -> inLoop c = true.
Proof. destruct c; simpl; congruence. Qed.

(** The event [I] speaks of is not in a trace whose parts are single
    calls or runs of calls known by a predicate. *)
Ltac absent I :=
  repeat (apply in_app_or in I; destruct I as [I | I];
          [| first
               [ simpl in I; destruct I as [I | []]; discriminate I
               | match type of I with
                 | In _ ?tr =>
                     match goal with
                     | F : allCalls _ tr |- _ =>
                         apply (allCalls_In _ _ _ F) in I; discriminate I
                     end
                 end ]]);
  match type of I with
  | In _ ?tr =>
      match goal with
      | F : allCalls _ tr |- _ =>
          apply (allCalls_In _ _ _ F) in I; discriminate I
      end
  end.

Section FailedMigration.
Context {W : Type} `{Environment W}.
Variable m : UserMigrator.t.

Lemma quiet_migrateEach_inLoop recordCounts entries acc :
  quiet inLoop (@blind W)
    (UserMigrator.migrateEach m recordCounts entries acc).
Proof.
  revert acc.
  induction entries as [|[tableName columns] rest IH]; intros acc; simpl.
  - apply quiet_ret.
  - destruct (find isUserIdColumn columns) as [userIdColumn|]; [|apply IH].
    destruct (UserMigrator.hasRecords recordCounts tableName); [|apply IH].
    apply quiet_bind; [|intros acc'; apply IH].
    apply quiet_try_catch.
    + apply quiet_bind; [|intros result; apply quiet_ret].
      eapply quiet_weaken; [apply isCountOrUpdate_inLoop|].
      apply quiet_migrateTable.
    + intros e. apply quiet_bind; [|intros _; apply quiet_throw].
      destruct (negb (UserMigrator.dryRun m)); [|apply quiet_ret].
      apply quiet_perform; reflexivity.
Qed.

(** X20. An executed migration that throws has not committed. When it
    had taken its connection before it failed, it has called ROLLBACK
    and has given the connection back. *)
Theorem X20_a_failed_migration_rolls_back_and_releases
    (analyzer : DatabaseAnalyzer.t) (w : W) :
  UserMigrator.dryRun m = false ->
  wp (UserMigrator.executeMigration m analyzer)
     (fun res s' =>
        forall e, res = Threw e ->
          ~ In {| ev_call := Commit; ev_response := Done |} (trace s')
          /\ (In {| ev_call := GetConnection; ev_response := Done |} (trace s') ->
              (exists rsp,
                 In {| ev_call := Rollback; ev_response := rsp |} (trace s'))
              /\ In {| ev_call := Release; ev_response := Done |} (trace s')))
     (init w).
Proof.
  intros exe. unfold UserMigrator.executeMigration. rewrite exe.
  simpl negb. cbv iota.
  apply wp_finally, wp_try_catch.
  set (Q := fun (res : outcome UserMigrator.MigrationResult) (s' : state W) =>
        forall e, res = Threw e ->
          ~ In {| ev_call := Commit; ev_response := Done |} (trace s')
          /\ (In {| ev_call := GetConnection; ev_response := Done |} (trace s') ->
              (exists rsp,
                 In {| ev_call := Rollback; ev_response := rsp |} (trace s'))
              /\ In {| ev_call := Release; ev_response := Done |} (trace s'))).
  assert (Hidle : forall e (s1 : state W),
    advances isQuery blind (init w) s1 ->
    wp (c <- connectionDefined ;;
        (if c && true
         then try_catch connRollback (fun _ => ret tt) else ret tt) ;;;
        throw e)
       (fun (r : outcome UserMigrator.MigrationResult) s2 =>
          wp (c <- connectionDefined ;; (if c then connRelease else ret tt))
             (fun rf s3 =>
                match rf with
                | Ok _ => Q r s3
                | Threw e' => Q (Threw e') s3
                end) s2) s1).
  { intros e s1 Adv. pose proof Adv as [_ [_ C]].
    specialize (C eq_refl). simpl in C.
    apply advances_init in Adv. destruct Adv as [Fq _].
    unfold Q. wp_walk. intros e' _. split; intros I; absent I. }
  eapply wp_bind_quiet;
    [eapply quiet_weaken;
       [apply isSelectById_isQuery
       |apply (quiet_validatePrerequisites blind inert_blind)]
    | | intros; apply Hidle; assumption].
  intros users s1 A1.
  eapply wp_bind_quiet;
    [apply (quiet_findTablesWithUserId_queries blind inert_blind)
    | | intros e s2 A2; apply Hidle; eapply advances_trans; eassumption].
  intros tableMap s2 A2.
  pose proof (advances_trans _ _ _ _ _ A1 A2) as A12.
  eapply wp_bind_quiet;
    [apply (quiet_countRecordsByTable_queries blind inert_blind)
    | | intros e s3 A3; apply Hidle; eapply advances_trans; eassumption].
  intros recordCounts s3 A3.
  pose proof (advances_trans _ _ _ _ _ A12 A3) as Adv. clear A1 A2 A3 A12 Hidle.
  pose proof Adv as [_ [_ C]]. specialize (C eq_refl). simpl in C.
  apply advances_init in Adv. destruct Adv as [Fq _].
  unfold poolGetConnection, connBeginTransaction, connCommit, connRollback,
    connRelease, Q.
  apply wp_bind, wp_bind, wp_perform;
    [intros [] w4 E4
    | intros msg w4 E4; wp_walk; intros e' _; cbn [trace record];
      split; intros I; absent I].
  wp_simpl. apply wp_assignConnection. wp_simpl.
  apply wp_bind, wp_perform; [intros [] w5 E5 | intros msg w5 E5].
  - wp_simpl. apply wp_bind.
    eapply wp_mono; [apply quiet_migrateEach_inLoop|].
    intros res s6 [[tr [Etr Ftr]] [_ C6]]. specialize (C6 eq_refl).
    cbn [trace record connection] in Etr, C6.
    destruct res as [[results total]|e]; cbv beta iota;
      [destruct (0 <? total)|];
      wp_walk; try discriminate;
      intros e' _; cbn [trace record]; rewrite Etr;
      (split; [intros I; absent I | intros _; split; [eexists|]; in_trace]).
  - wp_walk; intros e' _; cbn [trace record];
      (split; [intros I; absent I | intros _; split; [eexists|]; in_trace]).
Qed.

End FailedMigration.

Lemma X20_a_failed_migration_rolls_back_and_releases_witness :
  UserMigrator.dryRun Scenario.migrator = false
  /\ wp (UserMigrator.executeMigration Scenario.migrator Scenario.analyzer)
        (fun res s' =>
           forall e, res = Threw e ->
             ~ In {| ev_call := Commit; ev_response := Done |} (trace s')
             /\ (In {| ev_call := GetConnection; ev_response := Done |}
                    (trace s') ->
                 (exists rsp,
                    In {| ev_call := Rollback; ev_response := rsp |} (trace s'))
                 /\ In {| ev_call := Release; ev_response := Done |} (trace s')))
        (init Scenario.secondRewriteFails).
Proof.
  split; [reflexivity|].
  apply (X20_a_failed_migration_rolls_back_and_releases
           Scenario.migrator Scenario.analyzer Scenario.secondRewriteFails).
  reflexivity.
Defined.

(* ===================================================================== *)
(** * A table rewrite against the stored data *)
(* ===================================================================== *)

Lemma cell_setCell r c v :
  MySQL.cell r c <> None -> MySQL.cell (MySQL.setCell r c v) c = Some v.
Proof.
  induction r as [|[c' v'] r IH]; simpl; [congruence|].
  destruct (String.eqb c' c) eqn:E; simpl; rewrite E; auto.
Qed.

Lemma matches_setCell r c oldId newId id :
  MySQL.matches c oldId r = true ->
  MySQL.matches c id (MySQL.setCell r c (VInt newId)) = (newId =? id).
Proof.
  unfold MySQL.matches. intros M.
  rewrite cell_setCell; [reflexivity|].
  destruct (MySQL.cell r c); [discriminate | discriminate M].
Qed.

Lemma countRows_rewriteRows c newId oldId rows :
  newId <> oldId ->
  MySQL.countRows c oldId (MySQL.rewriteRows c newId oldId rows) = 0
  /\ MySQL.countRows c newId (MySQL.rewriteRows c newId oldId rows)
     = MySQL.countRows c newId rows + MySQL.countRows c oldId rows.
Proof.
  intros N. unfold MySQL.countRows, MySQL.rewriteRows.
  induction rows as [|r rows [IH1 IH2]]; [split; reflexivity|].
  cbn [map filter].
  destruct (MySQL.matches c oldId r) eqn:Mo.
  - rewrite !(matches_setCell _ _ _ _ _ Mo).
    rewrite Z.eqb_refl.
    assert (No : (newId =? oldId) = false) by (apply Z.eqb_neq, N).
    rewrite No.
    assert (Mn : MySQL.matches c newId r = false).
    { unfold MySQL.matches in *. destruct (MySQL.cell r c) as [[|k|]|];
        try discriminate. apply Z.eqb_eq in Mo. subst k.
        apply Z.eqb_neq. congruence. }
    rewrite Mn. cbv iota. cbn [Datatypes.length]. split; [exact IH1 | lia].
  - rewrite Mo. destruct (MySQL.matches c newId r); cbv iota; cbn [Datatypes.length];
      split; (exact IH1 || lia).
Qed.

Lemma findTable_name ts name t :
  MySQL.findTable ts name = Some t -> MySQL.t_name t = name.
Proof.
  induction ts as [|t0 ts IH]; simpl; [discriminate|].
  destruct (String.eqb (MySQL.t_name t0) name) eqn:E; [|exact IH].
  intros [= <-]. apply String.eqb_eq, E.
Qed.

Lemma findTable_replaceTable ts t t' :
  MySQL.findTable ts (MySQL.t_name t') = Some t ->
  MySQL.findTable (MySQL.replaceTable ts t') (MySQL.t_name t') = Some t'.
Proof.
  induction ts as [|t0 ts IH]; simpl; [discriminate|].
  destruct (String.eqb (MySQL.t_name t0) (MySQL.t_name t')) eqn:E; simpl.
  - rewrite String.eqb_refl. reflexivity.
  - rewrite E. exact IH.
Qed.

Lemma findTable_replaceTable_other ts t' name :
  name <> MySQL.t_name t' ->
  MySQL.findTable (MySQL.replaceTable ts t') name = MySQL.findTable ts name.
Proof.
  intros N. induction ts as [|t0 ts IH]; simpl; [reflexivity|].
  destruct (String.eqb (MySQL.t_name t0) (MySQL.t_name t')) eqn:E; simpl.
  - apply String.eqb_eq in E.
    destruct (String.eqb (MySQL.t_name t') name) eqn:E'.
    + apply String.eqb_eq in E'. congruence.
    + rewrite E. rewrite E'. reflexivity.
  - rewrite IH. reflexivity.
Qed.

Lemma MySQL_updateWhere_moves t c newId oldId (d d' : MySQL.db) n :
  MySQL.updateWhere t c newId oldId d = (inr n, d') ->
  newId <> oldId ->
  n = MySQL.references (MySQL.tables d) t c oldId
  /\ MySQL.references (MySQL.tables d') t c oldId = 0
  /\ MySQL.references (MySQL.tables d') t c newId
     = MySQL.references (MySQL.tables d) t c newId + n
  /\ forall t', t' <> t ->
       MySQL.findTable (MySQL.tables d') t' = MySQL.findTable (MySQL.tables d) t'.
Proof.
  unfold MySQL.updateWhere, MySQL.references.
  destruct (MySQL.findTable (MySQL.tables d) t) as [td|] eqn:Ft; [|discriminate].
  destruct (negb (MySQL.can_update td)); [discriminate|].
  destruct (negb (MySQL.hasColumn td c)); [discriminate|].
  intros [= <- <-] N. cbn [MySQL.tables MySQL.withTables].
  pose proof (findTable_name _ _ _ Ft) as Nm.
  set (td' := MySQL.withRows td
                (MySQL.rewriteRows c newId oldId (MySQL.t_rows td))).
  assert (Nm' : MySQL.t_name td' = t) by exact Nm.
  assert (Ft' : MySQL.findTable (MySQL.replaceTable (MySQL.tables d) td') t
                = Some td').
  { rewrite <- Nm'. eapply findTable_replaceTable. rewrite Nm'. exact Ft. }
  rewrite Ft'. cbn [MySQL.t_rows td' MySQL.withRows].
  destruct (countRows_rewriteRows c newId oldId (MySQL.t_rows td) N) as [R1 R2].
  repeat split; try assumption.
  intros t' Nt. apply findTable_replaceTable_other. congruence.
Qed.

(** X15. On the in-memory store, an executed [migrateTable] that
    returns, for distinct source and target users, has moved every
    reference: [migrated] is the number of rows that pointed to the
    source user, no row of the table points to the source user any
    more, the rows of the target user are those it had plus the
    migrated ones, and every other table is as it was. *)
Theorem X15_a_table_rewrite_moves_every_reference
    (m : UserMigrator.t)
    (tableName userIdColumn : string) (s : state MySQL.db) :
  UserMigrator.dryRun m = false ->
  UserMigrator.targetUserId m <> UserMigrator.sourceUserId m ->
  wp (UserMigrator.migrateTable m tableName userIdColumn)
     (fun res s' =>
        forall result, res = Ok result ->
          UserMigrator.migrated result
          = MySQL.references (MySQL.tables (world s)) tableName userIdColumn
              (UserMigrator.sourceUserId m)
          /\ MySQL.references (MySQL.tables (world s')) tableName userIdColumn
               (UserMigrator.sourceUserId m) = 0
          /\ MySQL.references (MySQL.tables (world s')) tableName userIdColumn
               (UserMigrator.targetUserId m)
             = MySQL.references (MySQL.tables (world s)) tableName userIdColumn
                 (UserMigrator.targetUserId m)
               + MySQL.references (MySQL.tables (world s)) tableName
                   userIdColumn (UserMigrator.sourceUserId m)
          /\ forall t', t' <> tableName ->
               MySQL.findTable (MySQL.tables (world s')) t'
               = MySQL.findTable (MySQL.tables (world s)) t')
     s.
Proof.
  intros exe N. unfold UserMigrator.migrateTable, poolCount, poolUpdate.
  rewrite exe. apply wp_rethrow, wp_bind, wp_perform; [|discriminate].
  intros n1 w1 E1. apply MySQL_countWhere_counts in E1. destruct E1 as [-> ->].
  destruct (MySQL.references (MySQL.tables (world s)) tableName userIdColumn
              (UserMigrator.sourceUserId m) =? 0) eqn:Z0.
  - apply Z.eqb_eq in Z0. apply wp_ret. intros result [= <-].
    cbn [world record UserMigrator.migrated]. rewrite Z0.
    repeat split; try reflexivity. lia.
  - apply wp_bind, wp_perform; [|discriminate].
    intros n2 w2 E2. apply MySQL_countWhere_counts in E2.
    cbn [world record] in E2. destruct E2 as [-> ->].
    apply wp_bind, wp_perform; [|discriminate].
    intros n3 w3 E3. cbn [world record] in E3.
    apply MySQL_updateWhere_moves in E3; [|exact N].
    destruct E3 as [-> [R1 [R2 R3]]].
    apply wp_ret. intros result [= <-].
    cbn [world record UserMigrator.migrated].
    repeat split; assumption.
Qed.

Lemma X15_a_table_rewrite_moves_every_reference_witness :
  UserMigrator.dryRun Scenario.migrator = false
  /\ UserMigrator.targetUserId Scenario.migrator
     <> UserMigrator.sourceUserId Scenario.migrator
  /\ wp (UserMigrator.migrateTable Scenario.migrator "content" "user_id")
        (fun res s' =>
           forall result, res = Ok result ->
             UserMigrator.migrated result
             = MySQL.references (MySQL.tables Scenario.toMigrate)
                 "content" "user_id"
                 (UserMigrator.sourceUserId Scenario.migrator)
             /\ MySQL.references (MySQL.tables (world s')) "content" "user_id"
                  (UserMigrator.sourceUserId Scenario.migrator) = 0
             /\ MySQL.references (MySQL.tables (world s')) "content" "user_id"
                  (UserMigrator.targetUserId Scenario.migrator)
                = MySQL.references (MySQL.tables Scenario.toMigrate)
                    "content" "user_id"
                    (UserMigrator.targetUserId Scenario.migrator)
                  + MySQL.references (MySQL.tables Scenario.toMigrate)
                      "content" "user_id"
                      (UserMigrator.sourceUserId Scenario.migrator)
             /\ forall t', t' <> "content" ->
                  MySQL.findTable (MySQL.tables (world s')) t'
                  = MySQL.findTable (MySQL.tables Scenario.toMigrate) t')
        (init Scenario.toMigrate).
Proof.
  assert (N : UserMigrator.targetUserId Scenario.migrator
              <> UserMigrator.sourceUserId Scenario.migrator)
    by (vm_compute; discriminate).
  split; [reflexivity|]. split; [exact N|].
  exact (X15_a_table_rewrite_moves_every_reference Scenario.migrator
           "content" "user_id" (init Scenario.toMigrate) eq_refl N).
Defined.

(* ===================================================================== *)
(** * config/tables.js: what the two validations report *)
(* ===================================================================== *)

(** X21. With distinct tables in the binding list, [validateTablesExist]
    and [validateColumnsExist] report every binding: a table, or a
    column, exists exactly when its catalogue query succeeds with a
    positive count, and a query that fails is reported as a table, or a
    column, that does not exist. *)
Theorem X21_validations_report_every_binding
    {W : Type} `{Catalogue W} (pool : W) (bindings : list Binding)
    (b : Binding) :
  NoDup (map table bindings) ->
  In b bindings ->
  option_map Tables.exists_
    (JS.get (Tables.validateTablesExistFor pool bindings) (table b))
  = Some match count_tables pool (table b) with
         | inr n => 0 <? n
         | inl _ => false
         end
  /\ option_map Tables.columnExists
       (JS.get (Tables.validateColumnsExistFor pool bindings) (table b))
     = Some match count_columns pool (table b) (column b) with
            | inr n => 0 <? n
            | inl _ => false
            end.
Proof.
  intros D I. split.
  - apply validateTablesEach_get; assumption.
  - apply validateColumnsEach_get; assumption.
Qed.

Lemma X21_validations_report_every_binding_witness :
  NoDup (map table getMigrationTables)
  /\ In {| table := "media"; column := "user_id" |} getMigrationTables
  /\ option_map Tables.exists_
       (JS.get (Tables.validateTablesExistFor Scenario.toMigrate
                  getMigrationTables) "media")
     = Some match count_tables Scenario.toMigrate "media" with
            | inr n => 0 <? n
            | inl _ => false
            end
  /\ option_map Tables.columnExists
       (JS.get (Tables.validateColumnsExistFor Scenario.toMigrate
                  getMigrationTables) "media")
     = Some match count_columns Scenario.toMigrate "media" "user_id" with
            | inr n => 0 <? n
            | inl _ => false
            end.
Proof.
  assert (D : NoDup (map table getMigrationTables)).
  { repeat constructor; simpl; intuition discriminate. }
  assert (I : In {| table := "media"; column := "user_id" |} getMigrationTables).
  { right. left. reflexivity. }
  split; [exact D|]. split; [exact I|].
  exact (X21_validations_report_every_binding Scenario.toMigrate
           getMigrationTables {| table := "media"; column := "user_id" |} D I).
Defined.

(* ===================================================================== *)
(** * The columns that the schema scan can find *)
(* ===================================================================== *)

Lemma columnsOf_In rows t c :
  In c (columnsOf rows t) -> In (t, c) rows.
Proof.
  unfold columnsOf. intros I. apply in_map_iff in I.
  destruct I as [[t' c'] [E I]]. simpl in E. subst c'.
  apply filter_In in I. destruct I as [I Et]. simpl in Et.
  apply String.eqb_eq in Et. subst t'. exact I.
Qed.

Lemma MySQL_listed_columns_match (d : MySQL.db) t c :
  In (t, c)
     (flat_map
        (fun td => map (fun c => (MySQL.t_name td, c))
                       (filter MySQL.likeUserId (MySQL.t_columns td)))
        (MySQL.tables d)) ->
  MySQL.likeUserId c = true.
Proof.
  intros I. apply in_flat_map in I. destruct I as [td [_ I]].
  apply in_map_iff in I. destruct I as [c' [[= _ <-] I]].
  apply filter_In in I. apply I.
Qed.

(** X22. On the in-memory store, whose catalogue query is the LIKE
    pattern of the source, every column in the table map of
    [findTablesWithUserId] matches that pattern. A column named
    [usuario_id] does not match it: the map never holds one, so the
    [usuario_id] alternative of the three column searches never selects
    a column. *)
Theorem X22_the_scan_never_lists_a_usuario_id_column
    (s : state MySQL.db) :
  MySQL.likeUserId "usuario_id" = false
  /\ wp DatabaseAnalyzer.findTablesWithUserId
        (fun res _ =>
           forall tableMap tableName columns c,
             res = Ok tableMap ->
             JS.get tableMap tableName = Some columns ->
             In c columns ->
             MySQL.likeUserId c = true /\ c <> "usuario_id")
        s.
Proof.
  split; [reflexivity|].
  unfold DatabaseAnalyzer.findTablesWithUserId, poolListUserIdColumns.
  apply wp_rethrow, wp_bind, wp_perform; [|discriminate].
  intros rows w' E.
  destruct (DatabaseAnalyzer.pushColumns rows []) as [e|tm] eqn:P;
    [apply wp_throw; discriminate|].
  apply wp_ret.
  intros tableMap tableName columns c [= <-] G I.
  rewrite (pushColumns_get _ _ _ tableName P) in G. simpl in G.
  assert (Ic : In c (columnsOf rows tableName)).
  { destruct (columnsOf rows tableName); [discriminate|].
    injection G as <-. exact I. }
  apply columnsOf_In in Ic.
  simpl in E. unfold MySQL.listUserIdColumns in E. injection E as <- _.
  apply MySQL_listed_columns_match in Ic.
  split; [exact Ic|]. intros ->. discriminate Ic.
Qed.

(* ===================================================================== *)
(** * The report of a simulated migration, on the in-memory store *)
(* ===================================================================== *)

(** X26. On the in-memory store, the report of a migration in Simulate
    mode gives the counts of before the run: every per-table result has
    [migrated] zero and, as [skipped], the number of rows of that table
    that pointed to the source user, in a user-id column of the table,
    before the run; and as many point to it after the run. *)
Theorem X26_simulated_report_gives_the_counts_before_the_run
    (m : UserMigrator.t) (analyzer : DatabaseAnalyzer.t) (d : MySQL.db) :
  UserMigrator.dryRun m = true ->
  wp (UserMigrator.executeMigration m analyzer)
     (fun res s' =>
        forall rep, res = Ok rep ->
          UserMigrator.totalMigrated rep = 0
          /\ forall t result,
               JS.get (UserMigrator.migrationResults rep) t = Some result ->
               UserMigrator.migrated result = 0
               /\ exists c,
                    isUserIdColumn c = true
                    /\ UserMigrator.skipped result
                       = MySQL.references (MySQL.tables d) t c
                           (UserMigrator.sourceUserId m)
                    /\ UserMigrator.skipped result
                       = MySQL.references (MySQL.tables (world s')) t c
                           (UserMigrator.sourceUserId m))
     (init d).
Proof.
  intros dry.
  pose proof (quiet_executeMigration_dry MySQL.tables MySQL_tables_inert m dry
                analyzer (init d)) as Q.
  pose proof (executeMigration_simulated m dry analyzer (init d)) as S.
  pose proof (keeps_executeMigration_dry MySQL.tables MySQL_tables_inert d m
                dry analyzer (init d) (faithful_init MySQL.tables d)) as F.
  unfold wp in *. apply advances_init in Q. destruct Q as [_ Q].
  intros rep E. destruct (S rep E) as [S1 S2]. split; [exact S1|].
  intros t result G.
  destruct (S2 t result (get_In _ _ _ G)) as [M0 [c [U I]]].
  split; [exact M0|]. exists c. split; [exact U|].
  destruct (proj2 F t c _ _ I) as [w0 [O Cn]].
  cbn [count_where MySQL.environment] in Cn.
  destruct (MySQL.countWhere t c (UserMigrator.sourceUserId m) w0)
    as [r d'] eqn:Ec.
  cbn [fst] in Cn. subst r.
  apply MySQL_countWhere_counts in Ec. destruct Ec as [_ Ec].
  rewrite O in Ec. split; [exact Ec|]. rewrite Q. exact Ec.
Qed.

Lemma X26_simulated_report_gives_the_counts_before_the_run_witness :
  UserMigrator.dryRun Scenario.dryMigrator = true
  /\ let '(res, s') :=
       UserMigrator.executeMigration Scenario.dryMigrator Scenario.analyzer
         (init Scenario.toMigrate) in
     exists rep result,
       res = Ok rep
       /\ JS.get (UserMigrator.migrationResults rep) "content" = Some result
       /\ UserMigrator.migrated result = 0
       /\ UserMigrator.skipped result = 3
       /\ exists c,
            isUserIdColumn c = true
            /\ UserMigrator.skipped result
               = MySQL.references (MySQL.tables Scenario.toMigrate)
                   "content" c 41.
Proof.
  split; [reflexivity|].
  pose proof (X26_simulated_report_gives_the_counts_before_the_run
                Scenario.dryMigrator Scenario.analyzer Scenario.toMigrate
                eq_refl) as T.
  unfold wp in T.
  destruct (UserMigrator.executeMigration Scenario.dryMigrator
              Scenario.analyzer (init Scenario.toMigrate))
    as [res s'] eqn:R.
  vm_compute in R. injection R as <- <-. cbn [fst snd] in T.
  destruct (T _ eq_refl) as [_ T2].
  eexists. eexists. split; [reflexivity|]. split; [reflexivity|].
  destruct (T2 "content" _ eq_refl) as [M0 [c [U [Before _]]]].
  split; [exact M0|]. split; [reflexivity|].
  exists c. split; [exact U | exact Before].
Defined.
